(** * gitlab_ai_reviewer: the review helper, embedded and verified

    A shallow embedding of [src/helpers/gitlabreviewhelper.py]:
    diff parsing, diff rendering, token-aware chunk planning, the
    reviewer's token statistics, and the parsing / validation / posting
    of the model's answers; of the reading of [SKIP_EXTENSIONS] in
    [src/common/config_loader.py]; and of the review of a merge request
    and the two message handlers of [src/bots/tg_bot.py], with the regular
    expressions they and the diff parser use.

    Conventions.
    - A Python [str] is a [string]; every [ascii] stands for one code
      point below 256, so [\d] is exactly ['0'..'9'] and the line
      boundaries of [str.splitlines] are the ones listed in
      [PyStr.is_line_boundary].
    - A Python [int] is a [Z]; [len(...)] results are [nat].
    - [None] is [option]'s [None].
    - Code that can raise returns a [result]; collaborators outside the
      repository (tokenizer, JSON codec, pydantic's field coercions, the
      language-model service, the GitLab server) are type classes. *)

From Stdlib Require Import String Ascii List ZArith Lia Bool Arith.
From Stdlib Require Import DecimalString.
Import ListNotations.

Local Open Scope string_scope.
Local Open Scope list_scope.

(* ================================================================== *)
(** * Part I: the program *)
(* ================================================================== *)

(** ** Exceptions and fallible computations *)

Inductive exn : Type :=
| TypeError          (* unsupported operand, argument after ** not a mapping *)
| RateLimitError     (* openai.RateLimitError *)
| RuntimeError       (* raised by the retry wrapper *)
| OtherError (description : string).

Inductive result (A : Type) : Type :=
| Ok (a : A)
| Raise (e : exn).

Arguments Ok {A} a.
Arguments Raise {A} e.

Definition bind {A B : Type} (r : result A) (k : A -> result B) : result B :=
  match r with
  | Ok a => k a
  | Raise e => Raise e
  end.

Declare Scope result_scope.
Delimit Scope result_scope with result.
Notation "x <- r ;; k" := (bind r (fun x => k))
  (at level 61, r at next level, right associativity) : result_scope.

Definition obind {A B : Type} (o : option A) (k : A -> option B) : option B :=
  match o with
  | Some a => k a
  | None => None
  end.

Declare Scope option_scope.
Delimit Scope option_scope with option.
Notation "x <- o ;; k" := (obind o (fun x => k))
  (at level 61, o at next level, right associativity) : option_scope.

(** ** The operations of [str] the helper uses *)

Module PyStr.

Definition LF : ascii := "010"%char.
Definition CR : ascii := "013"%char.
Definition quote : ascii := "034"%char.

(** [s[n:]] *)
Fixpoint drop (n : nat) (s : string) : string :=
  match n, s with
  | O, _ => s
  | S _, EmptyString => EmptyString
  | S n', String _ s' => drop n' s'
  end.

(** [s[:n]] for [n >= 0] *)
Fixpoint take (n : nat) (s : string) : string :=
  match n, s with
  | O, _ => EmptyString
  | S _, EmptyString => EmptyString
  | S n', String c s' => String c (take n' s')
  end.

(** [s[:-n]] for [n > 0]: everything but the last [n] characters. *)
Definition drop_last (n : nat) (s : string) : string :=
  take (String.length s - n) s.

(** [s.startswith(p)] *)
Fixpoint startswith (p s : string) : bool :=
  match p, s with
  | EmptyString, _ => true
  | String _ _, EmptyString => false
  | String a p', String b s' => Ascii.eqb a b && startswith p' s'
  end.

(** [s.endswith(p)] *)
Definition endswith (p s : string) : bool :=
  (String.length p <=? String.length s)%nat
  && String.eqb (drop (String.length s - String.length p) s) p.

(** [sep.join(parts)] *)
Fixpoint join (sep : string) (parts : list string) : string :=
  match parts with
  | [] => EmptyString
  | [p] => p
  | p :: rest => p ++ sep ++ join sep rest
  end.

(** The line boundaries of [str.splitlines] among the code points
    below 256: LF, VT, FF, CR, FS, GS, RS and NEL. *)
Definition is_line_boundary (c : ascii) : bool :=
  let n := nat_of_ascii c in
  ((10 <=? n) && (n <=? 13) || (28 <=? n) && (n <=? 30) || (n =? 133))%nat.

(** [s.splitlines()]: [cur] is the line being read.  CR LF is one
    boundary; a last line is kept only when it is not empty. *)
Fixpoint splitlines_from (cur s : string) : list string :=
  match s with
  | EmptyString =>
      match cur with
      | EmptyString => []
      | _ => [cur]
      end
  | String c s' =>
      if is_line_boundary c then
        if Ascii.eqb c CR then
          match s' with
          | String c' s'' =>
              if Ascii.eqb c' LF then cur :: splitlines_from EmptyString s''
              else cur :: splitlines_from EmptyString s'
          | EmptyString => cur :: splitlines_from EmptyString s'
          end
        else cur :: splitlines_from EmptyString s'
      else splitlines_from (cur ++ String c EmptyString) s'
  end.

Definition splitlines (s : string) : list string :=
  splitlines_from EmptyString s.

(** [\d] *)
Definition is_digit (c : ascii) : bool :=
  let n := nat_of_ascii c in ((48 <=? n) && (n <=? 57))%nat.

(** The longest prefix of digits, and what follows it: how the greedy
    [\d+] splits its input when the next pattern item is not a digit. *)
Fixpoint span_digits (s : string) : string * string :=
  match s with
  | EmptyString => (EmptyString, EmptyString)
  | String c s' =>
      if is_digit c then
        let (d, r) := span_digits s' in (String c d, r)
      else (EmptyString, s)
  end.

(** [int(d)] for a string of digits *)
Definition int_of_digits (d : string) : Z :=
  fold_left (fun acc c => (10 * acc + Z.of_nat (nat_of_ascii c - 48))%Z)
            (list_ascii_of_string d) 0%Z.

(** [str(z)] *)
Definition str_of_int (z : Z) : string :=
  NilZero.string_of_int (Z.to_int z).

(** What is left of [s] after the literal [p], if [s] starts with it. *)
Fixpoint strip_prefix (p s : string) : option string :=
  match p, s with
  | EmptyString, _ => Some s
  | String _ _, EmptyString => None
  | String a p', String b s' =>
      if Ascii.eqb a b then strip_prefix p' s' else None
  end.

(** The white space of [str.strip] among the code points below 256. *)
Definition is_space (c : ascii) : bool :=
  let n := nat_of_ascii c in
  ((9 <=? n) && (n <=? 13) || (28 <=? n) && (n <=? 32)
   || (n =? 133) || (n =? 160))%nat.

Fixpoint lstrip (s : string) : string :=
  match s with
  | EmptyString => EmptyString
  | String c s' => if is_space c then lstrip s' else s
  end.

Fixpoint rstrip (s : string) : string :=
  match s with
  | EmptyString => EmptyString
  | String c s' =>
      match rstrip s' with
      | EmptyString => if is_space c then EmptyString else String c EmptyString
      | r => String c r
      end
  end.

(** [s.strip()] *)
Definition strip (s : string) : string := lstrip (rstrip s).

End PyStr.

(** ** DiffModel: [ParsedLine] and [Diff] *)

Record ParsedLine : Type := mkParsedLine {
  content : string;
  old_line : option Z;
  new_line : option Z;
  type : string
}.

Record Diff : Type := mkDiff {
  oldpath : string;
  newpath : string;
  parsed_lines : list ParsedLine
}.

(** ** DiffParser: [parse_diff_block] *)

Module DiffParser.
Import PyStr.
Local Open Scope option_scope.

(** One or more digits, then the rest. *)
Definition digits1 (s : string) : option (string * string) :=
  match span_digits s with
  | (EmptyString, _) => None
  | (d, r) => Some (d, r)
  end.

(** [re.match(r"@@ -(\d+),\d+ \+(\d+)(?:,\d+)? @@", line)], returning
    [(int(group(1)), int(group(2)))].  The match is anchored at the start
    of the line only.  Every [\d+] is followed by an item that is not a
    digit, so it takes the longest run of digits; the optional group is
    taken exactly when a comma follows the new start, since [" @@"] cannot
    match a comma. *)
Definition header_match (line : string) : option (Z * Z) :=
  r1 <- strip_prefix "@@ -" line ;;
  g1 <- digits1 r1 ;;
  r2 <- strip_prefix "," (snd g1) ;;
  c1 <- digits1 r2 ;;
  r3 <- strip_prefix " +" (snd c1) ;;
  g2 <- digits1 r3 ;;
  r4 <- match strip_prefix "," (snd g2) with
        | Some r => c2 <- digits1 r ;; Some (snd c2)
        | None => Some (snd g2)
        end ;;
  _ <- strip_prefix " @@" r4 ;;
  Some (int_of_digits (fst g1), int_of_digits (fst g2)).

(** The hunk header as the specification words it,
    [@@ -oldStart[,oldCount] +newStart[,newCount] @@], both counts
    optional.  Used to state what the specification asks of
    [header_match]; the program never calls it. *)
Definition optional_count (s : string) : option string :=
  match strip_prefix "," s with
  | Some r => c <- digits1 r ;; Some (snd c)
  | None => Some s
  end.

Definition spec_header_match (line : string) : option (Z * Z) :=
  r1 <- strip_prefix "@@ -" line ;;
  g1 <- digits1 r1 ;;
  r2 <- optional_count (snd g1) ;;
  r3 <- strip_prefix " +" r2 ;;
  g2 <- digits1 r3 ;;
  r4 <- optional_count (snd g2) ;;
  _ <- strip_prefix " @@" r4 ;;
  Some (int_of_digits (fst g1), int_of_digits (fst g2)).

(** The loop's variables. *)
Record state : Type := mkState {
  st_parsed_lines : list ParsedLine;
  st_old_line : option Z;
  st_new_line : option Z
}.

(** [x += 1]: a [TypeError] when [x] is [None]. *)
Definition incr (x : option Z) : result (option Z) :=
  match x with
  | Some z => Ok (Some (z + 1)%Z)
  | None => Raise TypeError
  end.

Local Open Scope result_scope.

(** The body of the [for line in diff_block.splitlines()] loop. *)
Definition step (st : state) (line : string) : result state :=
  match header_match line with
  | Some (o, n) => Ok (mkState (st_parsed_lines st) (Some o) (Some n))
  | None =>
      if startswith " " line then
        let pl := st_parsed_lines st ++
                  [mkParsedLine (drop 1 line) (st_old_line st) (st_new_line st) "none"] in
        o <- incr (st_old_line st) ;;
        n <- incr (st_new_line st) ;;
        Ok (mkState pl o n)
      else if startswith "-" line then
        let pl := st_parsed_lines st ++
                  [mkParsedLine (drop 1 line) (st_old_line st) None "old"] in
        o <- incr (st_old_line st) ;;
        Ok (mkState pl o (st_new_line st))
      else if startswith "+" line then
        let pl := st_parsed_lines st ++
                  [mkParsedLine (drop 1 line) None (st_new_line st) "new"] in
        n <- incr (st_new_line st) ;;
        Ok (mkState pl (st_old_line st) n)
      else Ok st
  end.

Fixpoint run (st : state) (lines : list string) : result state :=
  match lines with
  | [] => Ok st
  | line :: rest => st' <- step st line ;; run st' rest
  end.

Definition initial : state := mkState [] None None.

Definition parse_diff_block (diff_block : string) : result (list ParsedLine) :=
  st <- run initial (splitlines diff_block) ;;
  Ok (st_parsed_lines st).

End DiffParser.

(** ** Rendering: [summarize_diffs_multiline] *)

Module Summary.
Import PyStr.
Local Open Scope string_scope.

(** [f"{x}"] for an optional line number *)
Definition str_of_optional_int (x : option Z) : string :=
  match x with
  | Some z => str_of_int z
  | None => "None"
  end.

(** The marker table, [{...}.get(line.type, "")]. *)
Definition line_type (t : string) : string :=
  if String.eqb t "none" then "(*)"
  else if String.eqb t "old" then "(-)"
  else if String.eqb t "new" then "(+)"
  else if String.eqb t "block" then ""
  else "".

Definition render_line (line : ParsedLine) : string :=
  let line_number :=
    match new_line line with
    | Some n => Some n
    | None => old_line line
    end in
  str_of_optional_int line_number ++ " " ++ line_type (type line)
    ++ ": " ++ content line.

(** What one [Diff] adds to the list [diff_summary]. *)
Definition render_diff (diff : Diff) : list string :=
  let file_path :=
    if String.eqb (newpath diff) "" then oldpath diff else newpath diff in
  let header := "PATH: " ++ file_path in
  (header :: map render_line (parsed_lines diff) ++ [""])%list.

Definition summarize_diffs_multiline (diffs : list Diff) : string :=
  join (String LF "") (flat_map render_diff diffs).

End Summary.

(** ** TokenBudgeter and ChunkPlanner *)

(** [len(tiktoken.encoding_for_model(model).encode(text))] *)
Class Tokenizer : Type := {
  encode_len : string -> string -> nat
}.

(** A chat message, [{"role": ..., "content": ...}]. *)
Record message : Type := mkMessage {
  role : string;
  msg_content : string
}.

Module ChunkPlanner.
Import Summary.
Local Open Scope Z_scope.

Section WithTokenizer.
Context {tokenizer : Tokenizer}.

Definition estimate_tokens (messages : list message) (model : string) : Z :=
  fold_left (fun acc m => acc + Z.of_nat (encode_len model (msg_content m)))
            messages 0.

(** [diff_tokens] of the loop body. *)
Definition diff_cost (model : string) (diff : Diff) : Z :=
  Z.of_nat (encode_len model (summarize_diffs_multiline [diff])).

(** The loop's variables: [chunks], [current_chunk], [current_tokens].
    ([summ_of_diff_tokens] is only logged.) *)
Record state : Type := mkState {
  chunks : list (list Diff);
  current_chunk : list Diff;
  current_tokens : Z
}.

(** The body of [for diff in diffs]. *)
Definition step (max_tokens_per_chunk : Z) (base_messages : list message)
           (model : string) (st : state) (diff : Diff) : state :=
  let diff_tokens := diff_cost model diff in
  let st1 :=
    if current_tokens st + diff_tokens >? max_tokens_per_chunk then
      mkState (chunks st ++ [current_chunk st]) []
              (estimate_tokens base_messages model)
    else st in
  mkState (chunks st1) (current_chunk st1 ++ [diff])
          (current_tokens st1 + diff_tokens).

Definition split_into_chunks (diffs : list Diff) (max_tokens_per_chunk : Z)
           (base_messages : list message) (model : string)
  : list (list Diff) :=
  let st0 := mkState [] [] (estimate_tokens base_messages model) in
  let st := fold_left (step max_tokens_per_chunk base_messages model)
                      diffs st0 in
  match current_chunk st with
  | [] => chunks st
  | _ :: _ => chunks st ++ [current_chunk st]
  end.

End WithTokenizer.
End ChunkPlanner.

(** ** ReviewClient: [ChatGPTReviewer] *)

(** The language-model service behind [client.chat.completions.create]:
    its state, and the answer (or the exception) of one request. *)
Class LLM : Type := {
  llm : Type;
  chat_completions_create : llm -> string -> list message -> llm * result string
}.

Module Reviewer.
Import PyStr Summary ChunkPlanner.
Local Open Scope Z_scope.

Record TokenStatistics : Type := mkStats {
  total_tokens : Z;
  static_tokens : Z;
  diff_tokens : Z
}.

Record ChatGPTReviewer : Type := mkReviewer {
  model : string;
  prompt_message : string;
  token_limit : Z;
  max_tokens_per_chunk : Z;
  token_stats : TokenStatistics
}.

Definition DEFAULT_PROMPT_MESSAGE : string :=
  "Act as a professional code reviewer and provide feedback on the given code.".

Local Open Scope string_scope.

Definition q (s : string) : string := String quote (s ++ String quote "").
Definition nl : string := String LF "".

Definition example_item (path : string) (a b : string) (t c : string) : string :=
  "  {" ++ q "Path" ++ ": " ++ q path ++ ", " ++ q "StartLine" ++ ": " ++ a
  ++ ", " ++ q "EndLine" ++ ": " ++ b ++ ", " ++ q "Type" ++ ": " ++ q t
  ++ ", " ++ q "Comment" ++ ": " ++ q c ++ "}".

Definition static_instructions : string :=
  nl ++ "Output: Respond in JSON format with concise comments, don't be polite here. Each review item should be an object with fields "
  ++ q "Path" ++ ", " ++ q "StartLine" ++ ", " ++ q "EndLine" ++ ", " ++ q "Type"
  ++ " and " ++ q "Comment" ++ ". Where " ++ q "Type" ++ ": " ++ q "old"
  ++ " when commenting removals, and " ++ q "Type" ++ ": " ++ q "new"
  ++ " when commenting additions. Join all items in an array:" ++ nl ++ nl
  ++ "[" ++ nl
  ++ example_item "/path/to/file1" "132" "135" "old" "Review comment 1" ++ "," ++ nl
  ++ example_item "/path/to/file2" "155" "165" "new" "Review comment 2" ++ "," ++ nl
  ++ example_item "/path/to/fileN" "250" "255" "new" "Review comment N" ++ nl
  ++ "]" ++ nl.

(** [load_prompt_message]; [file] is what reading [PROMPT_FILE] gave,
    [None] when the file is missing or cannot be read. *)
Definition load_prompt_message (file : option string) : string :=
  let prompt :=
    match file with
    | Some text =>
        match strip text with
        | EmptyString => DEFAULT_PROMPT_MESSAGE
        | stripped => stripped
        end
    | None => DEFAULT_PROMPT_MESSAGE
    end in
  prompt ++ static_instructions.

Definition set_diff_tokens (v : Z) (r : ChatGPTReviewer) : ChatGPTReviewer :=
  mkReviewer (model r) (prompt_message r) (token_limit r) (max_tokens_per_chunk r)
    (mkStats (total_tokens (token_stats r)) (static_tokens (token_stats r)) v).

Definition set_total_tokens (v : Z) (r : ChatGPTReviewer) : ChatGPTReviewer :=
  mkReviewer (model r) (prompt_message r) (token_limit r) (max_tokens_per_chunk r)
    (mkStats v (static_tokens (token_stats r)) (diff_tokens (token_stats r))).

Section WithServices.
Context {tokenizer : Tokenizer} {service : LLM}.

Definition calculate_token_count (model : string) (text : string) : Z :=
  Z.of_nat (encode_len model text).

(** [__init__], from the configuration ([MODEL], [TOKEN_LIMIT]) and
    the prompt file. *)
Definition init (MODEL : string) (TOKEN_LIMIT : Z) (file : option string)
  : ChatGPTReviewer :=
  let prompt := load_prompt_message file in
  let prompt_tokens := calculate_token_count MODEL prompt in
  mkReviewer MODEL prompt TOKEN_LIMIT (TOKEN_LIMIT - prompt_tokens)
             (mkStats 0 prompt_tokens 0).

(** [send_to_chatgpt]: the exception is logged and raised again. *)
Definition send_to_chatgpt (self : ChatGPTReviewer) (l : llm)
           (messages : list message) : llm * result string :=
  chat_completions_create l (model self) messages.

Definition base_messages_of (self : ChatGPTReviewer) (task_details : string)
  : list message :=
  let task := "Task Details: " ++ task_details in
  ([mkMessage "system" (prompt_message self)]
   ++ (if String.eqb task_details "" then []
       else [mkMessage "user" task]))%list.

(** The loop [for i, chunk in enumerate(chunks)] of [get_review]. *)
Fixpoint review_chunks (base_messages : list message)
         (self : ChatGPTReviewer) (l : llm)
         (chunks : list (list Diff)) (reviews : list string)
  : (ChatGPTReviewer * llm) * result (list string) :=
  match chunks with
  | [] => ((self, l), Ok reviews)
  | chunk :: rest =>
      let diff_summary := summarize_diffs_multiline chunk in
      let messages := (base_messages ++ [mkMessage "user" diff_summary])%list in
      let message_text := join nl (map msg_content messages) in
      let self1 :=
        set_diff_tokens (diff_tokens (token_stats self)
                         + calculate_token_count (model self) diff_summary) self in
      let self2 :=
        set_total_tokens (total_tokens (token_stats self1)
                          + calculate_token_count (model self1) message_text) self1 in
      match send_to_chatgpt self2 l messages with
      | (l', Ok response_content) =>
          review_chunks base_messages self2 l' rest
                        (reviews ++ [response_content])%list
      | (l', Raise e) => ((self2, l'), Raise e)
      end
  end.

(** The body of [get_review], before decoration. *)
Definition get_review_body (diffs : list Diff) (task_details : string)
           (st : ChatGPTReviewer * llm)
  : (ChatGPTReviewer * llm) * result (list string) :=
  let (self, l) := st in
  let base_messages := base_messages_of self task_details in
  let chunks :=
    split_into_chunks diffs (max_tokens_per_chunk self) base_messages (model self) in
  review_chunks base_messages self l chunks [].

(** [retry_on_exception]: up to [max_retries] attempts, every exception
    caught, [RuntimeError] when none returns.  The delays between the
    attempts are not part of the model. *)
Fixpoint retry_on_exception {S A : Type} (max_retries : nat)
         (func : S -> S * result A) (s : S) : S * result A :=
  match max_retries with
  | O => (s, Raise RuntimeError)
  | Datatypes.S n =>
      match func s with
      | (s', Ok a) => (s', Ok a)
      | (s', Raise _) => retry_on_exception n func s'
      end
  end.

Definition get_review (diffs : list Diff) (task_details : string)
           (st : ChatGPTReviewer * llm)
  : (ChatGPTReviewer * llm) * result (list string) :=
  retry_on_exception 5 (get_review_body diffs task_details) st.

Definition get_token_statistic (self : ChatGPTReviewer) : TokenStatistics :=
  token_stats self.


End WithServices.
End Reviewer.

(** ** ResponseParser/Validator and CommentPoster: [post_review_comments] *)

(** What [json.loads] returns and [json.dumps] accepts.  A float keeps the
    text of its literal; a dict keeps its items in order. *)
#[warnings="-register-all"]
Inductive json : Type :=
| JNull
| JBool (b : bool)
| JInt (z : Z)
| JFloat (literal : string)
| JStr (s : string)
| JList (items : list json)
| JDict (items : list (string * json)).

(** The outcome of one [json.loads]: the decoded value, a
    [JSONDecodeError], or another exception, as the [RecursionError] of a
    text nested too deeply and the [ValueError] of an integer literal with
    more digits than [int] converts. *)
Inductive loads_result : Type :=
| Loaded (value : json)
| JSONDecodeError
| LoadsRaised (e : exn).

(** [json.loads(text)] and [json.dumps(value, indent=2)]. *)
Class JsonCodec : Type := {
  json_loads : string -> loads_result;
  json_dumps : json -> string
}.

(** pydantic's coercion of one field value to [str] and to [int], and the
    text of the [ValidationError] it raises for rejected data. *)
Class Pydantic : Type := {
  validate_str : json -> option string;
  validate_int : json -> option Z;
  validation_error_str : list (string * json) -> string
}.

(** [ReviewComment(BaseModel)] *)
Record ReviewComment : Type := mkReviewComment {
  Comment : string;
  Path : option string;
  StartLine : Z;
  EndLine : Z;
  Type_ : string
}.

(** The argument of [mr.discussions.create]. *)
Record position : Type := mkPosition {
  base_sha : string;
  start_sha : string;
  head_sha : string;
  position_type : string;
  path_key : string;
  path : option string;
  line_key : string;
  line : Z
}.

Record discussion : Type := mkDiscussion {
  body : string;
  pos : position
}.

(** The outcome of one [mr.discussions.create]: created, rejected with a
    [GitlabCreateError], or any other exception. *)
Inductive create_result : Type :=
| Created
| GitlabCreateError (error_message : string)
| CreateRaised (e : exn).

(** The merge request on the GitLab server. *)
Class GitLab : Type := {
  gitlab : Type;
  discussions_create : gitlab -> discussion -> gitlab * create_result
}.

(** The revision handle [latest_diff]. *)
Record DiffRevision : Type := mkDiffRevision {
  base_commit_sha : string;
  start_commit_sha : string;
  head_commit_sha : string
}.

(** The argument [review_comments], whose type the function tests. *)
Inductive review_comments_arg : Type :=
| RCInt (z : Z)
| RCList (parts : list string)
| RCOther.

Module Poster.
Import PyStr.
Local Open Scope string_scope.

(** [d.get(k)]: of two items with one key the later one wins. *)
Fixpoint dict_get (k : string) (items : list (string * json)) : option json :=
  match items with
  | [] => None
  | (k', v) :: rest =>
      match dict_get k rest with
      | Some v' => Some v'
      | None => if String.eqb k k' then Some v else None
      end
  end.

(** The two [if]s that remove the code fence from a response part. *)
Definition strip_fence (part_comments : string) : string :=
  let part1 :=
    if startswith "```json" part_comments then drop 8 part_comments
    else part_comments in
  if endswith "```" part1 then drop_last 3 part1 else part1.

Section WithServices.
Context {codec : JsonCodec} {pydantic : Pydantic} {server : GitLab}.

Local Open Scope option_scope.

(** A field without a default. *)
Definition required {A : Type} (coerce : json -> option A) (name : string)
           (data : list (string * json)) : option A :=
  v <- dict_get name data ;; coerce v.

(** An [Optional[str] = None] field. *)
Definition optional_str (name : string) (data : list (string * json))
  : option (option string) :=
  match dict_get name data with
  | None => Some None
  | Some JNull => Some None
  | Some v => s <- validate_str v ;; Some (Some s)
  end.

(** The constructor [ReviewComment] applied to the items of a dict
    [data]; [None] stands for the [ValidationError]. *)
Definition ReviewComment_init (data : list (string * json)) : option ReviewComment :=
  c <- required validate_str "Comment" data ;;
  p <- optional_str "Path" data ;;
  s <- required validate_int "StartLine" data ;;
  e <- required validate_int "EndLine" data ;;
  t <- required validate_str "Type" data ;;
  Some (mkReviewComment c p s e t).

Local Close Scope option_scope.

Definition discussion_of (latest_diff : DiffRevision) (comment : ReviewComment)
  : discussion :=
  let is_new := String.eqb (Type_ comment) "new" in
  mkDiscussion (Comment comment)
    (mkPosition (base_commit_sha latest_diff) (start_commit_sha latest_diff)
                (head_commit_sha latest_diff) "text"
                (if is_new then "new_path" else "old_path") (Path comment)
                (if is_new then "new_line" else "old_line") (EndLine comment)).

Definition json_of_optional_str (o : option string) : json :=
  match o with
  | Some s => JStr s
  | None => JNull
  end.

Definition validation_record (part_index : Z) (data : list (string * json)) : json :=
  JDict [("part", JInt part_index); ("error", JStr (validation_error_str data))].

Definition posting_error_message (part_index : Z) (error_message : string) : string :=
  "Error posting comment in part " ++ str_of_int part_index ++ ": " ++ error_message.

Definition posting_record (part_index : Z) (comment : ReviewComment)
           (error_message : string) : json :=
  JDict [("part", JInt part_index);
         ("comment", JStr (Comment comment));
         ("Path", json_of_optional_str (Path comment));
         ("StartLine", JInt (StartLine comment));
         ("EndLine", JInt (EndLine comment));
         ("Type", JStr (Type_ comment));
         ("Error", JStr (posting_error_message part_index error_message))].

Definition not_a_list_record (part_index : Z) : json :=
  JStr ("Part " ++ str_of_int part_index ++ " is not a list of comments.").

(** The body of [for comment_data in part_comments]. *)
Definition post_comment (latest_diff : DiffRevision) (part_index : Z)
           (g : gitlab) (error_details : list json) (comment_data : json)
  : gitlab * result (list json) :=
  match comment_data with
  | JDict data =>
      match ReviewComment_init data with
      | None =>
          (g, Ok (error_details ++ [validation_record part_index data])%list)
      | Some comment =>
          match discussions_create g (discussion_of latest_diff comment) with
          | (g', Created) => (g', Ok error_details)
          | (g', GitlabCreateError error_message) =>
              (g', Ok (error_details
                       ++ [posting_record part_index comment error_message])%list)
          | (g', CreateRaised e) => (g', Raise e)
          end
      end
  | _ => (g, Raise TypeError)
  end.

Fixpoint post_comments (latest_diff : DiffRevision) (part_index : Z)
         (g : gitlab) (error_details : list json) (part_comments : list json)
  : gitlab * result (list json) :=
  match part_comments with
  | [] => (g, Ok error_details)
  | comment_data :: rest =>
      match post_comment latest_diff part_index g error_details comment_data with
      | (g', Ok error_details') =>
          post_comments latest_diff part_index g' error_details' rest
      | (g', Raise e) => (g', Raise e)
      end
  end.

Definition INVALID_JSON : string := "Invalid JSON format in ChatGPT response.".

Definition summary (error_details : list json) : option string :=
  match error_details with
  | [] => None
  | _ :: _ =>
      Some ("Failed to post some comments due to errors: "
            ++ json_dumps (JList error_details))
  end.

(** The loop [for part_index, part_comments in enumerate(..., start=1)]
    and the final [return].  The [except] clause around [json.loads]
    catches the [JSONDecodeError] only; any other exception of the decoder
    leaves the function. *)
Fixpoint post_parts (latest_diff : DiffRevision) (part_index : Z)
         (g : gitlab) (error_details : list json) (parts : list string)
  : gitlab * result (option string) :=
  match parts with
  | [] => (g, Ok (summary error_details))
  | part_comments :: rest =>
      match json_loads (strip_fence part_comments) with
      | JSONDecodeError => (g, Ok (Some INVALID_JSON))
      | LoadsRaised e => (g, Raise e)
      | Loaded (JList items) =>
          match post_comments latest_diff part_index g error_details items with
          | (g', Ok error_details') =>
              post_parts latest_diff (part_index + 1) g' error_details' rest
          | (g', Raise e) => (g', Raise e)
          end
      | Loaded _ =>
          post_parts latest_diff (part_index + 1) g
                     (error_details ++ [not_a_list_record part_index])%list rest
      end
  end.

Definition post_review_comments (mr : gitlab) (review_comments : review_comments_arg)
           (latest_diff : DiffRevision) : gitlab * result (option string) :=
  match review_comments with
  | RCInt _ =>
      (mr, Ok (Some "Invalid review_comments format; expected list of comments but got integer."))
  | RCOther =>
      (mr, Ok (Some "Invalid review_comments format; expected a list."))
  | RCList parts => post_parts latest_diff 1 mr [] parts
  end.

End WithServices.
End Poster.

(** ** Stand-ins for the collaborators

    Small executable services on which the program can be run: a tokenizer
    with one token per character, a language model that replays scripted
    answers, a decoder and printer for the JSON of the examples, with the
    interpreter's limits on nesting and on the digits of an integer,
    pydantic's strict coercions, and a GitLab server that refuses a
    discussion on a line below 1 and records every other one. *)

Module Reference.
Import PyStr.
Local Open Scope string_scope.

#[export] Instance char_tokenizer : Tokenizer :=
  {| encode_len := fun _ text => String.length text |}.



Definition is_json_ws (c : ascii) : bool :=
  let n := nat_of_ascii c in
  ((n =? 32) || (n =? 9) || (n =? 10) || (n =? 13))%nat.

Fixpoint skip_ws (s : string) : string :=
  match s with
  | EmptyString => EmptyString
  | String c s' => if is_json_ws c then skip_ws s' else s
  end.

Fixpoint rstrip_ws (s : string) : string :=
  match s with
  | EmptyString => EmptyString
  | String c s' =>
      match rstrip_ws s' with
      | EmptyString => if is_json_ws c then EmptyString else String c EmptyString
      | r => String c r
      end
  end.

(** The characters of a string literal up to its closing quote.  Escape
    sequences are not covered: a backslash or a control character ends
    the decoding. *)
Fixpoint scan_string (s : string) : option (string * string) :=
  match s with
  | EmptyString => None
  | String c r =>
      if Ascii.eqb c quote then Some (EmptyString, r)
      else if Ascii.eqb c "\" then None
      else if (nat_of_ascii c <? 32)%nat then None
      else match scan_string r with
           | Some (a, b) => Some (String c a, b)
           | None => None
           end
  end.

(** What the decoder makes of the start of a text: a value and the
    rest of the text, a syntax error, or an exception of another kind. *)
Inductive scan (A : Type) : Type :=
| Scanned (a : A) (rest : string)
| Invalid
| Aborted (e : exn).

Arguments Scanned {A} a rest.
Arguments Invalid {A}.
Arguments Aborted {A} e.

(** The limits of the interpreter: the nesting at which the decoder runs
    out of stack, and the digits [int] converts. *)
Definition RECURSION_LIMIT : nat := 1000.
Definition MAX_STR_DIGITS : nat := 4300.

Definition RECURSION_ERROR : exn :=
  OtherError "RecursionError: maximum recursion depth exceeded".
Definition VALUE_ERROR : exn :=
  OtherError "ValueError: Exceeds the limit (4300 digits) for integer string conversion".

(** An integer literal; fractions and exponents are not covered. *)
Definition scan_int (s : string) : scan Z :=
  let (neg, s1) := match s with
                   | String "-" r => (true, r)
                   | _ => (false, s)
                   end in
  match span_digits s1 with
  | (EmptyString, _) => Invalid
  | (String "0" (String _ _), _) => Invalid
  | (d, rest) =>
      match rest with
      | String "." _ | String "e" _ | String "E" _ => Invalid
      | _ =>
          if (MAX_STR_DIGITS <? String.length d)%nat then Aborted VALUE_ERROR
          else Scanned (if neg then (- int_of_digits d)%Z else int_of_digits d) rest
      end
  end.

(** [depth] counts the arrays and objects the value is nested in. *)
Fixpoint decode_value (fuel depth : nat) (s : string) : scan json :=
  match fuel with
  | O => Invalid
  | S f =>
      match skip_ws s with
      | EmptyString => Invalid
      | String c r =>
          if Ascii.eqb c "[" then
            if (RECURSION_LIMIT <=? depth)%nat then Aborted RECURSION_ERROR
            else
              match skip_ws r with
              | String "]" r' => Scanned (JList []) r'
              | _ => decode_items f (S depth) r []
              end
          else if Ascii.eqb c "{" then
            if (RECURSION_LIMIT <=? depth)%nat then Aborted RECURSION_ERROR
            else
              match skip_ws r with
              | String "}" r' => Scanned (JDict []) r'
              | _ => decode_members f (S depth) r []
              end
          else if Ascii.eqb c quote then
            match scan_string r with
            | Some (str, r') => Scanned (JStr str) r'
            | None => Invalid
            end
          else
            match strip_prefix "true" (String c r),
                  strip_prefix "false" (String c r),
                  strip_prefix "null" (String c r) with
            | Some r', _, _ => Scanned (JBool true) r'
            | _, Some r', _ => Scanned (JBool false) r'
            | _, _, Some r' => Scanned JNull r'
            | _, _, _ =>
                match scan_int (String c r) with
                | Scanned z r' => Scanned (JInt z) r'
                | Invalid => Invalid
                | Aborted e => Aborted e
                end
            end
      end
  end
with decode_items (fuel depth : nat) (s : string) (acc : list json)
     : scan json :=
  match fuel with
  | O => Invalid
  | S f =>
      match decode_value f depth s with
      | Scanned v r =>
          match skip_ws r with
          | String "," r' => decode_items f depth r' (acc ++ [v])%list
          | String "]" r' => Scanned (JList (acc ++ [v])%list) r'
          | _ => Invalid
          end
      | Invalid => Invalid
      | Aborted e => Aborted e
      end
  end
with decode_members (fuel depth : nat) (s : string) (acc : list (string * json))
     : scan json :=
  match fuel with
  | O => Invalid
  | S f =>
      match skip_ws s with
      | String c r =>
          if Ascii.eqb c quote then
            match scan_string r with
            | Some (key, r1) =>
                match skip_ws r1 with
                | String ":" r2 =>
                    match decode_value f depth r2 with
                    | Scanned v r3 =>
                        match skip_ws r3 with
                        | String "," r4 =>
                            decode_members f depth r4 (acc ++ [(key, v)])%list
                        | String "}" r4 => Scanned (JDict (acc ++ [(key, v)])%list) r4
                        | _ => Invalid
                        end
                    | Invalid => Invalid
                    | Aborted e => Aborted e
                    end
                | _ => Invalid
                end
            | None => Invalid
            end
          else Invalid
      | EmptyString => Invalid
      end
  end.

(** The decoder skips the white space after the value, like
    [json.loads]; a syntax error is its [JSONDecodeError]. *)
Definition loads (s : string) : loads_result :=
  let core := rstrip_ws s in
  match decode_value (2 * String.length core + 2) 0 core with
  | Scanned v EmptyString => Loaded v
  | Scanned _ _ => JSONDecodeError
  | Invalid => JSONDecodeError
  | Aborted e => LoadsRaised e
  end.

Fixpoint escape (s : string) : string :=
  match s with
  | EmptyString => EmptyString
  | String c r =>
      if Ascii.eqb c quote then String "\" (String quote (escape r))
      else if Ascii.eqb c "\" then String "\" (String "\" (escape r))
      else if Ascii.eqb c LF then String "\" (String "n" (escape r))
      else String c (escape r)
  end.

Fixpoint pad (level : nat) : string :=
  match level with
  | O => EmptyString
  | S n => "  " ++ pad n
  end.

(** The printer, with an indent of two spaces per level. *)
Fixpoint dumps_at (level : nat) (v : json) : string :=
  let nl := String LF EmptyString in
  match v with
  | JNull => "null"
  | JBool true => "true"
  | JBool false => "false"
  | JInt z => str_of_int z
  | JFloat literal => literal
  | JStr s => String quote (escape s ++ String quote EmptyString)
  | JList [] => "[]"
  | JList items =>
      "[" ++ nl
      ++ join ("," ++ nl)
           (map (fun item => pad (S level) ++ dumps_at (S level) item) items)
      ++ nl ++ pad level ++ "]"
  | JDict [] => "{}"
  | JDict items =>
      "{" ++ nl
      ++ join ("," ++ nl)
           (map (fun kv => pad (S level) ++ String quote (escape (fst kv))
                           ++ String quote ": " ++ dumps_at (S level) (snd kv))
                items)
      ++ nl ++ pad level ++ "}"
  end.

#[export] Instance json_codec : JsonCodec :=
  {| json_loads := loads; json_dumps := dumps_at 0 |}.

#[export] Instance strict_pydantic : Pydantic :=
  {| validate_str := fun v => match v with JStr s => Some s | _ => None end;
     validate_int := fun v => match v with JInt z => Some z | _ => None end;
     validation_error_str := fun _ => "validation error for ReviewComment" |}.

Definition recording_create (g : list discussion) (d : discussion)
  : list discussion * create_result :=
  if (line (pos d) <=? 0)%Z
  then (g, GitlabCreateError "400 Bad request - Note line_code must be a valid line code")
  else ((g ++ [d])%list, Created).

#[export] Instance recording_gitlab : GitLab :=
  {| gitlab := list discussion; discussions_create := recording_create |}.

End Reference.


(** ** Definitions used to state the properties *)

Module ChunkPlannerSpec.
Import ChunkPlanner.
Local Open Scope Z_scope.

(** The planner as the specification describes it: a chunk is handed
    over when it is closed, and a trailing chunk only if it holds a
    FileDiff.  [cost] is the token cost of a FileDiff's rendered summary,
    [base] the cost of the base messages. *)
Fixpoint plan (cost : Diff -> Z) (ceiling base : Z)
         (current : list Diff) (tokens : Z) (diffs : list Diff)
  : list (list Diff) :=
  match diffs with
  | [] =>
      match current with
      | [] => []
      | _ :: _ => [current]
      end
  | d :: rest =>
      if tokens + cost d >? ceiling
      then current :: plan cost ceiling base [d] (base + cost d) rest
      else plan cost ceiling base (current ++ [d]) (tokens + cost d) rest
  end.

Definition flush {T : Tokenizer} (st : state) : list (list Diff) :=
  match current_chunk st with
  | [] => chunks st
  | _ :: _ => chunks st ++ [current_chunk st]
  end.

End ChunkPlannerSpec.

Module DiffParserSpec.
Import PyStr DiffParser.

(** The emitted lines of kind unchanged. *)
Definition count_unchanged (lines : list ParsedLine) : nat :=
  length (filter (fun pl => String.eqb (type pl) "none") lines).

(** The input lines that start with a space. *)
Definition count_space_prefixed (lines : list string) : nat :=
  length (filter (startswith " ") lines).

(** A line the loop emits: it starts with a space, a minus or a plus. *)
Definition is_content (line : string) : bool :=
  startswith " " line || startswith "-" line || startswith "+" line.

(** No content line comes before the first header the program
    recognises. *)
Fixpoint guarded (lines : list string) : bool :=
  match lines with
  | [] => true
  | line :: rest =>
      match header_match line with
      | Some _ => true
      | None => negb (is_content line) && guarded rest
      end
  end.

Definition counters_set (st : state) : Prop :=
  st_old_line st <> None /\ st_new_line st <> None.

(** The effect of one consumed line on the loop's variables: a header
    sets the two counters and emits nothing; an unchanged line is emitted
    with both counters, which both grow by one; a removed line with the
    old counter, which grows by one; an added line with the new counter,
    which grows by one; any other line changes nothing. *)
Definition step_effect (st : state) (line : string) (st' : state) : Prop :=
  match header_match line with
  | Some (o, n) =>
      st_parsed_lines st' = st_parsed_lines st
      /\ st_old_line st' = Some o /\ st_new_line st' = Some n
  | None =>
      if startswith " " line then
        exists o n,
          st_old_line st = Some o /\ st_new_line st = Some n
          /\ st_parsed_lines st' =
             st_parsed_lines st ++ [mkParsedLine (drop 1 line) (Some o) (Some n) "none"]
          /\ st_old_line st' = Some (o + 1)%Z /\ st_new_line st' = Some (n + 1)%Z
      else if startswith "-" line then
        exists o,
          st_old_line st = Some o
          /\ st_parsed_lines st' =
             st_parsed_lines st ++ [mkParsedLine (drop 1 line) (Some o) None "old"]
          /\ st_old_line st' = Some (o + 1)%Z /\ st_new_line st' = st_new_line st
      else if startswith "+" line then
        exists n,
          st_new_line st = Some n
          /\ st_parsed_lines st' =
             st_parsed_lines st ++ [mkParsedLine (drop 1 line) None (Some n) "new"]
          /\ st_new_line st' = Some (n + 1)%Z /\ st_old_line st' = st_old_line st
      else st' = st
  end.

(** Blocks on which the program is run below. *)
Definition lines_of (lines : list string) : string :=
  join (String LF "") lines.

Definition one_line_file_grows : string :=
  lines_of ["@@ -1 +1,2 @@"; " a"; "+b"].

Definition one_line_file_deleted : string :=
  lines_of ["@@ -1 +0,0 @@"; "-only line"].

Definition one_line_file_changed : string :=
  lines_of ["@@ -1 +1 @@"; "-old"; "+new"].

Definition second_hunk_of_one_line : string :=
  lines_of ["@@ -1,2 +1,2 @@"; " a"; "-b"; "+c"; "@@ -9 +9 @@"; "-y"; "+z"].

Definition two_hunks : string :=
  lines_of ["@@ -1,2 +1,3 @@"; " line1"; "-old2"; "+new2"; "+new3";
            "\ No newline at end of file";
            "@@ -10,1 +11 @@ def f():"; " ctx"].

End DiffParserSpec.

Module PosterSpec.
Import PyStr Poster.
Local Open Scope string_scope.

Definition nl : string := String LF "".

(** A response wrapped in a fenced code block whose opening marker
    carries the info string [tag]. *)
Definition fence (tag raw : string) : string :=
  "```" ++ tag ++ nl ++ raw ++ nl ++ "```".

Section WithServices.
Context {codec : JsonCodec} {pydantic : Pydantic} {server : GitLab}.

(** The strip-and-parse step of one response part. *)
Definition parse_part (part_comments : string) : loads_result :=
  json_loads (strip_fence part_comments).

(** The decoder ignores a line feed after the text. *)
Definition ignores_trailing_newline : Prop :=
  forall s : string, json_loads (s ++ nl) = json_loads s.

(** A required field has no item in the dict. *)
Definition missing_required (data : list (string * json)) : Prop :=
  dict_get "Comment" data = None \/ dict_get "StartLine" data = None
  \/ dict_get "EndLine" data = None \/ dict_get "Type" data = None.

(** Every comment of the part posted cleanly: each element is a comment
    object that validates and that the server accepts, one after the
    other; the result is the server afterwards. *)
Fixpoint comments_clean (latest_diff : DiffRevision) (g : gitlab)
         (part_comments : list json) : option gitlab :=
  match part_comments with
  | [] => Some g
  | JDict data :: rest =>
      match ReviewComment_init data with
      | Some comment =>
          match discussions_create g (discussion_of latest_diff comment) with
          | (g', Created) => comments_clean latest_diff g' rest
          | _ => None
          end
      | None => None
      end
  | _ :: _ => None
  end.

(** Every part is a list of comments that all posted cleanly. *)
Fixpoint parts_clean (latest_diff : DiffRevision) (g : gitlab)
         (parts : list string) : option gitlab :=
  match parts with
  | [] => Some g
  | part_comments :: rest =>
      match parse_part part_comments with
      | Loaded (JList items) =>
          match comments_clean latest_diff g items with
          | Some g' => parts_clean latest_diff g' rest
          | None => None
          end
      | _ => None
      end
  end.

(** The part is well-formed JSON: the decoder returns a value. *)
Definition decodes (part_comments : string) : Prop :=
  exists value, parse_part part_comments = Loaded value.

(** The records one element of a part leaves in the error report, and the
    server after it: none for a comment the server accepts, one for a
    comment object that fails validation, one for a comment the server
    rejects.  [None] when the element makes the loop raise. *)
Definition comment_records (latest_diff : DiffRevision) (part_index : Z)
           (g : gitlab) (comment_data : json) : option (gitlab * list json) :=
  match comment_data with
  | JDict data =>
      match ReviewComment_init data with
      | None => Some (g, [validation_record part_index data])
      | Some comment =>
          match discussions_create g (discussion_of latest_diff comment) with
          | (g', Created) => Some (g', [])
          | (g', GitlabCreateError error_message) =>
              Some (g', [posting_record part_index comment error_message])
          | (_, CreateRaised _) => None
          end
      end
  | _ => None
  end.

(** The records of the elements of a part, one after the other. *)
Fixpoint part_records (latest_diff : DiffRevision) (part_index : Z)
         (g : gitlab) (part_comments : list json) : option (gitlab * list json) :=
  match part_comments with
  | [] => Some (g, [])
  | comment_data :: rest =>
      match comment_records latest_diff part_index g comment_data with
      | Some (g1, records) =>
          match part_records latest_diff part_index g1 rest with
          | Some (g2, records') => Some (g2, (records ++ records')%list)
          | None => None
          end
      | None => None
      end
  end.

(** The error report of a response: the records of its parts in order,
    a part that is not a list leaving the one record that says so.
    [None] when a part is not decoded or an element makes the loop
    raise. *)
Fixpoint report (latest_diff : DiffRevision) (part_index : Z)
         (g : gitlab) (parts : list string) : option (gitlab * list json) :=
  match parts with
  | [] => Some (g, [])
  | part_comments :: rest =>
      match parse_part part_comments with
      | Loaded (JList items) =>
          match part_records latest_diff part_index g items with
          | Some (g1, records) =>
              match report latest_diff (part_index + 1) g1 rest with
              | Some (g2, records') => Some (g2, (records ++ records')%list)
              | None => None
              end
          | None => None
          end
      | Loaded _ =>
          match report latest_diff (part_index + 1) g rest with
          | Some (g2, records') =>
              Some (g2, not_a_list_record part_index :: records')
          | None => None
          end
      | _ => None
      end
  end.

(** What the function returns for a report. *)
Definition summary_of_report (records : list json) : option string :=
  match records with
  | [] => None
  | _ :: _ =>
      Some ("Failed to post some comments due to errors: "
            ++ json_dumps (JList records))
  end.

End WithServices.

(** Responses and comment objects on which the program is run below. *)
Definition q (s : string) : string := String quote (s ++ String quote "").

Definition comment_object (text line : string) : string :=
  "{" ++ q "Comment" ++ ":" ++ q text ++ "," ++ q "StartLine" ++ ":1,"
  ++ q "EndLine" ++ ":" ++ line ++ "," ++ q "Type" ++ ":" ++ q "new" ++ ","
  ++ q "Path" ++ ":" ++ q "a.py" ++ "}".

Definition no_end_line : string :=
  "{" ++ q "Comment" ++ ":" ++ q "no line" ++ "," ++ q "StartLine" ++ ":1,"
  ++ q "Type" ++ ":" ++ q "new" ++ "}".

Definition array_of (a b c : string) : string :=
  "[" ++ a ++ ", " ++ b ++ ", " ++ c ++ "]".

Definition revision : DiffRevision := mkDiffRevision "base" "start" "head".

(** What the decoder makes of [comment_object text line] and of
    [no_end_line]. *)
Definition comment_data (text : string) (line : Z) : list (string * json) :=
  [("Comment", JStr text); ("StartLine", JInt 1); ("EndLine", JInt line);
   ("Type", JStr "new"); ("Path", JStr "a.py")].

Definition no_end_line_data : list (string * json) :=
  [("Comment", JStr "no line"); ("StartLine", JInt 1); ("Type", JStr "new")].

Definition posted (text : string) (line : Z) : discussion :=
  mkDiscussion text
    (mkPosition "base" "start" "head" "text" "new_path" (Some "a.py") "new_line" line).

(** Opening brackets only: malformed JSON of nesting [n]. *)
Fixpoint brackets (n : nat) : string :=
  match n with
  | O => EmptyString
  | S k => String "[" (brackets k)
  end.

(** An integer literal of [n] digits. *)
Fixpoint ones (n : nat) : string :=
  match n with
  | O => EmptyString
  | S k => String "1" (ones k)
  end.

End PosterSpec.

(** Two FileDiffs and a base message for the character tokenizer: the
    summaries cost 100 and 150 tokens, the base message 20. *)
Module Scenario.
Local Open Scope string_scope.

Fixpoint filler (n : nat) : string :=
  match n with
  | O => EmptyString
  | S k => String "x" (filler k)
  end.

Definition file1 : Diff :=
  mkDiff "a.py" "a.py" [mkParsedLine (filler 81) (Some 1%Z) (Some 1%Z) "none"].

Definition file2 : Diff :=
  mkDiff "b.py" "b.py" [mkParsedLine (filler 131) None (Some 7%Z) "new"].

Definition base_messages : list message :=
  [mkMessage "system" (filler 20)].

End Scenario.

(** ** Further definitions used to state properties of the parser *)

Module DiffParserMore.
Import PyStr DiffParser DiffParserSpec.

(** The kind the loop gives a content line, read off its first
    character. *)
Definition kind_of (line : string) : string :=
  if startswith " " line then "none"
  else if startswith "-" line then "old"
  else "new".

(** The kind and the text the loop emits for a content line. *)
Definition classify (line : string) : string * string :=
  (kind_of line, drop 1 line).

Definition emitted (pl : ParsedLine) : string * string :=
  (type pl, content pl).

(** The line carries a number of the old file, of the new file. *)
Definition has_old (line : string) : bool :=
  startswith " " line || startswith "-" line.

Definition has_new (line : string) : bool :=
  startswith " " line || startswith "+" line.

Definition old_numbers (lines : list ParsedLine) : list Z :=
  flat_map (fun pl => match old_line pl with Some o => [o] | None => [] end) lines.

Definition new_numbers (lines : list ParsedLine) : list Z :=
  flat_map (fun pl => match new_line pl with Some n => [n] | None => [] end) lines.

(** [start], [start + 1], ... ([len] numbers). *)
Fixpoint Zseq (start : Z) (len : nat) : list Z :=
  match len with
  | O => []
  | S k => start :: Zseq (start + 1)%Z k
  end.

(** The numbers present on a line agree with its kind: both for an
    unchanged line, the old one only for a removed line, the new one only
    for an added line. *)
Definition well_shaped (pl : ParsedLine) : bool :=
  match old_line pl, new_line pl with
  | Some _, Some _ => String.eqb (type pl) "none"
  | Some _, None => String.eqb (type pl) "old"
  | None, Some _ => String.eqb (type pl) "new"
  | None, None => false
  end.

(** A line that is neither a recognised header nor a content line. *)
Definition is_noise (line : string) : bool :=
  match header_match line with
  | Some _ => false
  | None => negb (is_content line)
  end.

(** How a line of a parsed diff is shown in a summary: its number, its
    marker and its text. *)
Definition shown_as (pl : ParsedLine) (number : Z) (marker : string) : Prop :=
  Summary.render_line pl
  = (str_of_int number ++ " " ++ marker ++ ": " ++ content pl)%string.

End DiffParserMore.

(** ** Further definitions used to state properties of the planner and
       of the reviewer *)

Module ChunkPlannerMore.
Import Summary ChunkPlanner Reviewer.
Local Open Scope Z_scope.

(** The planner's cost of a chunk: the costs of its FileDiffs, each
    rendered alone. *)
Definition chunk_cost {tokenizer : Tokenizer} (model : string) (chunk : list Diff) : Z :=
  fold_right (fun d acc => diff_cost model d + acc) 0 chunk.

(** The summary of one FileDiff, as the planner renders it. *)
Definition summary_of (diff : Diff) : string :=
  summarize_diffs_multiline [diff].

(** The cost of the task message of [get_review], if there is one. *)
Definition task_cost {tokenizer : Tokenizer} (model task_details : string) : Z :=
  if String.eqb task_details "" then 0
  else calculate_token_count model ("Task Details: " ++ task_details)%string.

(** The chunks [get_review] plans for a reviewer. *)
Definition planned_chunks {tokenizer : Tokenizer} (self : ChatGPTReviewer)
           (diffs : list Diff) (task_details : string) : list (list Diff) :=
  split_into_chunks diffs (max_tokens_per_chunk self)
                    (base_messages_of self task_details) (model self).

(** The request [get_review] sends for a chunk. *)
Definition request_of (self : ChatGPTReviewer) (task_details : string)
           (chunk : list Diff) : list message :=
  (base_messages_of self task_details
   ++ [mkMessage "user" (summarize_diffs_multiline chunk)])%list.

Definition request_text (self : ChatGPTReviewer) (task_details : string)
           (chunk : list Diff) : string :=
  PyStr.join Reviewer.nl (map msg_content (request_of self task_details chunk)).

(** What [diff_tokens] and [total_tokens] gain when each of the chunks is
    processed once. *)
Definition diff_tokens_of {tokenizer : Tokenizer} (model : string)
           (chunks : list (list Diff)) : Z :=
  fold_right (fun c acc =>
                calculate_token_count model (summarize_diffs_multiline c) + acc)
             0 chunks.

Definition total_tokens_of {tokenizer : Tokenizer} (self : ChatGPTReviewer)
           (task_details : string) (chunks : list (list Diff)) : Z :=
  fold_right (fun c acc =>
                calculate_token_count (model self) (request_text self task_details c) + acc)
             0 chunks.

(** The service answers every request; the service fails every request. *)
Definition always_answers {service : LLM} : Prop :=
  forall l m messages, exists l' answer,
    chat_completions_create l m messages = (l', Ok answer).

Definition always_fails {service : LLM} : Prop :=
  forall l m messages, exists l' e,
    chat_completions_create l m messages = (l', Raise e).

(** The text is made of white space only. *)
Definition blank (s : string) : bool :=
  forallb PyStr.is_space (list_ascii_of_string s).

End ChunkPlannerMore.

(** Two more stand-ins for the language model: one that answers every
    request with an empty array and counts the requests, one that refuses
    every request as rate limited and counts them. *)
Module ReferenceMore.

#[export] Instance counting_llm : LLM :=
  {| llm := nat;
     chat_completions_create := fun n _ _ => (S n, Ok "[]"%string) |}.

#[export] Instance refusing_llm : LLM :=
  {| llm := nat;
     chat_completions_create := fun n _ _ => (S n, Raise RateLimitError) |}.

End ReferenceMore.

(** ** The retry wrapper with its delays *)

Module RetryTimed.
Import Reviewer.
Local Open Scope Z_scope.

(** The loop of [retry_on_exception] with the [time.sleep] calls: [slept]
    lists their arguments.  After a [RateLimitError] the wrapper always
    sleeps; after any other exception it sleeps unless the attempt was the
    last one; each sleep multiplies the delay by the backoff factor. *)
Fixpoint retry_loop {S A : Type} (attempts_left : nat) (delay backoff_factor : Z)
         (func : S -> S * result A) (s : S) (slept : list Z)
  : (S * list Z) * result A :=
  match attempts_left with
  | O => ((s, slept), Raise RuntimeError)
  | Datatypes.S n =>
      match func s with
      | (s', Ok a) => ((s', slept), Ok a)
      | (s', Raise RateLimitError) =>
          retry_loop n (delay * backoff_factor) backoff_factor func s'
                     (slept ++ [delay])
      | (s', Raise _) =>
          match n with
          | O => retry_loop n delay backoff_factor func s' slept
          | Datatypes.S _ =>
              retry_loop n (delay * backoff_factor) backoff_factor func s'
                         (slept ++ [delay])
          end
      end
  end.

Definition retry_on_exception_timed {S A : Type} (max_retries : nat)
           (initial_delay backoff_factor : Z) (func : S -> S * result A) (s : S)
  : (S * list Z) * result A :=
  retry_loop max_retries initial_delay backoff_factor func s [].

(** [get_review] as decorated, with its delays. *)
Definition get_review_timed {tokenizer : Tokenizer} {service : LLM}
           (diffs : list Diff) (task_details : string) (st : ChatGPTReviewer * llm)
  : ((ChatGPTReviewer * llm) * list Z) * result (list string) :=
  retry_on_exception_timed 5 2 2 (get_review_body diffs task_details) st.

(** [delay], [delay * factor], [delay * factor * factor], ... *)
Fixpoint backoff_delays (delay factor : Z) (k : nat) : list Z :=
  match k with
  | O => []
  | Datatypes.S k' => delay :: backoff_delays (delay * factor) factor k'
  end.

(** The configuration of the reviewer, which [get_review] only reads. *)
Definition same_configuration (a b : ChatGPTReviewer) : Prop :=
  model a = model b /\ prompt_message a = prompt_message b
  /\ token_limit a = token_limit b
  /\ max_tokens_per_chunk a = max_tokens_per_chunk b
  /\ static_tokens (token_stats a) = static_tokens (token_stats b).

End RetryTimed.

(** ** The accounting of the token statistics *)

Module ReviewerAccounting.
Import Summary ChunkPlanner Reviewer ChunkPlannerMore.
Local Open Scope Z_scope.






End ReviewerAccounting.

(** ** More operations of [str] *)

Module PyStrMore.
Import PyStr.
Local Open Scope string_scope.

(** [c in s] for a character *)
Fixpoint contains (c : ascii) (s : string) : bool :=
  match s with
  | EmptyString => false
  | String c' s' => Ascii.eqb c' c || contains c s'
  end.

(** [s.split(sep)] for a separator of one character: [cur] is the piece
    being read. *)
Fixpoint split_from (sep : ascii) (cur s : string) : list string :=
  match s with
  | EmptyString => [cur]
  | String c s' =>
      if Ascii.eqb c sep then cur :: split_from sep EmptyString s'
      else split_from sep (cur ++ String c EmptyString) s'
  end.

Definition split (sep : ascii) (s : string) : list string :=
  split_from sep EmptyString s.

(** The longest run of characters of a class at the start of a text, and
    what follows it. *)
Fixpoint span (class : ascii -> bool) (s : string) : string * string :=
  match s with
  | EmptyString => (EmptyString, EmptyString)
  | String c s' =>
      if class c then let (d, r) := span class s' in (String c d, r)
      else (EmptyString, s)
  end.

(** Every character of the text is of the class. *)
Fixpoint all (class : ascii -> bool) (s : string) : bool :=
  match s with
  | EmptyString => true
  | String c s' => class c && all class s'
  end.

End PyStrMore.

(** ** Configuration: [SKIP_EXTENSIONS] *)

Module ConfigLoader.
Import PyStr PyStrMore.
Local Open Scope string_scope.

(** The text before the first number sign: the first piece of the
    split at number signs. *)
Definition before_hash (ext : string) : string :=
  hd EmptyString (split "#" ext).

(** The list comprehension of [load_config]: the pieces between commas
    that [strip] does not empty, each cut at its number sign and
    stripped. *)
Definition skip_extensions (raw_extensions : string) : list string :=
  map (fun ext => strip (before_hash ext))
      (filter (fun ext => negb (String.eqb (strip ext) ""))
              (split "," raw_extensions)).

(** An extension as one writes it in the configuration: not empty,
    without a comma or a number sign, without white space around it. *)
Definition entry (e : string) : Prop :=
  e <> "" /\ strip e = e /\ contains "," e = false /\ contains "#" e = false.

End ConfigLoader.

(** ** Regular expressions: the part of [re] the program uses *)

Module Regex.
Import PyStr PyStrMore.
Local Open Scope string_scope.

(** The pattern items of the program's expressions.  [Plus] and [Star]
    repeat one character class and are greedy, as the source's repeated
    digits, white space and dots are; [Opt] is the greedy question mark,
    [Alt] tries its left side first, [Grp] is a numbered capturing
    group, [Bol] is the caret and [Eol] the dollar sign (both without
    [re.MULTILINE]). *)
Inductive regex : Type :=
| Chr (c : ascii)
| Emp
| Cat (r1 r2 : regex)
| Alt (r1 r2 : regex)
| Plus (class : ascii -> bool)
| Star (class : ascii -> bool)
| Opt (r : regex)
| Grp (n : nat) (r : regex)
| Bol
| Eol.

(** The classes: [\d] is [is_digit], [\s] is [is_space], and the dot is
    every character but the line feed. *)
Definition dot (c : ascii) : bool := negb (Ascii.eqb c LF).

(** A literal text. *)
Fixpoint lit (p : string) : regex :=
  match p with
  | EmptyString => Emp
  | String c p' => Cat (Chr c) (lit p')
  end.

Definition seq (items : list regex) : regex := fold_right Cat Emp items.

(** The groups that have matched, the last one first. *)
Definition captures : Type := list (nat * string).

Fixpoint group (n : nat) (caps : captures) : option string :=
  match caps with
  | [] => None
  | (m, text) :: rest => if Nat.eqb m n then Some text else group n rest
  end.

(** The text up to its first line feed. *)
Definition first_line (s : string) : string := fst (span dot s).

Section Matcher.
Variable A : Type.

(** What is still to be matched: it is given the position reached, the
    text from there on and the groups, and answers with the match or with
    [None], which makes the matcher backtrack. *)
Definition cont : Type := nat -> string -> captures -> option A.

(** One or more characters of the class, the longest run first. *)
Fixpoint plus_class (class : ascii -> bool) (pos : nat) (s : string)
         (caps : captures) (k : cont) : option A :=
  match s with
  | EmptyString => None
  | String c s' =>
      if class c then
        match plus_class class (S pos) s' caps k with
        | Some a => Some a
        | None => k (S pos) s' caps
        end
      else None
  end.

(** The backtracking matcher: [exec r pos s caps k] matches [r] at
    position [pos], where the text [s] starts, then [k]. *)
Fixpoint exec (r : regex) (pos : nat) (s : string) (caps : captures)
         (k : cont) : option A :=
  match r with
  | Chr c =>
      match s with
      | String c' s' => if Ascii.eqb c c' then k (S pos) s' caps else None
      | EmptyString => None
      end
  | Emp => k pos s caps
  | Cat r1 r2 =>
      exec r1 pos s caps (fun pos' s' caps' => exec r2 pos' s' caps' k)
  | Alt r1 r2 =>
      match exec r1 pos s caps k with
      | Some a => Some a
      | None => exec r2 pos s caps k
      end
  | Plus class => plus_class class pos s caps k
  | Star class =>
      match plus_class class pos s caps k with
      | Some a => Some a
      | None => k pos s caps
      end
  | Opt r' =>
      match exec r' pos s caps k with
      | Some a => Some a
      | None => k pos s caps
      end
  | Grp n r' =>
      exec r' pos s caps
           (fun pos' s' caps' => k pos' s' ((n, take (pos' - pos) s) :: caps'))
  | Bol => if Nat.eqb pos 0 then k pos s caps else None
  | Eol =>
      match s with
      | EmptyString => k pos s caps
      | String c EmptyString => if Ascii.eqb c LF then k pos s caps else None
      | _ => None
      end
  end.

End Matcher.

Arguments plus_class {A} class pos s caps k.
Arguments exec {A} r pos s caps k.

Definition accept : cont captures := fun _ _ caps => Some caps.

(** [re.match(r, s)]: the groups of the match at the start of [s]. *)
Definition re_match (r : regex) (s : string) : option captures :=
  exec r 0 s [] accept.

(** [re.search(r, s)]: the match at the first position that has one. *)
Fixpoint search_from (r : regex) (pos : nat) (s : string) : option captures :=
  match exec r pos s [] accept with
  | Some caps => Some caps
  | None =>
      match s with
      | EmptyString => None
      | String _ s' => search_from r (S pos) s'
      end
  end.

Definition re_search (r : regex) (s : string) : option captures :=
  search_from r 0 s.

(** [m.group(n)] of a group that took part in the match. *)
Definition group_text (n : nat) (caps : captures) : string :=
  match group n caps with
  | Some text => text
  | None => EmptyString
  end.

(** The expression of [parse_diff_block]: the literal [@@ -], group 1 of
    digits, a comma, digits, a blank and a plus sign, group 2 of digits,
    optionally a comma and digits, and the literal [ @@]. *)
Definition header_pattern : regex :=
  seq [lit "@@ -"; Grp 1 (Plus is_digit); Chr ","; Plus is_digit; lit " +";
       Grp 2 (Plus is_digit); Opt (seq [Chr ","; Plus is_digit]); lit " @@"].

(** The header test of [parse_diff_block], by the matcher. *)
Definition header_re_match (line : string) : option (Z * Z) :=
  match re_match header_pattern line with
  | Some caps =>
      Some (int_of_digits (group_text 1 caps), int_of_digits (group_text 2 caps))
  | None => None
  end.

End Regex.

(** ** The merge request: [get_diffs_from_mr] *)

(** [os.path.splitext(path)[-1]], the extension of a path. *)
Class PathLib : Type := {
  splitext_ext : string -> string
}.

(** One entry of [latest_diff.diffs], with the keys GitLab always
    sends. *)
Record change : Type := mkChange {
  old_path : string;
  new_path : string;
  diff : string
}.

(** A diff version of the merge request: [created_at] is the instant
    that [datetime.fromisoformat] reads in the field, [revision] its
    commit identifiers, [changes] the entries that [mr.diffs.get] returns
    for it. *)
Record version : Type := mkVersion {
  created_at : Z;
  revision_of : DiffRevision;
  changes : list change
}.

Module MergeRequest.
Import PyStr DiffParser.
Local Open Scope string_scope.

(** [sorted(diffs, key=created_at)]: a stable sort, here by insertion.
    A version goes after every version that is not younger than it. *)
Fixpoint insert (v : version) (l : list version) : list version :=
  match l with
  | [] => [v]
  | x :: rest =>
      if (created_at v <? created_at x)%Z then v :: l
      else x :: insert v rest
  end.

Definition sorted (l : list version) : list version :=
  fold_left (fun acc v => insert v acc) l [].

(** [l[-1]], an [IndexError] on the empty list. *)
Definition last_item (l : list version) : result version :=
  match rev l with
  | [] => Raise (OtherError "IndexError: list index out of range")
  | v :: _ => Ok v
  end.

Definition latest_version (versions : list version) : result version :=
  last_item (sorted versions).

(** [x in l] for a list of strings *)
Definition member (x : string) (l : list string) : bool :=
  existsb (String.eqb x) l.

Section WithPathLib.
Context {pathlib : PathLib}.

Definition skipped (SKIP_EXTENSIONS : list string) (ch : change) : bool :=
  member (splitext_ext (new_path ch)) SKIP_EXTENSIONS.

Local Open Scope result_scope.

(** The loop [for change in latest_diff.diffs]. *)
Fixpoint parse_changes (SKIP_EXTENSIONS : list string) (chs : list change)
         (parsed_diffs : list Diff) : result (list Diff) :=
  match chs with
  | [] => Ok parsed_diffs
  | ch :: rest =>
      if skipped SKIP_EXTENSIONS ch then parse_changes SKIP_EXTENSIONS rest parsed_diffs
      else
        parsed <- parse_diff_block (diff ch) ;;
        parse_changes SKIP_EXTENSIONS rest
                      (parsed_diffs ++ [mkDiff (old_path ch) (new_path ch) parsed])%list
  end.

(** [get_diffs_from_mr], from the versions the merge request lists; it
    returns the parsed diffs and the latest version. *)
Definition get_diffs_from_mr (SKIP_EXTENSIONS : list string) (versions : list version)
  : result (list Diff * version) :=
  latest_diff <- latest_version versions ;;
  parsed_diffs <- parse_changes SKIP_EXTENSIONS (changes latest_diff) [] ;;
  Ok (parsed_diffs, latest_diff).

End WithPathLib.

(** The changes the loop does not skip. *)
Definition kept {pathlib : PathLib} (SKIP_EXTENSIONS : list string)
           (chs : list change) : list change :=
  filter (fun ch => negb (skipped SKIP_EXTENSIONS ch)) chs.

(** The diff of the change is one [parse_diff_block] returns on: no
    content line before the first header the pattern recognises. *)
Definition parses (ch : change) : bool :=
  DiffParserSpec.guarded (splitlines (diff ch)).

(** The FileDiff of a change is the change with its block parsed. *)
Definition parsed_as (ch : change) (d : Diff) : Prop :=
  oldpath d = old_path ch /\ newpath d = new_path ch
  /\ parse_diff_block (diff ch) = Ok (parsed_lines d).

End MergeRequest.

(** ** The review of one merge request: [review_merge_request_async] *)

(** [str(e)] for an exception. *)
Class Runtime : Type := {
  str_of_exn : exn -> string
}.

Module Pipeline.
Import PyStr Reviewer Poster MergeRequest.
Local Open Scope string_scope.

(** What the pipeline reads and changes: the prompt file, the versions of
    the merge request, the language model and the merge request's
    discussions. *)
Record world {service : LLM} {server : GitLab} : Type := mkWorld {
  prompt_file : option string;
  mr_versions : list version;
  model_state : llm;
  mr_state : gitlab
}.

Arguments mkWorld {service server} _ _ _ _.

Definition spaces12 : string := "            ".
Definition spaces8 : string := "        ".

Definition token_summary (stats : TokenStatistics) : string :=
  Reviewer.nl ++ spaces12 ++ "Total tokens: " ++ str_of_int (total_tokens stats)
  ++ Reviewer.nl ++ spaces12 ++ "Static tokens: " ++ str_of_int (static_tokens stats)
  ++ Reviewer.nl ++ spaces12 ++ "Diff tokens: " ++ str_of_int (diff_tokens stats)
  ++ Reviewer.nl ++ spaces8.

Definition failed_message {runtime : Runtime} (mr_id : Z) (e : exn)
           (task_details : string) : string :=
  "Failed to process Merge Request ID: " ++ str_of_int mr_id ++ ". Error: "
  ++ str_of_exn e ++ Reviewer.nl ++ "Task Details: " ++ task_details.

Definition errors_message (mr_id : Z) (error_message : string) : string :=
  "Review completed with errors for MR ID " ++ str_of_int mr_id ++ ":"
  ++ Reviewer.nl ++ error_message.

Definition posted_message (mr_id : Z) (stats : TokenStatistics) : string :=
  "Review completed and comments posted for Merge Request ID: " ++ str_of_int mr_id
  ++ Reviewer.nl ++ Reviewer.nl ++ token_summary stats.

Section WithServices.
Context {tokenizer : Tokenizer} {service : LLM} {codec : JsonCodec}
        {pydantic : Pydantic} {server : GitLab} {pathlib : PathLib}
        {runtime : Runtime}.
Variables (MODEL : string) (TOKEN_LIMIT : Z) (SKIP_EXTENSIONS : list string).

(** [review_merge_request_async]: every exception ends in the message
    [Failed to process ...].  The connection to GitLab and the reading of
    the merge request and of its versions are taken to succeed; a fresh
    reviewer is made for every review. *)
Definition review_merge_request (mr_id : Z) (task_details : string) (w : world)
  : world * string :=
  let reviewer := init MODEL TOKEN_LIMIT (prompt_file w) in
  match get_diffs_from_mr SKIP_EXTENSIONS (mr_versions w) with
  | Raise e => (w, failed_message mr_id e task_details)
  | Ok (diffs, latest_diff) =>
      match get_review diffs task_details (reviewer, model_state w) with
      | ((_, l'), Raise e) =>
          (mkWorld (prompt_file w) (mr_versions w) l' (mr_state w),
           failed_message mr_id e task_details)
      | ((reviewer', l'), Ok review_comments) =>
          let token_stats := get_token_statistic reviewer' in
          match post_review_comments (mr_state w) (RCList review_comments)
                                     (revision_of latest_diff) with
          | (g', Raise e) =>
              (mkWorld (prompt_file w) (mr_versions w) l' g',
               failed_message mr_id e task_details)
          | (g', Ok error_message) =>
              (mkWorld (prompt_file w) (mr_versions w) l' g',
               match error_message with
               | Some (String c rest) => errors_message mr_id (String c rest)
               | _ => posted_message mr_id token_stats
               end)
          end
      end
  end.

End WithServices.
End Pipeline.

(** ** The Telegram bot: [review_command] and [handle_message] *)

Module Bot.
Import PyStr PyStrMore Regex Pipeline.
Local Open Scope string_scope.

(** [pattern_with_details] of [review_command]: the start of the text,
    [/review], optionally one or more characters, white space, group 1
    of digits, a colon, optional white space, and group 2, the rest of
    the line. *)
Definition pattern_with_details : regex :=
  seq [Bol; lit "/review"; Alt (Plus dot) Emp; Plus is_space;
       Grp 1 (Plus is_digit); Chr ":"; Star is_space; Grp 2 (Star dot)].

(** [pattern_without_details] of [review_command]: the start of the
    text, [/review], one or more characters, white space, group 1 of
    digits, and the end of the text. *)
Definition pattern_without_details : regex :=
  seq [Bol; lit "/review"; Plus dot; Plus is_space; Grp 1 (Plus is_digit); Eol].

(** The items both patterns with details end with, and the items the
    pattern without details of [review_command] ends with. *)
Definition details_tail : regex :=
  seq [Plus is_space; Grp 1 (Plus is_digit); Chr ":"; Star is_space; Grp 2 (Star dot)].

Definition plain_tail : regex :=
  seq [Plus is_space; Grp 1 (Plus is_digit); Eol].

(** A character that is neither white space nor a colon. *)
Definition plain (c : ascii) : bool :=
  negb (is_space c) && negb (Ascii.eqb c ":").

(** The request in the stripped text of a [/review] command:
    [(mr_id, task_details)], or [None] when neither pattern is found. *)
Definition review_request (message_text : string) : option (Z * string) :=
  match re_search pattern_with_details message_text with
  | Some caps => Some (int_of_digits (group_text 1 caps), group_text 2 caps)
  | None =>
      match re_search pattern_without_details message_text with
      | Some caps => Some (int_of_digits (group_text 1 caps), EmptyString)
      | None => None
      end
  end.

(** A Telegram user name: letters, digits and underscores, which the
    pattern reads as themselves. *)
Definition is_word (c : ascii) : bool :=
  let n := nat_of_ascii c in
  ((48 <=? n) && (n <=? 57) || (65 <=? n) && (n <=? 90)
   || (97 <=? n) && (n <=? 122) || (n =? 95))%nat.

(** The patterns of [handle_message]: the at sign and the bot's user
    name, white space, group 1 of digits, and, with details, a colon,
    optional white space and group 2, the rest of the line. *)
Definition mention_with_details (bot_username : string) : regex :=
  seq [Chr "@"; lit bot_username; Plus is_space; Grp 1 (Plus is_digit);
       Chr ":"; Star is_space; Grp 2 (Star dot)].

Definition mention_without_details (bot_username : string) : regex :=
  seq [Chr "@"; lit bot_username; Plus is_space; Grp 1 (Plus is_digit)].

Definition mention_request (bot_username message_text : string)
  : option (Z * string) :=
  match re_search (mention_with_details bot_username) message_text with
  | Some caps => Some (int_of_digits (group_text 1 caps), group_text 2 caps)
  | None =>
      match re_search (mention_without_details bot_username) message_text with
      | Some caps => Some (int_of_digits (group_text 1 caps), EmptyString)
      | None => None
      end
  end.

Definition INVALID_FORMAT : string :=
  "Invalid format. Use /review MR_ID or /review MR_ID: task title and description.".

Definition received_message (mr_id : Z) : string :=
  "Received MR ID " ++ str_of_int mr_id ++ ". Starting review...".

Section WithServices.
Context {tokenizer : Tokenizer} {service : LLM} {codec : JsonCodec}
        {pydantic : Pydantic} {server : GitLab} {pathlib : PathLib}
        {runtime : Runtime}.
Variables (MODEL : string) (TOKEN_LIMIT : Z) (SKIP_EXTENSIONS : list string).

(** The review both handlers start, and the two replies they send;
    sending a reply is taken to succeed. *)
Definition start_review (mr_id : Z) (task_details : string) (w : world)
  : world * list string :=
  let (w', result_message) :=
    review_merge_request MODEL TOKEN_LIMIT SKIP_EXTENSIONS mr_id task_details w in
  (w', [received_message mr_id; result_message]).

(** [review_command], from the text of the message: the world after it
    and the replies it sends, in order. *)
Definition review_command (text : string) (w : world) : world * list string :=
  match review_request (strip text) with
  | Some (mr_id, task_details) => start_review mr_id task_details w
  | None => (w, [INVALID_FORMAT])
  end.

(** [handle_message], from the bot's user name and the text of the
    message; a message without text, or without a request, is ignored. *)
Definition handle_message (bot_username : string) (text : option string)
           (w : world) : world * list string :=
  match text with
  | None | Some EmptyString => (w, [])
  | Some text =>
      match mention_request bot_username (strip text) with
      | Some (mr_id, task_details) => start_review mr_id task_details w
      | None => (w, [])
      end
  end.

End WithServices.
End Bot.

(** A stand-in for [os.path.splitext] on POSIX paths: the extension
    starts at the last dot of the file name, after the dots the name
    begins with. *)
Module ReferencePath.
Import PyStr.

(** The text from the last dot on, if the text has a dot. *)
Fixpoint from_last_dot (s : string) : option string :=
  match s with
  | EmptyString => None
  | String c s' =>
      match from_last_dot s' with
      | Some e => Some e
      | None => if Ascii.eqb c "." then Some s else None
      end
  end.

(** The text after the last slash. *)
Fixpoint basename (s : string) : string :=
  match s with
  | EmptyString => EmptyString
  | String c s' =>
      if PyStrMore.contains "/" s' then basename s'
      else if Ascii.eqb c "/" then s' else s
  end.

Fixpoint lstrip_dots (s : string) : string :=
  match s with
  | String c s' => if Ascii.eqb c "." then lstrip_dots s' else s
  | EmptyString => EmptyString
  end.

Definition extension (path : string) : string :=
  match from_last_dot (lstrip_dots (basename path)) with
  | Some e => e
  | None => EmptyString
  end.

#[export] Instance posix_path : PathLib := {| splitext_ext := extension |}.

(** [str(e)] gives the description of the exception. *)
Definition describe (e : exn) : string :=
  match e with
  | TypeError => "unsupported operand type(s) for +=: 'NoneType' and 'int'"
  | RateLimitError => "rate limit"
  | RuntimeError => "Max retries reached. Unable to complete the request."
  | OtherError description => description
  end.

#[export] Instance describing_runtime : Runtime := {| str_of_exn := describe |}.

End ReferencePath.

(** ** A merge request for the examples *)

Module ScenarioMore.
Import PyStr Pipeline.
Local Open Scope string_scope.

Definition commits : DiffRevision := mkDiffRevision "base" "start" "head".

(** A file of one line that grows: its header has no old count. *)
Definition one_line_file : change :=
  mkChange "notes.txt" "notes.txt"
           ("@@ -1 +1,2 @@" ++ String LF ("-hello" ++ String LF ("+hello," ++ String LF "+world"))).

Definition edited_file : change :=
  mkChange "app.py" "app.py"
           ("@@ -1,2 +1,2 @@" ++ String LF (" a" ++ String LF ("-b" ++ String LF "+c"))).

(** An image: what GitLab sends as its diff has no header. *)
Definition image : change := mkChange "logo.png" "logo.png" "+binary".

Definition older : version := mkVersion 5 commits [one_line_file].
Definition parsable : version := mkVersion 9 commits [edited_file; image].
Definition unparsable : version := mkVersion 9 commits [edited_file; one_line_file].
Definition images_only : version := mkVersion 9 commits [image].

Definition world_of (versions : list version)
  : @world ReferenceMore.counting_llm Reference.recording_gitlab :=
  mkWorld (service := ReferenceMore.counting_llm)
          (server := Reference.recording_gitlab)
          None versions 0%nat (@nil discussion).

End ScenarioMore.

(* ================================================================== *)
(** * Part II: the properties *)
(* ================================================================== *)

(** ** Strings *)

Module PyStrFacts.
Import PyStr.
Local Open Scope string_scope.

Lemma append_empty_r (s : string) : s ++ "" = s.
Proof. induction s as [|c s IH]; simpl; [reflexivity | now rewrite IH]. Qed.

Lemma append_assoc (a b c : string) : (a ++ b) ++ c = a ++ (b ++ c).
Proof. induction a as [|x a IH]; simpl; [reflexivity | now rewrite IH]. Qed.

Lemma length_append (a b : string) :
  String.length (a ++ b) = String.length a + String.length b.
Proof. induction a as [|x a IH]; simpl; [reflexivity | now rewrite IH]. Qed.

Lemma drop_append (a b : string) : drop (String.length a) (a ++ b) = b.
Proof. induction a as [|x a IH]; simpl; [reflexivity | exact IH]. Qed.

Lemma take_append (a b : string) : take (String.length a) (a ++ b) = a.
Proof.
  induction a as [|x a IH]; simpl; [now destruct b | now rewrite IH].
Qed.

Lemma drop_last_append (a b : string) :
  drop_last (String.length b) (a ++ b) = a.
Proof.
  unfold drop_last. rewrite length_append.
  replace (String.length a + String.length b - String.length b)
    with (String.length a) by lia.
  apply take_append.
Qed.

Lemma endswith_append (a b : string) : endswith b (a ++ b) = true.
Proof.
  unfold endswith. rewrite length_append.
  replace (String.length a + String.length b - String.length b)
    with (String.length a) by lia.
  rewrite drop_append, String.eqb_refl, andb_true_r.
  apply Nat.leb_le. lia.
Qed.

Lemma startswith_append (p s : string) : startswith p (p ++ s) = true.
Proof.
  induction p as [|c p IH]; simpl; [reflexivity|].
  now rewrite Ascii.eqb_refl, IH.
Qed.

End PyStrFacts.

(** ** ChunkPlanner *)

Module ChunkPlannerFacts.
Import ChunkPlanner ChunkPlannerSpec.
Local Open Scope Z_scope.

Section WithTokenizer.
Context {T : Tokenizer}.
Variables (ceiling : Z) (base_messages : list message) (model : string).

Let base := estimate_tokens base_messages model.
Let cost := diff_cost model.
Let loop := fold_left (step ceiling base_messages model).

Lemma split_into_chunks_unfold (diffs : list Diff) :
  split_into_chunks diffs ceiling base_messages model
  = flush (loop diffs (mkState [] [] base)).
Proof. reflexivity. Qed.

Lemma step_close (st : state) (d : Diff) :
  current_tokens st + cost d > ceiling ->
  step ceiling base_messages model st d
  = mkState (chunks st ++ [current_chunk st]) [d] (base + cost d).
Proof.
  intros Hgt. unfold step. fold cost. fold base.
  destruct (Z.gtb_spec (current_tokens st + cost d) ceiling); [reflexivity | lia].
Qed.

Lemma step_keep (st : state) (d : Diff) :
  current_tokens st + cost d <= ceiling ->
  step ceiling base_messages model st d
  = mkState (chunks st) (current_chunk st ++ [d]) (current_tokens st + cost d).
Proof.
  intros Hle. unfold step. fold cost.
  destruct (Z.gtb_spec (current_tokens st + cost d) ceiling); [lia | reflexivity].
Qed.

(** The loop followed by the flush is the planner of the specification,
    started from any state of the loop. *)
Lemma loop_plan (diffs : list Diff) (st : state) :
  flush (loop diffs st)
  = chunks st ++ plan cost ceiling base (current_chunk st) (current_tokens st) diffs.
Proof.
  revert st. induction diffs as [|d rest IH]; intros st.
  - simpl. unfold flush. destruct (current_chunk st); [now rewrite app_nil_r | reflexivity].
  - unfold loop. cbn [fold_left]. fold loop. rewrite IH. cbn [plan].
    destruct (Z.gtb_spec (current_tokens st + cost d) ceiling) as [Hgt | Hle].
    + rewrite (step_close st d (Z.lt_gt _ _ Hgt)). cbn [chunks current_chunk current_tokens].
      now rewrite <- app_assoc.
    + rewrite (step_keep st d Hle). reflexivity.
Qed.

Lemma split_into_chunks_plan (diffs : list Diff) :
  split_into_chunks diffs ceiling base_messages model
  = plan cost ceiling base [] base diffs.
Proof. rewrite split_into_chunks_unfold, loop_plan. reflexivity. Qed.

Lemma concat_plan (diffs current : list Diff) (tokens : Z) :
  concat (plan cost ceiling base current tokens diffs) = current ++ diffs.
Proof.
  revert current tokens. induction diffs as [|d rest IH]; intros current tokens; simpl.
  - destruct current; simpl; now rewrite ?app_nil_r.
  - destruct (tokens + cost d >? ceiling); simpl; rewrite IH.
    + reflexivity.
    + now rewrite <- app_assoc.
Qed.

(** Once a FileDiff is in the current chunk, no later chunk is empty. *)
Lemma plan_nonempty (diffs current : list Diff) (tokens : Z) :
  current <> [] ->
  Forall (fun c => c <> []) (plan cost ceiling base current tokens diffs).
Proof.
  revert current tokens. induction diffs as [|d rest IH]; intros current tokens Hne; simpl.
  - destruct current; [congruence | constructor; [discriminate | constructor]].
  - destruct (tokens + cost d >? ceiling).
    + constructor; [assumption | apply IH; discriminate].
    + apply IH. destruct current; discriminate.
Qed.

End WithTokenizer.

(** Where the [i]-th element of a concatenation sits. *)
Lemma nth_error_concat {A : Type} (ls : list (list A)) (i : nat) (x : A) :
  nth_error (concat ls) i = Some x ->
  exists j c k,
    nth_error ls j = Some c /\ nth_error c k = Some x
    /\ i = (length (concat (firstn j ls)) + k)%nat.
Proof.
  revert i. induction ls as [|c ls IH]; intros i Hi; simpl in Hi.
  - destruct i; discriminate.
  - destruct (Nat.lt_ge_cases i (length c)) as [Hlt | Hge].
    + rewrite nth_error_app1 in Hi by assumption.
      exists 0%nat, c, i. simpl. auto.
    + rewrite nth_error_app2 in Hi by assumption.
      destruct (IH _ Hi) as (j & c' & k & Hj & Hk & Hpos).
      exists (S j), c', k. simpl. rewrite length_app. repeat split; auto; lia.
  Qed.

(** C1. For every sequence of FileDiffs and every token ceiling, the
    chunks returned by [split_into_chunks], concatenated in order, are the
    input sequence, the chunks hold as many FileDiffs as the input, and
    every FileDiff of the input is, whole, one element of one chunk: no
    FileDiff is split across two chunks. *)
Theorem split_into_chunks_partition
  {T : Tokenizer} (diffs : list Diff) (max_tokens_per_chunk : Z)
  (base_messages : list message) (model : string) :
  let result := split_into_chunks diffs max_tokens_per_chunk base_messages model in
  concat result = diffs
  /\ list_sum (map (@length Diff) result) = length diffs
  /\ forall i d, nth_error diffs i = Some d ->
       exists j c k,
         nth_error result j = Some c /\ nth_error c k = Some d
         /\ i = (length (concat (firstn j result)) + k)%nat.
Proof.
  intros result.
  assert (Hc : concat result = diffs).
  { unfold result. rewrite split_into_chunks_plan. apply concat_plan. }
  split; [exact Hc | split].
  - clearbody result. subst diffs.
    induction result as [|c cs IH]; simpl; [reflexivity|].
    now rewrite length_app, IH.
  - intros i d Hi. apply nth_error_concat. now rewrite Hc.
Qed.



(** C10. If the cost of the base messages plus the rendered cost of the
    first FileDiff already exceeds the ceiling, [split_into_chunks] returns
    an empty chunk before the chunk that starts with that FileDiff, and no
    other chunk is empty.  In general, a chunk close triggered while the
    current chunk holds no FileDiff pushes an empty chunk; the loop body
    leaves a FileDiff in the current chunk, so this happens for the first
    FileDiff only. *)
Theorem split_into_chunks_leading_empty_chunk
  {T : Tokenizer} (max_tokens_per_chunk : Z) (base_messages : list message)
  (model : string) (d : Diff) (rest : list Diff) :
  estimate_tokens base_messages model + diff_cost model d > max_tokens_per_chunk ->
  (exists c cs,
      split_into_chunks (d :: rest) max_tokens_per_chunk base_messages model
      = [] :: (d :: c) :: cs
      /\ Forall (fun chunk => chunk <> []) cs)
  /\ (forall st d',
        current_chunk st = [] ->
        current_tokens st + diff_cost model d' > max_tokens_per_chunk ->
        chunks (step max_tokens_per_chunk base_messages model st d')
        = chunks st ++ [[]])
  /\ (forall st d',
        current_chunk (step max_tokens_per_chunk base_messages model st d') <> []).
Proof.
  intros Hgt. split; [|split].
  - rewrite split_into_chunks_plan. cbn [plan].
    destruct (Z.gtb_spec (estimate_tokens base_messages model + diff_cost model d)
                         max_tokens_per_chunk) as [_ | Hle]; [|lia].
    set (tokens := estimate_tokens base_messages model + diff_cost model d).
    pose proof (plan_nonempty max_tokens_per_chunk base_messages model
                              rest [d] tokens ltac:(discriminate)) as Hne.
    pose proof (concat_plan max_tokens_per_chunk base_messages model
                            rest [d] tokens) as Hcat.
    destruct (plan _ _ _ [d] tokens rest) as [|c0 cs]; [discriminate|].
    inversion Hne as [|? ? Hc0 Hcs]; subst.
    destruct c0 as [|d0 c]; [congruence|].
    simpl in Hcat. injection Hcat as -> _.
    exists c, cs. split; [reflexivity | assumption].
  - intros st d' Hempty Hclose.
    rewrite (step_close _ _ _ st d' Hclose). simpl. now rewrite Hempty.
  - intros st d'. unfold step.
    destruct (current_tokens st + diff_cost model d' >? max_tokens_per_chunk);
      simpl; [discriminate | destruct (current_chunk st); discriminate].
Qed.

Lemma split_into_chunks_leading_empty_chunk_witness :
  exists c cs,
    split_into_chunks (tokenizer := Reference.char_tokenizer)
                      [Scenario.file2; Scenario.file1] 160
                      Scenario.base_messages "gpt-4"
    = [] :: (Scenario.file2 :: c) :: cs
    /\ Forall (fun chunk => chunk <> []) cs.
Proof.
  apply (split_into_chunks_leading_empty_chunk
           160 Scenario.base_messages "gpt-4" Scenario.file2 [Scenario.file1]).
  vm_compute. reflexivity.
Defined.

End ChunkPlannerFacts.

(** ** ReviewClient: the token statistics *)

Module ReviewerFacts.
Import PyStr Summary ChunkPlanner Reviewer ChunkPlannerMore RetryTimed ReviewerAccounting.
Local Open Scope Z_scope.

Lemma same_configuration_refl (a : ChatGPTReviewer) : same_configuration a a.
Proof. unfold same_configuration. auto. Qed.

Lemma same_configuration_trans (a b c : ChatGPTReviewer) :
  same_configuration a b -> same_configuration b c -> same_configuration a c.
Proof.
  unfold same_configuration.
  intros (? & ? & ? & ? & ?) (? & ? & ? & ? & ?). repeat split; congruence.
Qed.

Lemma planned_chunks_same_configuration
  {tokenizer : Tokenizer} (a b : ChatGPTReviewer) (diffs : list Diff) (task : string) :
  same_configuration a b ->
  planned_chunks b diffs task = planned_chunks a diffs task.
Proof.
  unfold same_configuration, planned_chunks, base_messages_of.
  intros (-> & -> & _ & -> & _). reflexivity.
Qed.

(** The reviewer after one chunk has been counted. *)
Lemma counted_same_configuration (self : ChatGPTReviewer) (a b : Z) :
  same_configuration self (set_total_tokens b (set_diff_tokens a self)).
Proof. unfold same_configuration. cbn. auto. Qed.

Section WithServices.
Context {tokenizer : Tokenizer} {service : LLM}.




Lemma split_into_chunks_nonempty (diffs : list Diff) (ceiling : Z)
      (base_messages : list message) (m : string) :
  diffs <> [] -> split_into_chunks diffs ceiling base_messages m <> [].
Proof.
  intros Hne Hnil.
  pose proof (ChunkPlannerFacts.split_into_chunks_plan ceiling base_messages m diffs) as Hplan.
  pose proof (ChunkPlannerFacts.concat_plan ceiling base_messages m diffs []
                (estimate_tokens base_messages m)) as Hcat.
  rewrite <- Hplan, Hnil in Hcat. simpl in Hcat. congruence.
Qed.








End WithServices.




End ReviewerFacts.

(** ** DiffParser *)

Module DiffParserFacts.
Import PyStr DiffParser DiffParserSpec.

Lemma strip_prefix_head (a : ascii) (p s r : string) :
  strip_prefix (String a p) s = Some r -> exists s', s = String a s'.
Proof.
  destruct s as [|b s']; simpl; [discriminate|].
  destruct (Ascii.eqb_spec a b) as [-> | _]; [eauto | discriminate].
Qed.

(** A recognised header starts with an at sign, so it is not a content
    line. *)
Lemma header_match_head (line : string) (x : Z * Z) :
  header_match line = Some x -> exists rest, line = String "@" rest.
Proof.
  unfold header_match, obind. intros Hm.
  destruct (strip_prefix "@@ -" line) as [r1|] eqn:Hp; [|discriminate].
  exact (strip_prefix_head _ _ _ _ Hp).
Qed.

Lemma header_not_content (line : string) (x : Z * Z) :
  header_match line = Some x -> is_content line = false.
Proof. intros Hm. destruct (header_match_head _ _ Hm) as [rest ->]. reflexivity. Qed.

(** The program's header pattern is the specification's with the old
    count present. *)
Lemma header_match_spec_header_match (line : string) (x : Z * Z) :
  header_match line = Some x -> spec_header_match line = Some x.
Proof.
  unfold header_match, spec_header_match, obind.
  destruct (strip_prefix "@@ -" line) as [r1|]; [|discriminate].
  destruct (digits1 r1) as [g1|]; [|discriminate].
  unfold optional_count at 1.
  destruct (strip_prefix "," (snd g1)) as [r2|]; [|discriminate].
  unfold obind.
  destruct (digits1 r2) as [c1|]; [|discriminate].
  destruct (strip_prefix " +" (snd c1)) as [r3|]; [|discriminate].
  destruct (digits1 r3) as [g2|]; [|discriminate].
  unfold optional_count, obind. intros Hm. exact Hm.
Qed.

(** What one iteration does, whenever it does not raise. *)
Lemma step_effect_of_step (st st' : state) (line : string) :
  step st line = Ok st' -> step_effect st line st'.
Proof.
  unfold step, step_effect.
  destruct (header_match line) as [[o n]|].
  - intros [= <-]. simpl. auto.
  - destruct (startswith " " line).
    { destruct (st_old_line st) as [o|]; simpl; [|discriminate].
      destruct (st_new_line st) as [n|]; simpl; [|discriminate].
      intros [= <-]. exists o, n. simpl. auto. }
    destruct (startswith "-" line).
    { destruct (st_old_line st) as [o|]; simpl; [|discriminate].
      intros [= <-]. exists o. simpl. auto. }
    destruct (startswith "+" line).
    { destruct (st_new_line st) as [n|]; simpl; [|discriminate].
      intros [= <-]. exists n. simpl. auto. }
    now intros [= <-].
Qed.

Lemma count_unchanged_app (a b : list ParsedLine) :
  count_unchanged (a ++ b) = count_unchanged a + count_unchanged b.
Proof. unfold count_unchanged. now rewrite filter_app, length_app. Qed.

Lemma step_count (st st' : state) (line : string) :
  step st line = Ok st' ->
  count_unchanged (st_parsed_lines st')
  = count_unchanged (st_parsed_lines st) + (if startswith " " line then 1 else 0).
Proof.
  intros Hstep. pose proof (step_effect_of_step _ _ _ Hstep) as He.
  unfold step_effect in He.
  destruct (header_match line) as [[o n]|] eqn:Hm.
  - destruct He as (-> & _).
    pose proof (header_not_content _ _ Hm) as Hc. unfold is_content in Hc.
    destruct (startswith " " line); [discriminate | lia].
  - destruct (startswith " " line).
    { destruct He as (o & n & _ & _ & -> & _). now rewrite count_unchanged_app. }
    destruct (startswith "-" line).
    { destruct He as (o & _ & -> & _). rewrite count_unchanged_app. reflexivity. }
    destruct (startswith "+" line).
    { destruct He as (n & _ & -> & _). rewrite count_unchanged_app. reflexivity. }
    subst st'. lia.
Qed.

Lemma run_count (lines : list string) :
  forall st st',
    run st lines = Ok st' ->
    count_unchanged (st_parsed_lines st')
    = count_unchanged (st_parsed_lines st) + count_space_prefixed lines.
Proof.
  induction lines as [|line rest IH]; intros st st'; cbn [run].
  - intros [= <-]. unfold count_space_prefixed. simpl. lia.
  - destruct (step st line) as [st1|e] eqn:Hstep; cbn [bind]; [|discriminate].
    intros Hrun. rewrite (IH _ _ Hrun), (step_count _ _ _ Hstep).
    unfold count_space_prefixed. cbn [filter].
    destruct (startswith " " line); simpl; lia.
Qed.

(** On every block for which [parse_diff_block] returns, it emits as
    many lines of kind unchanged as the block has lines starting with a
    space. *)
Lemma parse_diff_block_count (diff_block : string) (parsed : list ParsedLine) :
  parse_diff_block diff_block = Ok parsed ->
  count_unchanged parsed = count_space_prefixed (splitlines diff_block).
Proof.
  unfold parse_diff_block.
  destruct (run initial (splitlines diff_block)) as [st|e] eqn:Hrun; cbn [bind];
    [|discriminate].
  intros [= <-]. now rewrite (run_count _ _ _ Hrun).
Qed.

(** Once a header has set the counters, no line makes the loop raise. *)
Lemma step_counters_set (st : state) (line : string) :
  counters_set st -> exists st', step st line = Ok st' /\ counters_set st'.
Proof.
  unfold counters_set, step.
  destruct st as [pl [o|] [n|]]; cbn [st_old_line st_new_line st_parsed_lines];
    intros [Ho Hn]; try congruence.
  destruct (header_match line) as [[o' n']|].
  - eexists. split; [reflexivity|]. split; discriminate.
  - destruct (startswith " " line); [|destruct (startswith "-" line);
                                       [|destruct (startswith "+" line)]];
      cbn [incr bind]; eexists; (split; [reflexivity|]); split; discriminate.
Qed.

Lemma run_counters_set (lines : list string) :
  forall st, counters_set st -> exists st', run st lines = Ok st'.
Proof.
  induction lines as [|line rest IH]; intros st Hset; cbn [run].
  - eauto.
  - destruct (step_counters_set st line Hset) as (st1 & -> & Hset1). cbn [bind].
    apply IH, Hset1.
Qed.

(** Before any header, a content line raises and any other line is
    dropped. *)
Lemma step_unset (pl : list ParsedLine) (line : string) :
  header_match line = None ->
  step (mkState pl None None) line
  = if is_content line then Raise TypeError else Ok (mkState pl None None).
Proof.
  intros Hm. unfold step, is_content. rewrite Hm.
  cbn [st_old_line st_new_line st_parsed_lines incr bind].
  destruct (startswith " " line); [reflexivity|].
  destruct (startswith "-" line); [reflexivity|].
  destruct (startswith "+" line); reflexivity.
Qed.

Lemma run_unset (lines : list string) (pl : list ParsedLine) :
  (exists st', run (mkState pl None None) lines = Ok st') <-> guarded lines = true.
Proof.
  induction lines as [|line rest IH]; cbn [run guarded].
  - split; eauto.
  - destruct (header_match line) as [[o n]|] eqn:Hm.
    + split; [reflexivity | intros _].
      unfold step. rewrite Hm. cbn [bind].
      apply run_counters_set. split; discriminate.
    + rewrite (step_unset pl line Hm).
      destruct (is_content line); cbn [bind negb andb].
      * split; [intros [st' Hst']; discriminate | intros Hf; discriminate Hf].
      * exact IH.
Qed.

(** [parse_diff_block] returns exactly on the blocks in which no content
    line comes before the first recognised header; on every other block it
    raises. *)
Lemma parse_diff_block_returns_iff (diff_block : string) :
  (exists parsed, parse_diff_block diff_block = Ok parsed)
  <-> guarded (splitlines diff_block) = true.
Proof.
  rewrite <- (run_unset (splitlines diff_block) []). unfold parse_diff_block. fold initial.
  destruct (run initial (splitlines diff_block)) as [st|e]; cbn [bind].
  - split; eauto.
  - split; intros [x Hx]; discriminate.
Qed.

(** C2. A file of one line that grows to two has the hunk header
    [@@ -1 +1,2 @@], a header by the pattern of the specification, followed
    by one unchanged and one added line.  The block has one line starting
    with a space, but [parse_diff_block] emits nothing for it: the header
    is not recognised, the counters are still [None] at the unchanged line,
    and the function raises [TypeError]. *)
Theorem parse_diff_block_one_line_file_grows :
  spec_header_match "@@ -1 +1,2 @@" = Some (1%Z, 1%Z)
  /\ splitlines one_line_file_grows = ["@@ -1 +1,2 @@"; " a"; "+b"]
  /\ count_space_prefixed (splitlines one_line_file_grows) = 1
  /\ parse_diff_block one_line_file_grows = Raise TypeError.
Proof. repeat split. Qed.

(** C6. The header [@@ -9 +9 @@], which leaves out both counts, matches
    the pattern of the specification with starts 9 and 9, but it is not a
    header for the program, whose pattern requires the old count: the loop
    drops the line and keeps its counters, so the lines of that hunk are
    numbered 3 where the header says 9; the same header in the first hunk
    leaves the counters unset and the next content line raises. *)
Theorem header_without_old_count_not_recognised :
  spec_header_match "@@ -9 +9 @@" = Some (9%Z, 9%Z)
  /\ header_match "@@ -9 +9 @@" = None
  /\ (forall st, step st "@@ -9 +9 @@" = Ok st)
  /\ parse_diff_block second_hunk_of_one_line
     = Ok [mkParsedLine "a" (Some 1%Z) (Some 1%Z) "none";
           mkParsedLine "b" (Some 2%Z) None "old";
           mkParsedLine "c" None (Some 2%Z) "new";
           mkParsedLine "y" (Some 3%Z) None "old";
           mkParsedLine "z" None (Some 3%Z) "new"]
  /\ spec_header_match "@@ -5 +3 @@" = Some (5%Z, 3%Z)
  /\ header_match "@@ -5 +3 @@" = None
  /\ parse_diff_block one_line_file_deleted = Raise TypeError.
Proof. repeat split. Qed.

(** C7. [parse_diff_block] raises on a content line that comes before
    any recognised header: an unchanged, a removed or an added line alone,
    a file header line such as [--- a/x], and the diff of a one-line file,
    whose header has no counts, all raise [TypeError]; lines that are not
    content lines are dropped. *)
Theorem parse_diff_block_raises_before_header :
  parse_diff_block " context" = Raise TypeError
  /\ parse_diff_block "-removed" = Raise TypeError
  /\ parse_diff_block "+added" = Raise TypeError
  /\ parse_diff_block "--- a/x" = Raise TypeError
  /\ parse_diff_block one_line_file_changed = Raise TypeError
  /\ parse_diff_block "diff --git a/x b/x" = Ok [].
Proof. repeat split. Qed.

End DiffParserFacts.

(** ** ResponseParser/Validator and CommentPoster *)

Module PosterFacts.
Import PyStr Poster PosterSpec.
Local Open Scope string_scope.

(** *** The code fence *)

Lemma strip_fence_json (raw : string) :
  strip_fence (fence "json" raw) = raw ++ nl.
Proof.
  unfold strip_fence, fence.
  change (startswith "```json" ("```" ++ "json" ++ nl ++ raw ++ nl ++ "```")) with true.
  cbv iota.
  change (drop 8 ("```" ++ "json" ++ nl ++ raw ++ nl ++ "```"))
    with (raw ++ nl ++ "```").
  rewrite <- PyStrFacts.append_assoc.
  rewrite PyStrFacts.endswith_append.
  exact (PyStrFacts.drop_last_append (raw ++ nl) "```").
Qed.

Lemma strip_fence_plain (raw : string) :
  strip_fence (fence "" raw) = "```" ++ nl ++ raw ++ nl.
Proof.
  unfold strip_fence, fence.
  change (startswith "```json" ("```" ++ "" ++ nl ++ raw ++ nl ++ "```")) with false.
  cbv iota.
  change ("```" ++ "" ++ nl ++ raw ++ nl ++ "```")
    with (("```" ++ nl) ++ raw ++ nl ++ "```").
  rewrite <- !PyStrFacts.append_assoc.
  rewrite PyStrFacts.endswith_append.
  rewrite (PyStrFacts.drop_last_append _ "```").
  now rewrite !PyStrFacts.append_assoc.
Qed.

Lemma strip_fence_unfenced (raw : string) :
  startswith "```json" raw = false -> endswith "```" raw = false ->
  strip_fence raw = raw.
Proof. unfold strip_fence. intros -> ->. reflexivity. Qed.

Lemma rstrip_ws_newline (s : string) :
  Reference.rstrip_ws (s ++ nl) = Reference.rstrip_ws s.
Proof.
  induction s as [|c s IH]; [reflexivity|].
  cbn [String.append Reference.rstrip_ws]. now rewrite IH.
Qed.

Lemma reference_ignores_trailing_newline :
  ignores_trailing_newline (codec := Reference.json_codec).
Proof.
  intros s. cbn [json_loads Reference.json_codec]. unfold Reference.loads.
  now rewrite rstrip_ws_newline.
Qed.

(** C8, as the program has it.  For every raw response that itself
    neither starts with the opening marker [```json] nor ends with the
    closing marker [```], wrapping it as [```json], line feed, the
    response, line feed, [```] gives the same parse as the unwrapped
    response, with any decoder that ignores a trailing line feed: the strip
    step turns the wrapped response into the raw one followed by a line
    feed and leaves the unwrapped one as it is. *)
Theorem fenced_response_parses_identically
  {codec : JsonCodec} (raw : string) :
  startswith "```json" raw = false ->
  endswith "```" raw = false ->
  ignores_trailing_newline ->
  strip_fence (fence "json" raw) = raw ++ nl
  /\ strip_fence raw = raw
  /\ parse_part (fence "json" raw) = parse_part raw.
Proof.
  intros Hstart Hend Hcodec.
  pose proof (strip_fence_json raw) as Hw.
  pose proof (strip_fence_unfenced raw Hstart Hend) as Hu.
  repeat split; try assumption.
  unfold parse_part. rewrite Hw, Hu. apply Hcodec.
Qed.

Lemma fenced_response_parses_identically_witness :
  parse_part (codec := Reference.json_codec)
             (fence "json" (array_of (comment_object "fix" "1") "{}" "7"))
  = parse_part (codec := Reference.json_codec)
               (array_of (comment_object "fix" "1") "{}" "7").
Proof.
  apply (fenced_response_parses_identically
           (codec := Reference.json_codec)
           (array_of (comment_object "fix" "1") "{}" "7")).
  - reflexivity.
  - reflexivity.
  - exact reference_ignores_trailing_newline.
Defined.

(** C8, as the specification has it, fails: a response that ends with a
    closing marker of its own parses to the empty array, and no longer
    parses once it is wrapped, since the strip step removes one closing
    marker only. *)
Lemma fenced_response_counterexample :
  ~ (forall raw : string,
        parse_part (codec := Reference.json_codec) (fence "json" raw)
        = parse_part (codec := Reference.json_codec) raw).
Proof.
  intros Hclaim. specialize (Hclaim "[]```"). vm_compute in Hclaim. discriminate.
Qed.

(** A plain fence, without the info string [json], is not removed. *)
Lemma plain_fence_not_parsed :
  parse_part (codec := Reference.json_codec) "[]" = Loaded (JList [])
  /\ parse_part (codec := Reference.json_codec) (fence "" "[]") = JSONDecodeError.
Proof. split; reflexivity. Qed.

(** *** Validation and posting *)

Section WithServices.
Context {codec : JsonCodec} {pydantic : Pydantic} {server : GitLab}.
Variable latest_diff : DiffRevision.

Lemma missing_required_invalid (data : list (string * json)) :
  missing_required data -> ReviewComment_init data = None.
Proof.
  unfold missing_required, ReviewComment_init, required, obind.
  intros [Hm | [Hm | [Hm | Hm]]]; rewrite Hm.
  - reflexivity.
  - destruct (dict_get "Comment" data) as [v|]; [|reflexivity].
    destruct (validate_str v); [|reflexivity].
    destruct (optional_str "Path" data); reflexivity.
  - destruct (dict_get "Comment" data) as [v|]; [|reflexivity].
    destruct (validate_str v); [|reflexivity].
    destruct (optional_str "Path" data); [|reflexivity].
    destruct (dict_get "StartLine" data) as [v'|]; [|reflexivity].
    destruct (validate_int v'); reflexivity.
  - destruct (dict_get "Comment" data) as [v|]; [|reflexivity].
    destruct (validate_str v); [|reflexivity].
    destruct (optional_str "Path" data); [|reflexivity].
    destruct (dict_get "StartLine" data) as [v'|]; [|reflexivity].
    destruct (validate_int v'); [|reflexivity].
    destruct (dict_get "EndLine" data) as [v''|]; [|reflexivity].
    destruct (validate_int v''); reflexivity.
Qed.

(** One comment adds at most one record and never reads the others. *)
Lemma post_comment_frame (part_index : Z) (g : gitlab) (E : list json) (x : json) :
  post_comment latest_diff part_index g E x
  = match post_comment latest_diff part_index g [] x with
    | (g', Ok new) => (g', Ok (E ++ new)%list)
    | (g', Raise e) => (g', Raise e)
    end.
Proof.
  unfold post_comment. destruct x; try reflexivity.
  destruct (ReviewComment_init items) as [comment|]; [|reflexivity].
  destruct (discussions_create g (discussion_of latest_diff comment)) as [g' [|msg|e]];
    try reflexivity.
  now rewrite app_nil_r.
Qed.

Lemma post_comments_frame (part_index : Z) (items : list json) :
  forall g E,
    post_comments latest_diff part_index g E items
    = match post_comments latest_diff part_index g [] items with
      | (g', Ok new) => (g', Ok (E ++ new)%list)
      | (g', Raise e) => (g', Raise e)
      end.
Proof.
  induction items as [|x rest IH]; intros g E; cbn [post_comments].
  - now rewrite app_nil_r.
  - rewrite (post_comment_frame part_index g E x).
    destruct (post_comment latest_diff part_index g [] x) as [g1 [new1 | e]];
      [|reflexivity].
    rewrite (IH g1 (E ++ new1)%list), (IH g1 new1).
    destruct (post_comments latest_diff part_index g1 [] rest) as [g2 [new2 | e]];
      [|reflexivity].
    now rewrite app_assoc.
Qed.

Lemma post_comments_app (part_index : Z) (pre post : list json) :
  forall g E,
    post_comments latest_diff part_index g E (pre ++ post)
    = match post_comments latest_diff part_index g E pre with
      | (g', Ok E') => post_comments latest_diff part_index g' E' post
      | (g', Raise e) => (g', Raise e)
      end.
Proof.
  induction pre as [|x rest IH]; intros g E; cbn [app post_comments].
  - reflexivity.
  - destruct (post_comment latest_diff part_index g E x) as [g1 [E1 | e]];
      [apply IH | reflexivity].
Qed.

(** A comment object that fails validation is recorded and the loop
    goes on with the next element. *)
Lemma post_comments_invalid (part_index : Z) (g : gitlab) (E : list json)
      (data : list (string * json)) (rest : list json) :
  ReviewComment_init data = None ->
  post_comments latest_diff part_index g E (JDict data :: rest)
  = post_comments latest_diff part_index g
                  (E ++ [validation_record part_index data])%list rest.
Proof. intros Hinv. cbn [post_comments post_comment]. now rewrite Hinv. Qed.

(** A comment the server rejects is recorded and the loop goes on with
    the next element. *)
Lemma post_comments_rejected (part_index : Z) (g g' : gitlab) (E : list json)
      (data : list (string * json)) (comment : ReviewComment)
      (error_message : string) (rest : list json) :
  ReviewComment_init data = Some comment ->
  discussions_create g (discussion_of latest_diff comment)
  = (g', GitlabCreateError error_message) ->
  post_comments latest_diff part_index g E (JDict data :: rest)
  = post_comments latest_diff part_index g'
                  (E ++ [posting_record part_index comment error_message])%list rest.
Proof.
  intros Hval Hrej. cbn [post_comments post_comment]. now rewrite Hval, Hrej.
Qed.

(** An invalid comment object among its siblings: the server sees what
    it sees without that element, and the error report is the one
    without it plus the record of the invalid element, in its place. *)
Lemma post_comments_skip_invalid (part_index : Z) (g : gitlab) (E : list json)
      (pre post : list json) (data : list (string * json)) :
  ReviewComment_init data = None ->
  match post_comments latest_diff part_index g E (pre ++ post) with
  | (g', Ok E') =>
      exists Ea Eb,
        E' = (Ea ++ Eb)%list
        /\ post_comments latest_diff part_index g E (pre ++ JDict data :: post)
           = (g', Ok (Ea ++ validation_record part_index data :: Eb)%list)
  | (g', Raise e) =>
      post_comments latest_diff part_index g E (pre ++ JDict data :: post)
      = (g', Raise e)
  end.
Proof.
  intros Hinv. rewrite !post_comments_app.
  destruct (post_comments latest_diff part_index g E pre) as [g1 [E1 | e]];
    [|reflexivity].
  rewrite (post_comments_invalid part_index g1 E1 data post Hinv).
  rewrite (post_comments_frame part_index post g1 E1).
  rewrite (post_comments_frame part_index post g1
             (E1 ++ [validation_record part_index data])%list).
  destruct (post_comments latest_diff part_index g1 [] post) as [g2 [new | e]];
    [|reflexivity].
  exists E1, new. split; [reflexivity|].
  now rewrite <- app_assoc.
Qed.

(** A part the decoder rejects with a [JSONDecodeError] ends the
    function at once. *)
Lemma post_parts_malformed (pre : list string) (bad : string) (post : list string) :
  parse_part bad = JSONDecodeError ->
  forall part_index g E,
    match post_parts latest_diff part_index g E pre with
    | (g', Ok _) =>
        post_parts latest_diff part_index g E (pre ++ bad :: post)
        = (g', Ok (Some INVALID_JSON))
    | (g', Raise e) =>
        post_parts latest_diff part_index g E (pre ++ bad :: post) = (g', Raise e)
    end.
Proof.
  unfold parse_part. intros Hbad.
  induction pre as [|p rest IH]; intros part_index g E; cbn [app post_parts].
  - now rewrite Hbad.
  - destruct (json_loads (strip_fence p)) as [v | | e0]; [|reflexivity|reflexivity].
    destruct v; try apply IH.
    destruct (post_comments latest_diff part_index g E items) as [g1 [E1 | e]];
      [apply IH | reflexivity].
Qed.

(** A part on which the decoder raises another exception makes the
    function raise it, once the parts before it are decoded and handled. *)
Lemma post_parts_decoder_raises (pre : list string) (bad : string) (post : list string)
      (e : exn) :
  parse_part bad = LoadsRaised e ->
  Forall decodes pre ->
  forall part_index g E,
    match post_parts latest_diff part_index g E pre with
    | (g', Ok _) =>
        post_parts latest_diff part_index g E (pre ++ bad :: post) = (g', Raise e)
    | (g', Raise e') =>
        post_parts latest_diff part_index g E (pre ++ bad :: post) = (g', Raise e')
    end.
Proof.
  unfold parse_part. intros Hbad Hpre.
  induction Hpre as [|p rest [v Hp] _ IH]; intros part_index g E; cbn [app post_parts].
  - now rewrite Hbad.
  - unfold parse_part in Hp. rewrite Hp.
    destruct v; try apply IH.
    destruct (post_comments latest_diff part_index g E items) as [g1 [E1 | e1]];
      [apply IH | reflexivity].
Qed.

(** If every comment of a part posts cleanly, the part adds nothing
    to the error report. *)
Lemma comments_clean_post (part_index : Z) (items : list json) :
  forall g g1 E,
    comments_clean latest_diff g items = Some g1 ->
    post_comments latest_diff part_index g E items = (g1, Ok E).
Proof.
  induction items as [|x rest IH]; intros g g1 E; cbn [comments_clean post_comments].
  - now intros [= ->].
  - destruct x; try discriminate. cbn [post_comment].
    destruct (ReviewComment_init items) as [comment|]; [|discriminate].
    destruct (discussions_create g (discussion_of latest_diff comment))
      as [g' [|msg|e]]; try discriminate.
    apply IH.
Qed.

(** The error report only grows, and it grows unless every comment of
    the part posts cleanly. *)
Lemma post_comments_clean (part_index : Z) (items : list json) :
  forall g g1 E E1,
    post_comments latest_diff part_index g E items = (g1, Ok E1) ->
    exists new,
      E1 = (E ++ new)%list
      /\ (new = [] -> comments_clean latest_diff g items = Some g1).
Proof.
  induction items as [|x rest IH]; intros g g1 E E1; cbn [comments_clean post_comments].
  - intros [= -> ->]. exists []. now rewrite app_nil_r.
  - destruct x; cbn [post_comment]; try discriminate.
    destruct (ReviewComment_init items) as [comment|].
    + destruct (discussions_create g (discussion_of latest_diff comment))
        as [g' [|msg|e]]; try discriminate.
      * apply IH.
      * intros Hrest. destruct (IH _ _ _ _ Hrest) as (new & -> & _).
        exists (posting_record part_index comment msg :: new).
        split; [now rewrite <- app_assoc | discriminate].
    + intros Hrest. destruct (IH _ _ _ _ Hrest) as (new & -> & _).
      exists (validation_record part_index items :: new).
      split; [now rewrite <- app_assoc | discriminate].
Qed.

Lemma post_parts_none (parts : list string) :
  forall part_index g E g',
    post_parts latest_diff part_index g E parts = (g', Ok None)
    <-> E = [] /\ parts_clean latest_diff g parts = Some g'.
Proof.
  induction parts as [|p rest IH]; intros part_index g E g';
    cbn [post_parts parts_clean]; unfold parse_part.
  - unfold summary. destruct E; split.
    + intros [= ->]. auto.
    + intros [_ [= ->]]. reflexivity.
    + discriminate.
    + intros [Hnil _]. discriminate.
  - destruct (json_loads (strip_fence p)) as [v | | e0].
    2:{ split; [discriminate | intros [_ Hc]; discriminate]. }
    2:{ split; [discriminate | intros [_ Hc]; discriminate]. }
    destruct v;
      try (rewrite IH; split;
           [intros [Hnil _]; destruct E; discriminate | intros [_ Hc]; discriminate]).
    destruct (post_comments latest_diff part_index g E items) as [g1 [E1 | e]] eqn:Hpost.
    + rewrite IH. split.
      * intros [-> Hrest].
        destruct (post_comments_clean _ _ _ _ _ _ Hpost) as (new & Hnew & Hclean).
        symmetry in Hnew. apply app_eq_nil in Hnew. destruct Hnew as [-> ->].
        split; [reflexivity|]. now rewrite (Hclean eq_refl).
      * intros [-> Hclean].
        destruct (comments_clean latest_diff g items) as [g2|] eqn:Hc; [|discriminate].
        rewrite (comments_clean_post part_index items g g2 [] Hc) in Hpost.
        injection Hpost as <- <-. auto.
    + split; [discriminate|].
      intros [-> Hclean].
      destruct (comments_clean latest_diff g items) as [g2|] eqn:Hc; [|discriminate].
      rewrite (comments_clean_post part_index items g g2 [] Hc) in Hpost.
      discriminate.
Qed.

Lemma post_parts_some (parts : list string) :
  Forall decodes parts ->
  forall part_index g E g' m,
    post_parts latest_diff part_index g E parts = (g', Ok (Some m)) ->
    exists E',
      E' <> []
      /\ m = "Failed to post some comments due to errors: " ++ json_dumps (JList E').
Proof.
  induction 1 as [|p rest Hp _ IH]; intros part_index g E g' m; cbn [post_parts].
  - unfold summary. destruct E as [|x E]; [discriminate|].
    intros [= _ <-]. exists (x :: E). split; [discriminate | reflexivity].
  - destruct Hp as [v Hp]. unfold parse_part in Hp. rewrite Hp.
    destruct v; try apply IH.
    destruct (post_comments latest_diff part_index g E items) as [g1 [E1 | e]];
      [apply IH | discriminate].
Qed.

(** The loop over a part collects the records of its elements. *)
Lemma post_comments_of_records (part_index : Z) (items : list json) :
  forall g E g' records,
    part_records latest_diff part_index g items = Some (g', records) ->
    post_comments latest_diff part_index g E items = (g', Ok (E ++ records)%list).
Proof.
  induction items as [|x rest IH]; intros g E g' records;
    cbn [part_records post_comments].
  - intros [= <- <-]. now rewrite app_nil_r.
  - unfold comment_records, post_comment. destruct x; try discriminate.
    destruct (ReviewComment_init items) as [comment|].
    + destruct (discussions_create g (discussion_of latest_diff comment))
        as [g1 [|msg|e]]; try discriminate.
      * destruct (part_records latest_diff part_index g1 rest) as [[g2 recs]|] eqn:Hr;
          [|discriminate].
        intros [= <- <-]. cbn [app]. apply IH, Hr.
      * destruct (part_records latest_diff part_index g1 rest) as [[g2 recs]|] eqn:Hr;
          [|discriminate].
        intros [= <- <-]. rewrite (IH _ _ _ _ Hr), <- app_assoc. reflexivity.
    + destruct (part_records latest_diff part_index g rest) as [[g2 recs]|] eqn:Hr;
        [|discriminate].
      intros [= <- <-]. rewrite (IH _ _ _ _ Hr), <- app_assoc. reflexivity.
Qed.

Lemma records_of_post_comments (part_index : Z) (items : list json) :
  forall g E g' E',
    post_comments latest_diff part_index g E items = (g', Ok E') ->
    exists records,
      part_records latest_diff part_index g items = Some (g', records)
      /\ E' = (E ++ records)%list.
Proof.
  induction items as [|x rest IH]; intros g E g' E';
    cbn [part_records post_comments].
  - intros [= <- <-]. exists []. now rewrite app_nil_r.
  - unfold comment_records, post_comment. destruct x; try discriminate.
    destruct (ReviewComment_init items) as [comment|].
    + destruct (discussions_create g (discussion_of latest_diff comment))
        as [g1 [|msg|e]]; try discriminate.
      * intros Hrest. destruct (IH _ _ _ _ Hrest) as (recs & -> & ->).
        exists recs. split; reflexivity.
      * intros Hrest. destruct (IH _ _ _ _ Hrest) as (recs & -> & ->).
        exists (posting_record part_index comment msg :: recs).
        split; [reflexivity | now rewrite <- app_assoc].
    + intros Hrest. destruct (IH _ _ _ _ Hrest) as (recs & -> & ->).
      exists (validation_record part_index items :: recs).
      split; [reflexivity | now rewrite <- app_assoc].
Qed.

(** The loop over the parts collects the report. *)
Lemma post_parts_of_report (parts : list string) :
  forall part_index g E g' records,
    report latest_diff part_index g parts = Some (g', records) ->
    post_parts latest_diff part_index g E parts = (g', Ok (summary (E ++ records)%list)).
Proof.
  induction parts as [|p rest IH]; intros part_index g E g' records;
    cbn [report post_parts]; unfold parse_part.
  - intros [= <- <-]. now rewrite app_nil_r.
  - destruct (json_loads (strip_fence p)) as [v | | e0]; try discriminate.
    destruct v;
      try (destruct (report latest_diff (part_index + 1) g rest) as [[g2 recs]|] eqn:Hr;
           [|discriminate];
           intros [= <- <-]; rewrite (IH _ _ _ _ _ Hr), <- app_assoc; reflexivity).
    destruct (part_records latest_diff part_index g items) as [[g1 recs1]|] eqn:Hp;
      [|discriminate].
    destruct (report latest_diff (part_index + 1) g1 rest) as [[g2 recs]|] eqn:Hr;
      [|discriminate].
    intros [= <- <-].
    rewrite (post_comments_of_records part_index items g E g1 recs1 Hp).
    rewrite (IH _ _ _ _ _ Hr), <- app_assoc. reflexivity.
Qed.

Lemma report_of_post_parts (parts : list string) :
  Forall decodes parts ->
  forall part_index g E g' r,
    post_parts latest_diff part_index g E parts = (g', Ok r) ->
    exists records,
      report latest_diff part_index g parts = Some (g', records)
      /\ r = summary (E ++ records)%list.
Proof.
  induction 1 as [|p rest [v Hp] _ IH]; intros part_index g E g' r;
    cbn [report post_parts].
  - intros [= <- <-]. exists []. now rewrite app_nil_r.
  - rewrite Hp. unfold parse_part in Hp. rewrite Hp.
    destruct v;
      try (intros Hrest; destruct (IH _ _ _ _ _ Hrest) as (recs & -> & ->);
           eexists; split; [reflexivity | now rewrite <- app_assoc]).
    destruct (post_comments latest_diff part_index g E items) as [g1 [E1 | e]] eqn:Hpost;
      [|discriminate].
    destruct (records_of_post_comments part_index items g E g1 E1 Hpost)
      as (recs1 & -> & ->).
    intros Hrest. destruct (IH _ _ _ _ _ Hrest) as (recs & -> & ->).
    eexists. split; [reflexivity | now rewrite <- app_assoc].
Qed.

(** Comments that validate never make the loop raise, as long as the
    server either accepts or rejects. *)
Lemma post_comments_returns (part_index : Z) (items : list json) :
  (forall g d g' e, discussions_create g d <> (g', CreateRaised e)) ->
  Forall (fun x => exists data, x = JDict data) items ->
  forall g E, exists g' E',
    post_comments latest_diff part_index g E items = (g', Ok E').
Proof.
  intros Hserver. induction 1 as [|x rest [data ->] _ IH]; intros g E;
    cbn [post_comments post_comment].
  - eauto.
  - destruct (ReviewComment_init data) as [comment|]; [|apply IH].
    destruct (discussions_create g (discussion_of latest_diff comment))
      as [g1 [|msg|e]] eqn:Hcreate; try apply IH.
    exfalso. exact (Hserver _ _ _ _ Hcreate).
Qed.

End WithServices.

(** C5, as the program has it.  In [post_review_comments] a response
    part that the decoder rejects with a [JSONDecodeError] makes the
    function return the fixed message [INVALID_JSON] at once: the parts
    after it are not read and the report collected so far is dropped.  A
    part on which the decoder raises any other exception makes the
    function raise that exception, after the parts before it have been
    posted: the [except] clause names the [JSONDecodeError] only.  A
    comment object that fails validation, as every object without a
    required field does, is recorded in the error report and skipped: the
    server receives what it receives without that element, so the valid
    siblings of the part are still posted, and the report is the one of
    the siblings with one record more, in place; the loop raises with the
    element exactly when it raises without it. *)
Theorem malformed_part_fatal_invalid_comment_skipped
  {codec : JsonCodec} {pydantic : Pydantic} {server : GitLab}
  (latest_diff : DiffRevision) :
  (forall mr pre bad post g' r,
      parse_part bad = JSONDecodeError ->
      post_review_comments mr (RCList pre) latest_diff = (g', Ok r) ->
      post_review_comments mr (RCList (pre ++ bad :: post)) latest_diff
      = (g', Ok (Some INVALID_JSON)))
  /\ (forall mr pre bad post g' r e,
        parse_part bad = LoadsRaised e ->
        Forall decodes pre ->
        post_review_comments mr (RCList pre) latest_diff = (g', Ok r) ->
        post_review_comments mr (RCList (pre ++ bad :: post)) latest_diff
        = (g', Raise e))
  /\ (forall data, missing_required data -> ReviewComment_init data = None)
  /\ (forall part_index g E pre data post g' E',
        ReviewComment_init data = None ->
        post_comments latest_diff part_index g E (pre ++ post) = (g', Ok E') ->
        exists Ea Eb,
          E' = (Ea ++ Eb)%list
          /\ post_comments latest_diff part_index g E (pre ++ JDict data :: post)
             = (g', Ok (Ea ++ validation_record part_index data :: Eb)%list))
  /\ (forall part_index g E pre data post g' e,
        ReviewComment_init data = None ->
        post_comments latest_diff part_index g E (pre ++ post) = (g', Raise e) ->
        post_comments latest_diff part_index g E (pre ++ JDict data :: post)
        = (g', Raise e)).
Proof.
  split; [|split; [|split; [|split]]].
  - intros mr pre bad post g' r Hbad Hpre. cbn [post_review_comments] in *.
    pose proof (post_parts_malformed latest_diff pre bad post Hbad 1%Z mr []) as Hm.
    rewrite Hpre in Hm. exact Hm.
  - intros mr pre bad post g' r e Hbad Hdec Hpre. cbn [post_review_comments] in *.
    pose proof (post_parts_decoder_raises latest_diff pre bad post e Hbad Hdec 1%Z mr [])
      as Hm.
    rewrite Hpre in Hm. exact Hm.
  - apply missing_required_invalid.
  - intros part_index g E pre data post g' E' Hinv Hrun.
    pose proof (post_comments_skip_invalid latest_diff part_index g E pre post data Hinv) as Hs.
    rewrite Hrun in Hs. exact Hs.
  - intros part_index g E pre data post g' e Hinv Hrun.
    pose proof (post_comments_skip_invalid latest_diff part_index g E pre post data Hinv) as Hs.
    rewrite Hrun in Hs. exact Hs.
Qed.

Lemma malformed_part_fatal_invalid_comment_skipped_witness :
  post_review_comments (codec := Reference.json_codec)
    (pydantic := Reference.strict_pydantic) (server := Reference.recording_gitlab)
    [] (RCList (["[" ++ comment_object "first" "3" ++ "]"]
                  ++ "[{]" :: ["[" ++ comment_object "never read" "4" ++ "]"]))
    revision
  = ([posted "first" 3], Ok (Some INVALID_JSON))
  /\ post_review_comments (codec := Reference.json_codec)
       (pydantic := Reference.strict_pydantic) (server := Reference.recording_gitlab)
       [] (RCList (["[" ++ comment_object "first" "3" ++ "]"]
                     ++ brackets 2000 :: ["[" ++ comment_object "never read" "4" ++ "]"]))
       revision
     = ([posted "first" 3], Raise Reference.RECURSION_ERROR)
  /\ exists Ea Eb,
       [] = (Ea ++ Eb)%list
       /\ post_comments (pydantic := Reference.strict_pydantic)
            (server := Reference.recording_gitlab) revision 1 [] []
            ([JDict (comment_data "before" 3)]
               ++ JDict no_end_line_data :: [JDict (comment_data "after" 5)])
          = ([posted "before" 3; posted "after" 5],
             Ok (Ea ++ validation_record (pydantic := Reference.strict_pydantic)
                         1 no_end_line_data :: Eb)%list).
Proof.
  pose proof (malformed_part_fatal_invalid_comment_skipped
                (codec := Reference.json_codec)
                (pydantic := Reference.strict_pydantic)
                (server := Reference.recording_gitlab) revision)
    as (Hfatal & Hraise & Hmissing & Hskip & _).
  split; [|split].
  - apply (Hfatal [] ["[" ++ comment_object "first" "3" ++ "]"] "[{]"
                  ["[" ++ comment_object "never read" "4" ++ "]"]
                  [posted "first" 3] None); reflexivity.
  - apply (Hraise [] ["[" ++ comment_object "first" "3" ++ "]"] (brackets 2000)
                  ["[" ++ comment_object "never read" "4" ++ "]"]
                  [posted "first" 3] None Reference.RECURSION_ERROR).
    + vm_compute. reflexivity.
    + constructor; [|constructor]. eexists. vm_compute. reflexivity.
    + reflexivity.
  - apply (Hskip 1%Z [] [] [JDict (comment_data "before" 3)] no_end_line_data
                 [JDict (comment_data "after" 5)]).
    + apply Hmissing. right. right. left. reflexivity.
    + reflexivity.
Defined.

(** C5, as the specification has it, fails: a part of two thousand
    opening brackets is malformed JSON, no value is decoded from it, and
    the function does not return the message: the decoder raises a
    [RecursionError], which the [except] clause does not catch. *)
Lemma malformed_part_raises_counterexample :
  ~ (forall bad : string,
        ~ decodes (codec := Reference.json_codec) bad ->
        post_review_comments (codec := Reference.json_codec)
          (pydantic := Reference.strict_pydantic) (server := Reference.recording_gitlab)
          [] (RCList [bad]) revision
        = ([], Ok (Some INVALID_JSON))).
Proof.
  intros Hclaim. specialize (Hclaim (brackets 2000)).
  assert (Hparse : parse_part (codec := Reference.json_codec) (brackets 2000)
                   = LoadsRaised Reference.RECURSION_ERROR)
    by (vm_compute; reflexivity).
  assert (Hbad : ~ decodes (codec := Reference.json_codec) (brackets 2000)).
  { intros [v Hv]. rewrite Hparse in Hv. discriminate Hv. }
  specialize (Hclaim Hbad).
  cbn [post_review_comments post_parts] in Hclaim.
  unfold parse_part in Hparse. rewrite Hparse in Hclaim. discriminate Hclaim.
Qed.

(** C9, as the program has it.  In [post_review_comments] a comment that
    validates and that the server rejects with a [GitlabCreateError] is
    recorded, with its text, path, lines, type and the error message, and
    the loop goes on with the next comment; comment objects never make the
    loop raise while the server accepts or rejects.  The function returns
    [None] exactly when every part is a list whose comments all posted
    cleanly.  When every part is decoded and the function returns, what
    it returns is the summary of the report, the records of the parts in
    order: one for each comment object that failed validation, one for
    each comment the server rejected, one for each part that is not a
    list; and whenever that report exists the function returns its
    summary. *)
Theorem rejected_comment_recorded_posting_continues
  {codec : JsonCodec} {pydantic : Pydantic} {server : GitLab}
  (latest_diff : DiffRevision) :
  (forall part_index g g' E data comment error_message rest,
      ReviewComment_init data = Some comment ->
      discussions_create g (discussion_of latest_diff comment)
      = (g', GitlabCreateError error_message) ->
      post_comments latest_diff part_index g E (JDict data :: rest)
      = post_comments latest_diff part_index g'
          (E ++ [JDict [("part", JInt part_index);
                        ("comment", JStr (Comment comment));
                        ("Path", json_of_optional_str (Path comment));
                        ("StartLine", JInt (StartLine comment));
                        ("EndLine", JInt (EndLine comment));
                        ("Type", JStr (Type_ comment));
                        ("Error", JStr ("Error posting comment in part "
                                        ++ str_of_int part_index ++ ": "
                                        ++ error_message))]])%list
          rest)
  /\ (forall part_index items,
        (forall g d g' e, discussions_create g d <> (g', CreateRaised e)) ->
        Forall (fun x => exists data, x = JDict data) items ->
        forall g E, exists g' E',
          post_comments latest_diff part_index g E items = (g', Ok E'))
  /\ (forall mr parts g',
        post_review_comments mr (RCList parts) latest_diff = (g', Ok None)
        <-> parts_clean latest_diff mr parts = Some g')
  /\ (forall mr parts g' r,
        Forall decodes parts ->
        post_review_comments mr (RCList parts) latest_diff = (g', Ok r) ->
        exists records,
          report latest_diff 1 mr parts = Some (g', records)
          /\ r = summary_of_report records)
  /\ (forall mr parts g' records,
        report latest_diff 1 mr parts = Some (g', records) ->
        post_review_comments mr (RCList parts) latest_diff
        = (g', Ok (summary_of_report records))).
Proof.
  split; [|split; [|split; [|split]]].
  - intros part_index g g' E data comment error_message rest Hval Hrej.
    apply (post_comments_rejected latest_diff part_index g g' E data comment
                                  error_message rest Hval Hrej).
  - intros part_index items Hserver Hitems.
    apply (post_comments_returns latest_diff part_index items Hserver Hitems).
  - intros mr parts g'. cbn [post_review_comments].
    rewrite (post_parts_none latest_diff parts 1%Z mr [] g'). tauto.
  - intros mr parts g' r Hdec. cbn [post_review_comments]. intros Hrun.
    destruct (report_of_post_parts latest_diff parts Hdec 1%Z mr [] g' r Hrun)
      as (records & Hrep & ->).
    exists records. split; [exact Hrep | reflexivity].
  - intros mr parts g' records Hrep. cbn [post_review_comments].
    rewrite (post_parts_of_report latest_diff parts 1%Z mr [] g' records Hrep).
    reflexivity.
Qed.

Lemma rejected_comment_recorded_posting_continues_witness :
  post_comments (pydantic := Reference.strict_pydantic)
    (server := Reference.recording_gitlab) revision 1 [posted "kept" 2] []
    (JDict (comment_data "refused" 0) :: [JDict (comment_data "kept too" 9)])
  = ([posted "kept" 2; posted "kept too" 9],
     Ok [posting_record 1 (mkReviewComment "refused" (Some "a.py") 1 0 "new")
           "400 Bad request - Note line_code must be a valid line code"])
  /\ post_review_comments (codec := Reference.json_codec)
       (pydantic := Reference.strict_pydantic) (server := Reference.recording_gitlab)
       [] (RCList ["[" ++ comment_object "fine" "2" ++ "]"; "[]"]) revision
     = ([posted "fine" 2], Ok None)
  /\ post_review_comments (codec := Reference.json_codec)
       (pydantic := Reference.strict_pydantic) (server := Reference.recording_gitlab)
       [] (RCList [fence "json" (array_of (comment_object "kept" "2")
                                          (comment_object "refused" "0")
                                          no_end_line);
                   "7"]) revision
     = ([posted "kept" 2],
        Ok (summary_of_report (codec := Reference.json_codec)
              [posting_record 1 (mkReviewComment "refused" (Some "a.py") 1 0 "new")
                 "400 Bad request - Note line_code must be a valid line code";
               validation_record (pydantic := Reference.strict_pydantic)
                 1 no_end_line_data;
               not_a_list_record 2])).
Proof.
  pose proof (rejected_comment_recorded_posting_continues
                (codec := Reference.json_codec)
                (pydantic := Reference.strict_pydantic)
                (server := Reference.recording_gitlab) revision)
    as (Hrej & _ & Hnone & _ & Hreport).
  split; [|split].
  - rewrite (Hrej 1%Z [posted "kept" 2] [posted "kept" 2] []
                  (comment_data "refused" 0)
                  (mkReviewComment "refused" (Some "a.py") 1 0 "new")
                  "400 Bad request - Note line_code must be a valid line code"
                  [JDict (comment_data "kept too" 9)] eq_refl eq_refl).
    reflexivity.
  - apply (proj2 (Hnone (@nil discussion)
                        ["[" ++ comment_object "fine" "2" ++ "]"; "[]"]
                        [posted "fine" 2])).
    reflexivity.
  - apply (Hreport (@nil discussion)
                   [fence "json" (array_of (comment_object "kept" "2")
                                           (comment_object "refused" "0")
                                           no_end_line);
                    "7"]
                   [posted "kept" 2]).
    vm_compute. reflexivity.
Defined.

(** C9, as the specification has it, fails: after a comment the server
    rejected, a part that is not decoded makes the function return the
    fixed message of C5, which is neither [None] nor a summary of records;
    the record of the rejected comment is dropped. *)
Lemma rejected_comment_record_dropped_counterexample :
  ~ (forall (parts : list string) g' r,
        post_review_comments (codec := Reference.json_codec)
          (pydantic := Reference.strict_pydantic) (server := Reference.recording_gitlab)
          [] (RCList parts) revision = (g', Ok r) ->
        r = None
        \/ exists records,
             r = Some ("Failed to post some comments due to errors: "
                       ++ json_dumps (JsonCodec := Reference.json_codec)
                            (JList records))).
Proof.
  intros Hclaim.
  destruct (Hclaim ["[" ++ comment_object "refused" "0" ++ "]"; "[{]"]
                   [] (Some INVALID_JSON) eq_refl) as [H | [records H]].
  - discriminate H.
  - injection H as H. unfold INVALID_JSON in H. cbn [append] in H. discriminate H.
Qed.

End PosterFacts.

(** ** The scenarios of the specification, run on the program *)

Module Scenarios.
Import PyStr DiffParser DiffParserSpec Poster PosterSpec.
Local Open Scope string_scope.

(** The block [@@ -1,2 +1,3 @@], [ line1], [-old2], [+new2], [+new3]
    parses to four lines. *)
Example parse_one_hunk :
  parse_diff_block (lines_of ["@@ -1,2 +1,3 @@"; " line1"; "-old2"; "+new2"; "+new3"])
  = Ok [mkParsedLine "line1" (Some 1%Z) (Some 1%Z) "none";
        mkParsedLine "old2" (Some 2%Z) None "old";
        mkParsedLine "new2" None (Some 2%Z) "new";
        mkParsedLine "new3" None (Some 3%Z) "new"].
Proof. reflexivity. Qed.

(** Two hunks with full headers: the counters are set again at the second
    header, the line that starts with a backslash is dropped, and the two
    lines starting with a space are the two unchanged lines. *)
Example parse_two_hunks :
  parse_diff_block two_hunks
  = Ok [mkParsedLine "line1" (Some 1%Z) (Some 1%Z) "none";
        mkParsedLine "old2" (Some 2%Z) None "old";
        mkParsedLine "new2" None (Some 2%Z) "new";
        mkParsedLine "new3" None (Some 3%Z) "new";
        mkParsedLine "ctx" (Some 10%Z) (Some 11%Z) "none"]
  /\ count_space_prefixed (splitlines two_hunks) = 2.
Proof. split; reflexivity. Qed.

(** The rendering of a FileDiff: the path line, one line per parsed line,
    and an empty line. *)
Example summary_of_file1 :
  Summary.summarize_diffs_multiline
    [mkDiff "old.py" "new.py"
            [mkParsedLine "kept" (Some 4%Z) (Some 5%Z) "none";
             mkParsedLine "gone" (Some 5%Z) None "old";
             mkParsedLine "here" None (Some 6%Z) "new"]]
  = lines_of ["PATH: new.py"; "5 (*): kept"; "5 (-): gone"; "6 (+): here"; ""].
Proof. reflexivity. Qed.

(** A fenced response with one comment object yields one valid
    ReviewComment of type [new], which is posted on the new side. *)
Example one_fenced_comment :
  parse_part (codec := Reference.json_codec)
             (fence "json" ("[" ++ comment_object "fix" "1" ++ "]"))
  = Loaded (JList [JDict (comment_data "fix" 1)])
  /\ ReviewComment_init (pydantic := Reference.strict_pydantic) (comment_data "fix" 1)
     = Some (mkReviewComment "fix" (Some "a.py") 1 1 "new")
  /\ post_review_comments (codec := Reference.json_codec)
       (pydantic := Reference.strict_pydantic) (server := Reference.recording_gitlab)
       [] (RCList [fence "json" ("[" ++ comment_object "fix" "1" ++ "]")]) revision
     = ([posted "fix" 1], Ok None).
Proof. repeat split. Qed.

(** The opening marker is removed together with the character after it:
    without a line feed after [```json] the first character of the
    response is lost. *)
Example fence_without_line_feed :
  strip_fence ("```json" ++ "[]" ++ "```") = "]".
Proof. reflexivity. Qed.

(** The decoder of the examples on malformed and oversized texts: a
    syntax error where the text ends too early or starts wrongly, a
    [RecursionError] once the nesting passes the limit, a [ValueError] for
    an integer literal of five thousand digits. *)
Example decoder_outcomes :
  Reference.loads (brackets 900) = JSONDecodeError
  /\ Reference.loads ("x" ++ brackets 2000) = JSONDecodeError
  /\ Reference.loads (brackets 2000) = LoadsRaised Reference.RECURSION_ERROR
  /\ Reference.loads ("[" ++ ones 5000 ++ "]") = LoadsRaised Reference.VALUE_ERROR
  /\ Reference.loads ("[" ++ ones 4300 ++ "]") = Loaded (JList [JInt (int_of_digits (ones 4300))]).
Proof. repeat split; vm_compute; reflexivity. Qed.

(** An element that is not an object is not caught by the validation:
    the call of the constructor raises [TypeError]. *)
Example element_not_an_object :
  post_review_comments (codec := Reference.json_codec)
    (pydantic := Reference.strict_pydantic) (server := Reference.recording_gitlab)
    [] (RCList ["[1]"]) revision
  = ([], Raise TypeError).
Proof. reflexivity. Qed.

End Scenarios.


(* ================================================================== *)
(** * Part III: further properties of the code *)
(* ================================================================== *)

(** ** DiffParser: what a returned parse looks like *)

Module DiffParserMoreFacts.
Import PyStr DiffParser DiffParserSpec DiffParserMore.

Lemma step_raise_is_type_error (st : state) (line : string) (e : exn) :
  step st line = Raise e -> e = TypeError.
Proof.
  unfold step. destruct (header_match line) as [[o n]|]; [discriminate|].
  destruct st as [pl [o|] [n|]]; cbn [st_old_line st_new_line st_parsed_lines];
    destruct (startswith " " line); cbn [incr bind]; try discriminate;
    try (now intros [= <-]);
    destruct (startswith "-" line); cbn [incr bind]; try discriminate;
    try (now intros [= <-]);
    destruct (startswith "+" line); cbn [incr bind]; try discriminate;
    now intros [= <-].
Qed.

Lemma run_raise_is_type_error (lines : list string) :
  forall st e, run st lines = Raise e -> e = TypeError.
Proof.
  induction lines as [|line rest IH]; intros st e; cbn [run].
  - discriminate.
  - destruct (step st line) as [st1|e1] eqn:Hstep; cbn [bind].
    + apply IH.
    + intros [= <-]. exact (step_raise_is_type_error _ _ _ Hstep).
Qed.

(** X1. [parse_diff_block] returns a list exactly when no content line
    of the block comes before the first header the pattern recognises; on
    every other block it raises, and what it raises is [TypeError]. *)
Theorem parse_diff_block_outcome (diff_block : string) :
  if guarded (splitlines diff_block)
  then exists parsed, parse_diff_block diff_block = Ok parsed
  else parse_diff_block diff_block = Raise TypeError.
Proof.
  pose proof (DiffParserFacts.parse_diff_block_returns_iff diff_block) as Hiff.
  destruct (guarded (splitlines diff_block)).
  - apply Hiff. reflexivity.
  - unfold parse_diff_block in *.
    destruct (run initial (splitlines diff_block)) as [st|e] eqn:Hrun; cbn [bind] in *.
    + assert (Hex : exists parsed, Ok (st_parsed_lines st) = Ok parsed) by eauto.
      apply Hiff in Hex. discriminate.
    + now rewrite (run_raise_is_type_error _ _ _ Hrun).
Qed.

Lemma step_emitted (st st' : state) (line : string) :
  step st line = Ok st' ->
  map emitted (st_parsed_lines st')
  = map emitted (st_parsed_lines st)
    ++ (if is_content line then [classify line] else []).
Proof.
  intros Hstep. pose proof (DiffParserFacts.step_effect_of_step _ _ _ Hstep) as He.
  unfold step_effect in He. unfold is_content, classify, kind_of.
  destruct (header_match line) as [[o n]|] eqn:Hm.
  - destruct He as (-> & _).
    pose proof (DiffParserFacts.header_not_content _ _ Hm) as Hc. unfold is_content in Hc.
    rewrite Hc. now rewrite app_nil_r.
  - destruct (startswith " " line).
    { destruct He as (o & n & _ & _ & -> & _). now rewrite map_app. }
    destruct (startswith "-" line).
    { destruct He as (o & _ & -> & _). now rewrite map_app. }
    destruct (startswith "+" line).
    { destruct He as (n & _ & -> & _). now rewrite map_app. }
    subst st'. now rewrite app_nil_r.
Qed.

Lemma run_emitted (lines : list string) :
  forall st st',
    run st lines = Ok st' ->
    map emitted (st_parsed_lines st')
    = map emitted (st_parsed_lines st) ++ map classify (filter is_content lines).
Proof.
  induction lines as [|line rest IH]; intros st st'; cbn [run filter].
  - intros [= <-]. now rewrite app_nil_r.
  - destruct (step st line) as [st1|e] eqn:Hstep; cbn [bind]; [|discriminate].
    intros Hrun. rewrite (IH _ _ Hrun), (step_emitted _ _ _ Hstep), <- app_assoc.
    destruct (is_content line); reflexivity.
Qed.

(** X2. When [parse_diff_block] returns, the lines it emits are the
    content lines of the block, in order and none left out: each emitted
    line has the text of its content line without the first character, and
    the kind [none], [old] or [new] of a line starting with a space, a minus
    or a plus.  In particular there are as many emitted lines as content
    lines. *)
Theorem parse_diff_block_emits_content_lines
  (diff_block : string) (parsed : list ParsedLine) :
  parse_diff_block diff_block = Ok parsed ->
  map emitted parsed = map classify (filter is_content (splitlines diff_block))
  /\ length parsed = length (filter is_content (splitlines diff_block)).
Proof.
  unfold parse_diff_block.
  destruct (run initial (splitlines diff_block)) as [st|e] eqn:Hrun; cbn [bind];
    [|discriminate].
  intros [= <-]. pose proof (run_emitted _ _ _ Hrun) as He. cbn in He.
  split; [exact He|].
  apply (f_equal (@length _)) in He. now rewrite !length_map in He.
Qed.

Lemma parse_diff_block_emits_content_lines_witness :
  map emitted [mkParsedLine "line1" (Some 1%Z) (Some 1%Z) "none";
               mkParsedLine "old2" (Some 2%Z) None "old";
               mkParsedLine "new2" None (Some 2%Z) "new";
               mkParsedLine "new3" None (Some 3%Z) "new";
               mkParsedLine "ctx" (Some 10%Z) (Some 11%Z) "none"]
  = map classify (filter is_content (splitlines two_hunks))
  /\ 5 = length (filter is_content (splitlines two_hunks)).
Proof.
  apply (parse_diff_block_emits_content_lines two_hunks). reflexivity.
Defined.

Lemma forallb_app_single {A : Type} (f : A -> bool) (l : list A) (x : A) :
  forallb f (l ++ [x]) = forallb f l && f x.
Proof. rewrite forallb_app. simpl. now rewrite andb_true_r. Qed.

Lemma step_well_shaped (st st' : state) (line : string) :
  step st line = Ok st' ->
  forallb well_shaped (st_parsed_lines st) = true ->
  forallb well_shaped (st_parsed_lines st') = true.
Proof.
  intros Hstep Hws. pose proof (DiffParserFacts.step_effect_of_step _ _ _ Hstep) as He.
  unfold step_effect in He.
  destruct (header_match line) as [[o n]|].
  - destruct He as (-> & _). exact Hws.
  - destruct (startswith " " line).
    { destruct He as (o & n & _ & _ & -> & _). now rewrite forallb_app_single, Hws. }
    destruct (startswith "-" line).
    { destruct He as (o & _ & -> & _). now rewrite forallb_app_single, Hws. }
    destruct (startswith "+" line).
    { destruct He as (n & _ & -> & _). now rewrite forallb_app_single, Hws. }
    now subst st'.
Qed.

Lemma run_well_shaped (lines : list string) :
  forall st st',
    run st lines = Ok st' ->
    forallb well_shaped (st_parsed_lines st) = true ->
    forallb well_shaped (st_parsed_lines st') = true.
Proof.
  induction lines as [|line rest IH]; intros st st'; cbn [run].
  - now intros [= <-].
  - destruct (step st line) as [st1|e] eqn:Hstep; cbn [bind]; [|discriminate].
    intros Hrun Hws. exact (IH _ _ Hrun (step_well_shaped _ _ _ Hstep Hws)).
Qed.

(** X3. Every line [parse_diff_block] returns carries the numbers of its
    kind: an unchanged line has an old and a new number, a removed line an
    old number and no new one, an added line a new number and no old one;
    no returned line is without a number. *)
Theorem parse_diff_block_lines_well_shaped
  (diff_block : string) (parsed : list ParsedLine) :
  parse_diff_block diff_block = Ok parsed ->
  forall pl, In pl parsed ->
    (type pl = "none" /\ old_line pl <> None /\ new_line pl <> None)
    \/ (type pl = "old" /\ old_line pl <> None /\ new_line pl = None)
    \/ (type pl = "new" /\ old_line pl = None /\ new_line pl <> None).
Proof.
  unfold parse_diff_block.
  destruct (run initial (splitlines diff_block)) as [st|e] eqn:Hrun; cbn [bind];
    [|discriminate].
  intros [= <-] pl Hin.
  pose proof (run_well_shaped _ _ _ Hrun eq_refl) as Hws.
  rewrite forallb_forall in Hws. specialize (Hws pl Hin).
  unfold well_shaped in Hws.
  destruct (old_line pl) as [o|], (new_line pl) as [n|]; try discriminate;
    apply String.eqb_eq in Hws.
  - left. repeat split; congruence.
  - right. left. repeat split; congruence.
  - right. right. repeat split; congruence.
Qed.

Lemma parse_diff_block_lines_well_shaped_witness :
  (type (mkParsedLine "old2" (Some 2%Z) None "old") = "none"
   /\ old_line (mkParsedLine "old2" (Some 2%Z) None "old") <> None
   /\ new_line (mkParsedLine "old2" (Some 2%Z) None "old") <> None)
  \/ (type (mkParsedLine "old2" (Some 2%Z) None "old") = "old"
      /\ old_line (mkParsedLine "old2" (Some 2%Z) None "old") <> None
      /\ new_line (mkParsedLine "old2" (Some 2%Z) None "old") = None)
  \/ (type (mkParsedLine "old2" (Some 2%Z) None "old") = "new"
      /\ old_line (mkParsedLine "old2" (Some 2%Z) None "old") = None
      /\ new_line (mkParsedLine "old2" (Some 2%Z) None "old") <> None).
Proof.
  apply (parse_diff_block_lines_well_shaped two_hunks _ eq_refl).
  right. left. reflexivity.
Defined.

Lemma old_numbers_app (a b : list ParsedLine) :
  old_numbers (a ++ b) = old_numbers a ++ old_numbers b.
Proof. unfold old_numbers. apply flat_map_app. Qed.

Lemma new_numbers_app (a b : list ParsedLine) :
  new_numbers (a ++ b) = new_numbers a ++ new_numbers b.
Proof. unfold new_numbers. apply flat_map_app. Qed.

Lemma minus_not_plus (line : string) :
  startswith "-" line = true -> startswith "+" line = false.
Proof.
  destruct line as [|c rest]; [discriminate|]. cbn [startswith]. intros H.
  destruct (Ascii.eqb "-" c) eqn:E; [|discriminate H].
  apply Ascii.eqb_eq in E. subst c. reflexivity.
Qed.

(** Between two headers the counters advance with the lines. *)
Lemma run_numbers (body : list string) :
  Forall (fun l => header_match l = None) body ->
  forall pl o n,
  exists pl',
    run (mkState pl (Some o) (Some n)) body
    = Ok (mkState pl' (Some (o + Z.of_nat (length (filter has_old body))))%Z
                      (Some (n + Z.of_nat (length (filter has_new body))))%Z)
    /\ old_numbers pl' = old_numbers pl ++ Zseq o (length (filter has_old body))
    /\ new_numbers pl' = new_numbers pl ++ Zseq n (length (filter has_new body)).
Proof.
  induction 1 as [|line rest Hm _ IH]; intros pl o n.
  - exists pl. cbn. rewrite !Z.add_0_r, !app_nil_r. auto.
  - cbn [run filter]. unfold step. rewrite Hm.
    cbn [st_old_line st_new_line st_parsed_lines]. unfold has_old, has_new.
    destruct (startswith " " line); cbn [orb incr bind].
    { destruct (IH (pl ++ [mkParsedLine (drop 1 line) (Some o) (Some n) "none"])
                   (o + 1)%Z (n + 1)%Z) as (pl' & Hrun & Ho & Hn).
      exists pl'. rewrite Hrun, Ho, Hn, old_numbers_app, new_numbers_app, <- !app_assoc.
      cbn [length Zseq].
      replace (o + 1 + Z.of_nat (length (filter has_old rest)))%Z
        with (o + Z.of_nat (S (length (filter has_old rest))))%Z by lia.
      replace (n + 1 + Z.of_nat (length (filter has_new rest)))%Z
        with (n + Z.of_nat (S (length (filter has_new rest))))%Z by lia.
      auto. }
    destruct (startswith "-" line) eqn:Hminus; cbn [orb incr bind].
    { rewrite (minus_not_plus line Hminus).
      destruct (IH (pl ++ [mkParsedLine (drop 1 line) (Some o) None "old"])
                   (o + 1)%Z n) as (pl' & Hrun & Ho & Hn).
      exists pl'. rewrite Hrun, Ho, Hn, old_numbers_app, new_numbers_app, <- !app_assoc.
      replace (o + 1 + Z.of_nat (length (filter has_old rest)))%Z
        with (o + Z.of_nat (S (length (filter has_old rest))))%Z by lia.
      cbn [length Zseq]. cbn. auto. }
    destruct (startswith "+" line); cbn [orb incr bind].
    { destruct (IH (pl ++ [mkParsedLine (drop 1 line) None (Some n) "new"])
                   o (n + 1)%Z) as (pl' & Hrun & Ho & Hn).
      exists pl'. rewrite Hrun, Ho, Hn, old_numbers_app, new_numbers_app, <- !app_assoc.
      replace (n + 1 + Z.of_nat (length (filter has_new rest)))%Z
        with (n + Z.of_nat (S (length (filter has_new rest))))%Z by lia.
      cbn [length Zseq]. cbn. auto. }
    destruct (IH pl o n) as (pl' & Hrun & Ho & Hn).
    exists pl'. rewrite Hrun, Ho, Hn. auto.
Qed.

Lemma run_noise (pre : list string) :
  Forall (fun l => is_noise l = true) pre ->
  forall rest, run initial (pre ++ rest) = run initial rest.
Proof.
  induction 1 as [|line pre' Hnoise _ IH]; intros rest; [reflexivity|].
  cbn [app run]. unfold is_noise in Hnoise.
  destruct (header_match line) as [x|] eqn:Hm; [discriminate|].
  unfold initial at 1. rewrite (DiffParserFacts.step_unset [] line Hm).
  apply negb_true_iff in Hnoise. rewrite Hnoise. cbn [bind]. apply IH.
Qed.

(** X4. In a block with one recognised header [@@ -o,c +n... @@],
    possibly after lines that are not content lines, [parse_diff_block]
    returns, and the old numbers of the returned lines are the consecutive
    numbers [o], [o + 1], ..., one for each line of the hunk starting with a
    space or a minus, while the new numbers are [n], [n + 1], ..., one for
    each line starting with a space or a plus. *)
Theorem parse_diff_block_numbers_one_hunk
  (diff_block : string) (pre : list string) (header : string) (body : list string)
  (o n : Z) :
  splitlines diff_block = pre ++ header :: body ->
  Forall (fun l => is_noise l = true) pre ->
  header_match header = Some (o, n) ->
  Forall (fun l => header_match l = None) body ->
  exists parsed,
    parse_diff_block diff_block = Ok parsed
    /\ old_numbers parsed = Zseq o (length (filter has_old body))
    /\ new_numbers parsed = Zseq n (length (filter has_new body)).
Proof.
  intros Hlines Hpre Hheader Hbody. unfold parse_diff_block.
  rewrite Hlines, (run_noise pre Hpre). cbn [run]. unfold step. rewrite Hheader.
  cbn [bind initial st_parsed_lines].
  destruct (run_numbers body Hbody [] o n) as (pl' & -> & Ho & Hn).
  exists pl'. cbn [bind st_parsed_lines]. auto.
Qed.

Lemma parse_diff_block_numbers_one_hunk_witness :
  exists parsed,
    parse_diff_block (lines_of ["diff --git a/x b/x"; "@@ -7,3 +9,4 @@ def f():";
                                " a"; "-b"; "+c"; "+d"; " e"])
    = Ok parsed
    /\ old_numbers parsed = [7; 8; 9]%Z
    /\ new_numbers parsed = [9; 10; 11; 12]%Z.
Proof.
  apply (parse_diff_block_numbers_one_hunk
           (lines_of ["diff --git a/x b/x"; "@@ -7,3 +9,4 @@ def f():";
                      " a"; "-b"; "+c"; "+d"; " e"])
           ["diff --git a/x b/x"] "@@ -7,3 +9,4 @@ def f():"
           [" a"; "-b"; "+c"; "+d"; " e"] 7%Z 9%Z).
  - reflexivity.
  - repeat constructor.
  - reflexivity.
  - repeat constructor.
Defined.

Lemma strip_prefix_append (p s r e : string) :
  strip_prefix p s = Some r -> strip_prefix p (s ++ e)%string = Some (r ++ e)%string.
Proof.
  revert s. induction p as [|a p IH]; intros s; simpl.
  - now intros [= ->].
  - destruct s as [|b s]; [discriminate|]. simpl.
    destruct (Ascii.eqb a b); [apply IH | discriminate].
Qed.

Lemma span_digits_append (s d r e : string) :
  span_digits s = (d, r) -> r <> EmptyString ->
  span_digits (s ++ e)%string = (d, (r ++ e)%string).
Proof.
  revert d r. induction s as [|c s IH]; intros d r; simpl.
  - intros [= <- <-]. congruence.
  - destruct (is_digit c).
    + destruct (span_digits s) as [d' r'] eqn:Hs. intros [= <- <-] Hne.
      now rewrite (IH d' r' eq_refl Hne).
    + now intros [= <- <-] _.
Qed.

Lemma digits1_append (s e : string) (g : string * string) :
  digits1 s = Some g -> snd g <> EmptyString ->
  digits1 (s ++ e)%string = Some (fst g, (snd g ++ e)%string).
Proof.
  unfold digits1. destruct (span_digits s) as [d r] eqn:Hs.
  destruct d as [|c d]; [discriminate|]. intros [= <-] Hne. cbn [fst snd] in *.
  now rewrite (span_digits_append s _ r e Hs Hne).
Qed.

Lemma strip_prefix_nonempty (a : ascii) (p s r : string) :
  strip_prefix (String a p) s = Some r -> s <> EmptyString.
Proof. destruct s; [discriminate | discriminate]. Qed.

(** The header pattern is matched at the start of the line only:
    whatever follows a recognised header on its line, such as the section
    heading that git prints after the second [@@], the header is
    recognised with the same two starts. *)
Theorem header_match_ignores_rest_of_line (line extra : string) (x : Z * Z) :
  header_match line = Some x ->
  header_match (line ++ extra)%string = Some x.
Proof.
  unfold header_match, obind.
  destruct (strip_prefix "@@ -" line) as [r1|] eqn:H1; [|discriminate].
  rewrite (strip_prefix_append _ _ _ extra H1).
  destruct (digits1 r1) as [g1|] eqn:Hg1; [|discriminate].
  destruct (strip_prefix "," (snd g1)) as [r2|] eqn:H2; [|discriminate].
  rewrite (digits1_append _ extra _ Hg1 (strip_prefix_nonempty _ _ _ _ H2)).
  cbn [fst snd]. rewrite (strip_prefix_append _ _ _ extra H2).
  destruct (digits1 r2) as [c1|] eqn:Hc1; [|discriminate].
  destruct (strip_prefix " +" (snd c1)) as [r3|] eqn:H3; [|discriminate].
  rewrite (digits1_append _ extra _ Hc1 (strip_prefix_nonempty _ _ _ _ H3)).
  cbn [fst snd]. rewrite (strip_prefix_append _ _ _ extra H3).
  destruct (digits1 r3) as [g2|] eqn:Hg2; [|discriminate].
  destruct (strip_prefix "," (snd g2)) as [r4|] eqn:H4.
  - rewrite (digits1_append _ extra _ Hg2 (strip_prefix_nonempty _ _ _ _ H4)).
    cbn [fst snd]. rewrite (strip_prefix_append _ _ _ extra H4).
    destruct (digits1 r4) as [c2|] eqn:Hc2; [|discriminate].
    destruct (strip_prefix " @@" (snd c2)) as [r5|] eqn:H5; [|discriminate].
    rewrite (digits1_append _ extra _ Hc2 (strip_prefix_nonempty _ _ _ _ H5)).
    cbn [fst snd]. rewrite (strip_prefix_append _ _ _ extra H5). auto.
  - destruct (strip_prefix " @@" (snd g2)) as [r5|] eqn:H5; [|discriminate].
    rewrite (digits1_append _ extra _ Hg2 (strip_prefix_nonempty _ _ _ _ H5)).
    cbn [fst snd].
    assert (Hno : strip_prefix "," (snd g2 ++ extra)%string = None).
    { destruct (snd g2) as [|c rest]; [discriminate H5|].
      cbn [strip_prefix String.append] in H4 |- *.
      destruct (Ascii.eqb "," c); [discriminate H4 | reflexivity]. }
    rewrite Hno, (strip_prefix_append _ _ _ extra H5). auto.
Qed.

Lemma header_match_ignores_rest_of_line_witness :
  header_match ("@@ -10,2 +13 @@" ++ " class Reviewer:")%string = Some (10%Z, 13%Z).
Proof.
  apply (header_match_ignores_rest_of_line "@@ -10,2 +13 @@" " class Reviewer:").
  reflexivity.
Defined.

(** X5. Parsing and rendering compose: every line of a returned parse is
    shown in the summary with a number, never with [None], and with the
    marker of its kind; the number shown is the new one for an unchanged or
    added line and the old one for a removed line. *)
Theorem parsed_lines_render_with_numbers
  (diff_block : string) (parsed : list ParsedLine) :
  parse_diff_block diff_block = Ok parsed ->
  forall pl, In pl parsed ->
    (type pl = "none" /\ exists z, new_line pl = Some z /\ shown_as pl z "(*)")
    \/ (type pl = "old" /\ exists z, old_line pl = Some z /\ shown_as pl z "(-)")
    \/ (type pl = "new" /\ exists z, new_line pl = Some z /\ shown_as pl z "(+)").
Proof.
  unfold parse_diff_block.
  destruct (run initial (splitlines diff_block)) as [st|e] eqn:Hrun; cbn [bind];
    [|discriminate].
  intros [= <-] pl Hin.
  pose proof (run_well_shaped _ _ _ Hrun eq_refl) as Hws.
  rewrite forallb_forall in Hws. specialize (Hws pl Hin).
  unfold well_shaped in Hws. unfold shown_as, Summary.render_line.
  destruct (old_line pl) as [o|] eqn:Ho, (new_line pl) as [n|] eqn:Hn; try discriminate;
    apply String.eqb_eq in Hws; rewrite Hws.
  - left. split; [reflexivity|]. exists n. split; reflexivity.
  - right. left. split; [reflexivity|]. exists o. split; reflexivity.
  - right. right. split; [reflexivity|]. exists n. split; reflexivity.
Qed.

Lemma parsed_lines_render_with_numbers_witness :
  type (mkParsedLine "ctx" (Some 10%Z) (Some 11%Z) "none") = "none"
  /\ exists z, new_line (mkParsedLine "ctx" (Some 10%Z) (Some 11%Z) "none") = Some z
               /\ shown_as (mkParsedLine "ctx" (Some 10%Z) (Some 11%Z) "none") z "(*)".
Proof.
  destruct (parsed_lines_render_with_numbers two_hunks _ eq_refl
              (mkParsedLine "ctx" (Some 10%Z) (Some 11%Z) "none"))
    as [H | [[H _] | [H _]]].
  - do 4 right. left. reflexivity.
  - exact H.
  - discriminate H.
  - discriminate H.
Defined.

End DiffParserMoreFacts.

(** ** Rendering and chunk planning *)

Module ChunkPlannerMoreFacts.
Import PyStr Summary ChunkPlanner ChunkPlannerSpec Reviewer ChunkPlannerMore.
Local Open Scope Z_scope.

Lemma join_app (sep : string) (xs ys : list string) :
  xs <> [] -> ys <> [] ->
  join sep (xs ++ ys) = (join sep xs ++ sep ++ join sep ys)%string.
Proof.
  intros Hx Hy. induction xs as [|x xs IH]; [congruence|].
  destruct xs as [|x' xs].
  - destruct ys as [|y ys]; [congruence|]. reflexivity.
  - change (join sep ((x :: x' :: xs) ++ ys))
      with (x ++ sep ++ join sep ((x' :: xs) ++ ys))%string.
    rewrite IH by discriminate.
    change (join sep (x :: x' :: xs)) with (x ++ sep ++ join sep (x' :: xs))%string.
    now rewrite !PyStrFacts.append_assoc.
Qed.

Lemma render_diff_nonempty (d : Diff) : render_diff d <> [].
Proof. unfold render_diff. discriminate. Qed.

Lemma flat_map_render_nonempty (d : Diff) (ds : list Diff) :
  flat_map render_diff (d :: ds) <> [].
Proof.
  cbn [flat_map]. pose proof (render_diff_nonempty d).
  destruct (render_diff d); [congruence | discriminate].
Qed.

(** The summary of several FileDiffs is the summaries of the single
    FileDiffs joined by a line feed, and the summary of a single FileDiff
    is its path line and its rendered lines, each followed by a line feed.
    So the text sent for a chunk of [k + 1] FileDiffs has [k] characters
    more than the summaries whose costs the planner added up. *)
Theorem summary_of_chunk_joins_file_summaries (diffs : list Diff) :
  summarize_diffs_multiline diffs = join Reviewer.nl (map summary_of diffs)
  /\ (forall d,
        summary_of d
        = (join Reviewer.nl
             (("PATH: " ++ (if String.eqb (newpath d) "" then oldpath d else newpath d))
                :: map render_line (parsed_lines d))
           ++ Reviewer.nl)%string)
  /\ (forall d ds,
        String.length (summarize_diffs_multiline (d :: ds))
        = (String.length (summary_of d)
           + fold_right (fun x acc => 1 + String.length (summary_of x) + acc) 0 ds)%nat).
Proof.
  assert (Hjoin : forall ds, summarize_diffs_multiline ds
                             = join Reviewer.nl (map summary_of ds)).
  { induction ds as [|d ds IH]; [reflexivity|].
    destruct ds as [|d' ds].
    - unfold summary_of. reflexivity.
    - unfold summarize_diffs_multiline in *. cbn [flat_map].
      rewrite join_app;
        [|apply render_diff_nonempty | apply (flat_map_render_nonempty d' ds)].
      change (flat_map render_diff (d' :: ds))
        with (render_diff d' ++ flat_map render_diff ds)%list in IH |- *.
      rewrite IH.
      change (map summary_of (d :: d' :: ds))
        with (summary_of d :: map summary_of (d' :: ds)).
      change (join Reviewer.nl (summary_of d :: map summary_of (d' :: ds)))
        with (summary_of d ++ Reviewer.nl ++ join Reviewer.nl (map summary_of (d' :: ds)))%string.
      unfold summary_of at 2, summarize_diffs_multiline. cbn [flat_map].
      now rewrite app_nil_r. }
  split; [apply Hjoin | split].
  - intros d. unfold summary_of, summarize_diffs_multiline. cbn [flat_map].
    rewrite app_nil_r. unfold render_diff.
    set (header := ("PATH: " ++ _)%string).
    change (header :: map render_line (parsed_lines d) ++ [""%string])%list
      with ((header :: map render_line (parsed_lines d)) ++ [""%string])%list.
    rewrite join_app by discriminate. cbn [join].
    now rewrite PyStrFacts.append_empty_r.
  - intros d ds. rewrite Hjoin. cbn [map].
    induction ds as [|x xs IH] in d |- *.
    + cbn. lia.
    + change (join Reviewer.nl (summary_of d :: map summary_of (x :: xs)))
        with (summary_of d ++ Reviewer.nl ++ join Reviewer.nl (summary_of x :: map summary_of xs))%string.
      rewrite !PyStrFacts.length_append, (IH x). cbn [fold_right String.length Reviewer.nl].
      lia.
Qed.

Section WithTokenizer.
Context {tokenizer : Tokenizer}.
Variables (ceiling : Z) (base_messages : list message) (model : string).

Let base := estimate_tokens base_messages model.
Let cost := diff_cost model.

Lemma chunk_cost_app (a b : list Diff) :
  chunk_cost model (a ++ b) = chunk_cost model a + chunk_cost model b.
Proof.
  unfold chunk_cost. induction a as [|d a IH]; cbn [app fold_right]; [lia|].
  rewrite IH. lia.
Qed.

Lemma chunk_cost_nonneg (c : list Diff) : 0 <= chunk_cost model c.
Proof.
  unfold chunk_cost. induction c as [|d c IH]; cbn [fold_right]; [lia|].
  assert (0 <= diff_cost model d) by (unfold diff_cost; lia). lia.
Qed.

Let within (c : list Diff) : Prop :=
  base + chunk_cost model c <= ceiling \/ (length c <= 1)%nat.

Lemma plan_within (diffs : list Diff) :
  forall current tokens,
    tokens = base + chunk_cost model current ->
    within current ->
    Forall within (plan cost ceiling base current tokens diffs).
Proof.
  induction diffs as [|d rest IH]; intros current tokens Htok Hw; cbn [plan].
  - destruct current; constructor; [exact Hw | constructor].
  - destruct (Z.gtb_spec (tokens + cost d) ceiling) as [Hgt | Hle].
    + constructor; [exact Hw|]. apply IH.
      * unfold chunk_cost. cbn [fold_right]. fold cost. lia.
      * right. cbn. lia.
    + apply IH.
      * rewrite chunk_cost_app. unfold chunk_cost at 2. cbn [fold_right]. fold cost. lia.
      * left. rewrite chunk_cost_app. unfold chunk_cost at 2. cbn [fold_right].
        fold cost. lia.
Qed.

(** The first chunk of a plan starts with what the current chunk holds. *)
Lemma plan_head (diffs : list Diff) :
  forall current tokens,
    current <> [] ->
    exists more rest_chunks,
      plan cost ceiling base current tokens diffs = (current ++ more) :: rest_chunks.
Proof.
  induction diffs as [|d rest IH]; intros current tokens Hne; cbn [plan].
  - destruct current; [congruence|]. exists [], []. now rewrite app_nil_r.
  - destruct (tokens + cost d >? ceiling).
    + exists [], (plan cost ceiling base [d] (base + cost d) rest). now rewrite app_nil_r.
    + destruct (IH (current ++ [d]) (tokens + cost d)) as (more & tl & ->).
      { destruct current; discriminate. }
      exists (d :: more), tl. now rewrite <- app_assoc.
Qed.

Lemma plan_greedy (diffs : list Diff) :
  forall current tokens,
    tokens = base + chunk_cost model current ->
    forall i c d c',
      nth_error (plan cost ceiling base current tokens diffs) i = Some c ->
      nth_error (plan cost ceiling base current tokens diffs) (S i) = Some (d :: c') ->
      base + chunk_cost model c + cost d > ceiling.
Proof.
  induction diffs as [|d0 rest IH]; intros current tokens Htok i c d c'; cbn [plan].
  - destruct current; destruct i; cbn; try discriminate.
  - destruct (Z.gtb_spec (tokens + cost d0) ceiling) as [Hgt | Hle].
    + destruct i as [|i].
      * cbn [nth_error]. intros [= <-].
        destruct (plan_head rest [d0] (base + cost d0) ltac:(discriminate))
          as (more & tl & ->).
        cbn. intros [= <- _]. lia.
      * cbn [nth_error]. apply IH.
        unfold chunk_cost. cbn [fold_right]. fold cost. lia.
    + apply IH. rewrite chunk_cost_app. unfold chunk_cost at 2. cbn [fold_right].
      fold cost. lia.
Qed.

Lemma plan_fits (diffs : list Diff) :
  forall current tokens,
    tokens + chunk_cost model diffs <= ceiling ->
    (current ++ diffs)%list <> [] ->
    plan cost ceiling base current tokens diffs = [(current ++ diffs)%list].
Proof.
  induction diffs as [|d rest IH]; intros current tokens Hfit Hne; cbn [plan].
  - rewrite app_nil_r in *. destruct current; [congruence | reflexivity].
  - unfold chunk_cost in Hfit. cbn [fold_right] in Hfit. fold (chunk_cost model rest) in Hfit.
    fold cost in Hfit. pose proof (chunk_cost_nonneg rest).
    destruct (Z.gtb_spec (tokens + cost d) ceiling) as [Hgt | Hle]; [lia|].
    rewrite IH.
    + now rewrite <- app_assoc.
    + lia.
    + destruct current; discriminate.
Qed.

End WithTokenizer.

(** X6. Every chunk [split_into_chunks] returns keeps the budget, the
    cost of the base messages plus the costs of its FileDiffs being at most
    the ceiling, unless it holds no more than one FileDiff: only a chunk
    of a single FileDiff, or the empty first chunk, can be over the
    ceiling. *)
Theorem split_into_chunks_budget
  {tokenizer : Tokenizer} (diffs : list Diff) (max_tokens_per_chunk : Z)
  (base_messages : list message) (model : string) :
  Forall (fun chunk =>
            estimate_tokens base_messages model + chunk_cost model chunk
            <= max_tokens_per_chunk
            \/ (length chunk <= 1)%nat)
         (split_into_chunks diffs max_tokens_per_chunk base_messages model).
Proof.
  rewrite ChunkPlannerFacts.split_into_chunks_plan.
  apply (plan_within max_tokens_per_chunk base_messages model diffs).
  - unfold chunk_cost. cbn. lia.
  - right. cbn. lia.
Qed.

(** X7. The planner is greedy: a chunk is closed only when the next
    FileDiff does not fit.  For any two consecutive chunks, the cost of the
    base messages, of the first chunk and of the FileDiff that opens the
    second one together exceed the ceiling. *)
Theorem split_into_chunks_greedy
  {tokenizer : Tokenizer} (diffs : list Diff) (max_tokens_per_chunk : Z)
  (base_messages : list message) (model : string)
  (i : nat) (chunk : list Diff) (d : Diff) (next : list Diff) :
  let result := split_into_chunks diffs max_tokens_per_chunk base_messages model in
  nth_error result i = Some chunk ->
  nth_error result (S i) = Some (d :: next) ->
  estimate_tokens base_messages model + chunk_cost model chunk + diff_cost model d
  > max_tokens_per_chunk.
Proof.
  intros result. unfold result. rewrite ChunkPlannerFacts.split_into_chunks_plan.
  apply (plan_greedy max_tokens_per_chunk base_messages model diffs).
  unfold chunk_cost. cbn. lia.
Qed.

Lemma split_into_chunks_greedy_witness :
  estimate_tokens (tokenizer := Reference.char_tokenizer) Scenario.base_messages "gpt-4"
  + chunk_cost (tokenizer := Reference.char_tokenizer) "gpt-4" [Scenario.file1]
  + diff_cost (tokenizer := Reference.char_tokenizer) "gpt-4" Scenario.file2
  > 200.
Proof.
  apply (split_into_chunks_greedy (tokenizer := Reference.char_tokenizer)
           [Scenario.file1; Scenario.file2] 200 Scenario.base_messages "gpt-4"
           0%nat [Scenario.file1] Scenario.file2 []); reflexivity.
Defined.

(** X8. When the base messages and all the FileDiffs together fit under
    the ceiling, [split_into_chunks] returns the input as one chunk; for no
    FileDiff at all it returns no chunk. *)
Theorem split_into_chunks_all_fit
  {tokenizer : Tokenizer} (diffs : list Diff) (max_tokens_per_chunk : Z)
  (base_messages : list message) (model : string) :
  split_into_chunks [] max_tokens_per_chunk base_messages model = []
  /\ (diffs <> [] ->
      estimate_tokens base_messages model + chunk_cost model diffs
      <= max_tokens_per_chunk ->
      split_into_chunks diffs max_tokens_per_chunk base_messages model = [diffs]).
Proof.
  split; [reflexivity|]. intros Hne Hfit.
  rewrite ChunkPlannerFacts.split_into_chunks_plan.
  apply (plan_fits max_tokens_per_chunk base_messages model diffs []); assumption.
Qed.

Lemma split_into_chunks_all_fit_witness :
  split_into_chunks (tokenizer := Reference.char_tokenizer)
                    [Scenario.file1; Scenario.file2] 270 Scenario.base_messages "gpt-4"
  = [[Scenario.file1; Scenario.file2]].
Proof.
  apply (proj2 (split_into_chunks_all_fit (tokenizer := Reference.char_tokenizer)
                  [Scenario.file1; Scenario.file2] 270 Scenario.base_messages "gpt-4")).
  - discriminate.
  - vm_compute. discriminate.
Defined.

Lemma estimate_tokens_base_messages
  {tokenizer : Tokenizer} (self : ChatGPTReviewer) (task_details : string) :
  estimate_tokens (base_messages_of self task_details) (model self)
  = calculate_token_count (model self) (prompt_message self)
    + task_cost (model self) task_details.
Proof.
  unfold estimate_tokens, base_messages_of, task_cost, calculate_token_count.
  destruct (String.eqb task_details ""); cbn [app fold_left msg_content]; lia.
Qed.

(** X9. The prompt is paid for twice in the budget of a reviewer:
    [__init__] takes its cost off the token limit to set the ceiling, and
    the planner starts its counter at the cost of the base messages, which
    hold the prompt again.  So in every chunk [get_review] plans with two
    or more FileDiffs, the FileDiffs cost at most the token limit less
    twice the static tokens, less the cost of the task message. *)
Theorem planned_chunks_pay_prompt_twice
  {tokenizer : Tokenizer} (MODEL : string) (TOKEN_LIMIT : Z) (file : option string)
  (diffs : list Diff) (task_details : string) (chunk : list Diff) :
  let self := init MODEL TOKEN_LIMIT file in
  In chunk (planned_chunks self diffs task_details) ->
  (2 <= length chunk)%nat ->
  chunk_cost MODEL chunk
  <= TOKEN_LIMIT - 2 * static_tokens (token_stats self) - task_cost MODEL task_details.
Proof.
  intros self Hin Hlen. unfold planned_chunks in Hin.
  assert (Hbudget :
            Forall (fun chunk =>
                      estimate_tokens (base_messages_of self task_details) (model self)
                      + chunk_cost (model self) chunk
                      <= max_tokens_per_chunk self
                      \/ (length chunk <= 1)%nat)
                   (split_into_chunks diffs (max_tokens_per_chunk self)
                                      (base_messages_of self task_details) (model self))).
  { rewrite ChunkPlannerFacts.split_into_chunks_plan.
    apply (plan_within (max_tokens_per_chunk self)
                       (base_messages_of self task_details) (model self) diffs).
    - unfold chunk_cost. cbn. lia.
    - right. cbn. lia. }
  rewrite Forall_forall in Hbudget. specialize (Hbudget chunk Hin).
  rewrite estimate_tokens_base_messages in Hbudget.
  unfold self, init in Hbudget |- *.
  cbn [model prompt_message max_tokens_per_chunk token_stats static_tokens] in Hbudget |- *.
  destruct Hbudget as [Hb | Hb]; lia.
Qed.

Lemma planned_chunks_pay_prompt_twice_witness :
  chunk_cost (tokenizer := Reference.char_tokenizer) "gpt-4"
             [Scenario.file1; Scenario.file2]
  <= 3000
     - 2 * static_tokens (token_stats (init (tokenizer := Reference.char_tokenizer)
                                            "gpt-4" 3000 None))
     - task_cost (tokenizer := Reference.char_tokenizer) "gpt-4" "".
Proof.
  apply (planned_chunks_pay_prompt_twice (tokenizer := Reference.char_tokenizer)
           "gpt-4" 3000 None [Scenario.file1; Scenario.file2] ""
           [Scenario.file1; Scenario.file2]).
  - vm_compute. left. reflexivity.
  - cbn. lia.
Defined.

End ChunkPlannerMoreFacts.

(** ** ReviewClient: requests, retries and delays *)

Module ReviewerMoreFacts.
Import PyStr Summary ChunkPlanner Reviewer ChunkPlannerMore RetryTimed.
Local Open Scope Z_scope.

Section WithServices.
Context {tokenizer : Tokenizer} {service : LLM}.

(** [get_review] on an empty list of diffs returns an empty list of
    reviews at the first attempt: no request is sent to the model and the
    reviewer, with its token statistics, is unchanged. *)
Theorem get_review_no_diffs (task_details : string) (st : ChatGPTReviewer * llm) :
  get_review [] task_details st = (st, Ok []).
Proof. destruct st as [self l]. reflexivity. Qed.

Lemma review_chunks_answered (Hanswers : always_answers)
      (self0 : ChatGPTReviewer) (task_details : string) (chunks : list (list Diff)) :
  forall self l reviews,
    same_configuration self0 self ->
    exists self' l' answers,
      review_chunks (base_messages_of self0 task_details) self l chunks reviews
      = ((self', l'), Ok (reviews ++ answers)%list)
      /\ length answers = length chunks
      /\ same_configuration self0 self'
      /\ diff_tokens (token_stats self')
         = diff_tokens (token_stats self) + diff_tokens_of (model self0) chunks
      /\ total_tokens (token_stats self')
         = total_tokens (token_stats self) + total_tokens_of self0 task_details chunks.
Proof.
  induction chunks as [|chunk rest IH]; intros self l reviews Hcfg; cbn [review_chunks].
  - exists self, l, []. rewrite app_nil_r.
    split; [reflexivity|]. split; [reflexivity|]. split; [exact Hcfg|].
    cbn [diff_tokens_of total_tokens_of fold_right]. split; lia.
  - set (summary := summarize_diffs_multiline chunk).
    set (messages := (base_messages_of self0 task_details ++ [mkMessage "user" summary])%list).
    set (self1 := set_diff_tokens _ self). set (self2 := set_total_tokens _ self1).
    unfold send_to_chatgpt.
    destruct (Hanswers l (model self2) messages) as (l1 & answer & ->).
    destruct (IH self2 l1 (reviews ++ [answer])%list) as
      (self' & l' & answers & Hrun & Hlen & Hcfg' & Hd & Ht).
    { apply (ReviewerFacts.same_configuration_trans _ self); [exact Hcfg|].
      apply ReviewerFacts.counted_same_configuration. }
    exists self', l', (answer :: answers). rewrite Hrun, <- app_assoc.
    destruct Hcfg as (Hm & _).
    split; [reflexivity|]. split; [|split; [exact Hcfg'|split]].
    + cbn. now rewrite Hlen.
    + rewrite Hd. unfold self2, self1, set_total_tokens, set_diff_tokens.
      unfold diff_tokens_of. cbn [token_stats diff_tokens fold_right]. fold summary.
      rewrite Hm. lia.
    + rewrite Ht. unfold self2, self1, set_total_tokens, set_diff_tokens.
      unfold total_tokens_of. cbn [token_stats total_tokens fold_right model].
      unfold request_text at 2. unfold request_of. fold summary. fold messages.
      rewrite Hm. lia.
Qed.

(** X10. When the model answers every request, [get_review] succeeds at
    the first attempt with one review for each planned chunk; the
    configuration is unchanged, [diff_tokens] has grown by the costs of the
    chunk summaries and [total_tokens] by the costs of the request texts,
    each counted once. *)
Theorem get_review_all_answered
  (diffs : list Diff) (task_details : string) (self : ChatGPTReviewer) (l : llm) :
  always_answers ->
  exists self' l' reviews,
    get_review diffs task_details (self, l) = ((self', l'), Ok reviews)
    /\ length reviews = length (planned_chunks self diffs task_details)
    /\ same_configuration self self'
    /\ diff_tokens (token_stats self')
       = diff_tokens (token_stats self)
         + diff_tokens_of (model self) (planned_chunks self diffs task_details)
    /\ total_tokens (token_stats self')
       = total_tokens (token_stats self)
         + total_tokens_of self task_details (planned_chunks self diffs task_details).
Proof.
  intros Hanswers.
  destruct (review_chunks_answered Hanswers self task_details
              (planned_chunks self diffs task_details) self l []
              (ReviewerFacts.same_configuration_refl self))
    as (self' & l' & answers & Hrun & Hrest).
  exists self', l', answers.
  unfold get_review. cbn [retry_on_exception get_review_body].
  unfold planned_chunks in Hrun. rewrite Hrun. auto.
Qed.

(** The body of [get_review] when every request fails: the first chunk
    is counted, and the exception of the model comes out. *)
Lemma get_review_body_refused (Hfails : always_fails)
      (diffs : list Diff) (task_details : string) (self : ChatGPTReviewer) (l : llm)
      (chunk : list Diff) (rest : list (list Diff)) :
  planned_chunks self diffs task_details = chunk :: rest ->
  exists self' l' e,
    get_review_body diffs task_details (self, l) = ((self', l'), Raise e)
    /\ same_configuration self self'
    /\ diff_tokens (token_stats self')
       = diff_tokens (token_stats self)
         + calculate_token_count (model self) (summarize_diffs_multiline chunk)
    /\ total_tokens (token_stats self')
       = total_tokens (token_stats self)
         + calculate_token_count (model self) (request_text self task_details chunk).
Proof.
  intros Hplan. unfold get_review_body. unfold planned_chunks in Hplan. rewrite Hplan.
  cbn [review_chunks].
  set (summary := summarize_diffs_multiline chunk).
  set (messages := (base_messages_of self task_details ++ [mkMessage "user" summary])%list).
  set (self1 := set_diff_tokens _ self). set (self2 := set_total_tokens _ self1).
  unfold send_to_chatgpt.
  destruct (Hfails l (model self2) messages) as (l1 & e & ->).
  exists self2, l1, e.
  split; [reflexivity|]. split; [apply ReviewerFacts.counted_same_configuration|].
  split; reflexivity.
Qed.

Lemma retry_refused (Hfails : always_fails)
      (diffs : list Diff) (task_details : string) (self0 : ChatGPTReviewer)
      (chunk : list Diff) (rest : list (list Diff)) :
  planned_chunks self0 diffs task_details = chunk :: rest ->
  forall n self l,
    same_configuration self0 self ->
    exists self' l',
      retry_on_exception n (get_review_body diffs task_details) (self, l)
      = ((self', l'), Raise RuntimeError)
      /\ same_configuration self0 self'
      /\ diff_tokens (token_stats self')
         = diff_tokens (token_stats self)
           + Z.of_nat n
             * calculate_token_count (model self0) (summarize_diffs_multiline chunk)
      /\ total_tokens (token_stats self')
         = total_tokens (token_stats self)
           + Z.of_nat n
             * calculate_token_count (model self0) (request_text self0 task_details chunk).
Proof.
  intros Hplan. induction n as [|n IH]; intros self l Hcfg; cbn [retry_on_exception].
  - exists self, l. split; [reflexivity|]. split; [exact Hcfg|]. split; lia.
  - assert (Hplan' : planned_chunks self diffs task_details = chunk :: rest).
    { now rewrite (ReviewerFacts.planned_chunks_same_configuration self0 self). }
    destruct (get_review_body_refused Hfails diffs task_details self l chunk rest Hplan')
      as (self1 & l1 & e & -> & Hcfg1 & Hd1 & Ht1).
    destruct (IH self1 l1 (ReviewerFacts.same_configuration_trans _ _ _ Hcfg Hcfg1))
      as (self' & l' & -> & Hcfg' & Hd & Ht).
    exists self', l'. split; [reflexivity|]. split; [exact Hcfg'|]. split.
    + rewrite Hd, Hd1. destruct Hcfg as (-> & _). lia.
    + rewrite Ht, Ht1. destruct Hcfg as (Hm & Hp & _).
      unfold request_text, request_of, base_messages_of. rewrite Hm, Hp. lia.
Qed.

(** X11. When the model fails every request, [get_review] on a list of
    diffs that is not empty makes five attempts and raises [RuntimeError];
    every attempt counts the first planned chunk again, so [diff_tokens]
    has grown by five times the cost of its summary and [total_tokens] by
    five times the cost of its request text, though no review was
    obtained. *)
Theorem get_review_all_refused
  (diffs : list Diff) (task_details : string) (self : ChatGPTReviewer) (l : llm)
  (chunk : list Diff) (rest : list (list Diff)) :
  always_fails ->
  planned_chunks self diffs task_details = chunk :: rest ->
  exists self' l',
    get_review diffs task_details (self, l) = ((self', l'), Raise RuntimeError)
    /\ same_configuration self self'
    /\ diff_tokens (token_stats self')
       = diff_tokens (token_stats self)
         + 5 * calculate_token_count (model self) (summarize_diffs_multiline chunk)
    /\ total_tokens (token_stats self')
       = total_tokens (token_stats self)
         + 5 * calculate_token_count (model self) (request_text self task_details chunk).
Proof.
  intros Hfails Hplan.
  destruct (retry_refused Hfails diffs task_details self chunk rest Hplan 5%nat self l
              (ReviewerFacts.same_configuration_refl self)) as (self' & l' & Hrun & Hrest).
  exists self', l'. split; [exact Hrun | exact Hrest].
Qed.

Lemma retry_only_runtime_error {S A : Type} (func : S -> S * result A) (n : nat) :
  forall s e, snd (retry_on_exception n func s) = Raise e -> e = RuntimeError.
Proof.
  induction n as [|n IH]; intros s e; cbn [retry_on_exception].
  - now intros [= <-].
  - destruct (func s) as [s' [a | e']]; [discriminate | apply IH].
Qed.

(** X12. Whatever the model raises, a rate limit or anything else, the
    caller of [get_review] never sees it: the only exception [get_review]
    raises is the [RuntimeError] of the retry wrapper. *)
Theorem get_review_raises_only_runtime_error
  (diffs : list Diff) (task_details : string) (st : ChatGPTReviewer * llm) (e : exn) :
  snd (get_review diffs task_details st) = Raise e -> e = RuntimeError.
Proof. unfold get_review. apply retry_only_runtime_error. Qed.

End WithServices.

Lemma counting_llm_always_answers :
  always_answers (service := ReferenceMore.counting_llm).
Proof. intros l m messages. exists (S l), "[]"%string. reflexivity. Qed.

Lemma refusing_llm_always_fails :
  always_fails (service := ReferenceMore.refusing_llm).
Proof. intros l m messages. exists (S l), RateLimitError. reflexivity. Qed.

Lemma get_review_all_answered_witness :
  exists self' l' reviews,
    get_review (tokenizer := Reference.char_tokenizer)
               (service := ReferenceMore.counting_llm)
               [Scenario.file1; Scenario.file2] "" 
               (init (tokenizer := Reference.char_tokenizer) "gpt-4" 1000 None, 0%nat)
    = ((self', l'), Ok reviews)
    /\ length reviews
       = length (planned_chunks (tokenizer := Reference.char_tokenizer)
                   (init (tokenizer := Reference.char_tokenizer) "gpt-4" 1000 None)
                   [Scenario.file1; Scenario.file2] "").
Proof.
  destruct (get_review_all_answered (tokenizer := Reference.char_tokenizer)
              (service := ReferenceMore.counting_llm)
              [Scenario.file1; Scenario.file2] ""
              (init (tokenizer := Reference.char_tokenizer) "gpt-4" 1000 None) 0%nat
              counting_llm_always_answers)
    as (self' & l' & reviews & Hrun & Hlen & _).
  exists self', l', reviews. split; [exact Hrun | exact Hlen].
Defined.

Lemma get_review_all_refused_witness :
  exists self' l',
    get_review (tokenizer := Reference.char_tokenizer)
               (service := ReferenceMore.refusing_llm)
               [Scenario.file1; Scenario.file2] ""
               (init (tokenizer := Reference.char_tokenizer) "gpt-4" 3000 None, 0%nat)
    = ((self', l'), Raise RuntimeError)
    /\ diff_tokens (token_stats self') = 0 + 5 * 251.
Proof.
  destruct (get_review_all_refused (tokenizer := Reference.char_tokenizer)
              (service := ReferenceMore.refusing_llm)
              [Scenario.file1; Scenario.file2] ""
              (init (tokenizer := Reference.char_tokenizer) "gpt-4" 3000 None) 0%nat
              [Scenario.file1; Scenario.file2] []
              refusing_llm_always_fails eq_refl)
    as (self' & l' & Hrun & _ & Hd & _).
  exists self', l'. split; [exact Hrun | exact Hd].
Defined.

Lemma get_review_raises_only_runtime_error_witness :
  RateLimitError <> RuntimeError
  /\ RuntimeError = RuntimeError.
Proof.
  split; [discriminate|].
  apply (get_review_raises_only_runtime_error
           (tokenizer := Reference.char_tokenizer)
           (service := ReferenceMore.refusing_llm)
           [Scenario.file1] ""
           (init (tokenizer := Reference.char_tokenizer) "gpt-4" 3000 None, 0%nat)
           RuntimeError).
  reflexivity.
Defined.

Lemma retry_loop_erase {St A : Type} (func : St -> St * result A) (f : Z) (n : nat) :
  forall d s slept,
    (fst (fst (retry_loop n d f func s slept)), snd (retry_loop n d f func s slept))
    = retry_on_exception n func s.
Proof.
  induction n as [|n IH]; intros d s slept; cbn [retry_loop retry_on_exception].
  - reflexivity.
  - destruct (func s) as [s' [a | e]]; [reflexivity|].
    destruct n as [|n']; destruct e; apply IH.
Qed.

Lemma retry_loop_slept {St A : Type} (func : St -> St * result A) (f : Z) (n : nat) :
  forall d s slept,
  exists k,
    (k <= n)%nat
    /\ snd (fst (retry_loop n d f func s slept)) = slept ++ backoff_delays d f k.
Proof.
  induction n as [|n IH]; intros d s slept; cbn [retry_loop].
  - exists 0%nat. cbn. now rewrite app_nil_r.
  - destruct (func s) as [s' [a | e]].
    { exists 0%nat. cbn. rewrite app_nil_r. split; [lia | reflexivity]. }
    assert (Hsleep : exists k, (k <= S n)%nat
              /\ snd (fst (retry_loop n (d * f) f func s' (slept ++ [d])))
                 = slept ++ backoff_delays d f k).
    { destruct (IH (d * f) s' (slept ++ [d])) as (k & Hk & Hs).
      exists (S k). split; [lia|]. rewrite Hs. cbn [backoff_delays].
      now rewrite <- app_assoc. }
    assert (Hquiet : exists k, (k <= S n)%nat
              /\ snd (fst (retry_loop n d f func s' slept))
                 = slept ++ backoff_delays d f k).
    { destruct (IH d s' slept) as (k & Hk & Hs).
      exists k. split; [lia | exact Hs]. }
    destruct n as [|n']; destruct e; first [exact Hsleep | exact Hquiet].
Qed.

Lemma retry_loop_rate_limited {St A : Type} (func : St -> St * result A) (f : Z) (n : nat) :
  (forall s0, exists s1, func s0 = (s1, Raise RateLimitError)) ->
  forall d s slept,
    snd (fst (retry_loop n d f func s slept)) = slept ++ backoff_delays d f n
    /\ snd (retry_loop n d f func s slept) = Raise RuntimeError.
Proof.
  intros Hlimited. induction n as [|n IH]; intros d s slept; cbn [retry_loop].
  - cbn. now rewrite app_nil_r.
  - destruct (Hlimited s) as (s1 & ->).
    destruct (IH (d * f) s1 (slept ++ [d])) as (Hs & Hr).
    rewrite Hs, Hr. cbn [backoff_delays]. now rewrite <- app_assoc.
Qed.

Lemma retry_loop_other_errors {St A : Type} (func : St -> St * result A) (f : Z) (n : nat) :
  (forall s0, exists s1 e, func s0 = (s1, Raise e) /\ e <> RateLimitError) ->
  forall d s slept,
    snd (fst (retry_loop n d f func s slept)) = slept ++ backoff_delays d f (n - 1)
    /\ snd (retry_loop n d f func s slept) = Raise RuntimeError.
Proof.
  intros Hother. induction n as [|n IH]; intros d s slept; cbn [retry_loop].
  - cbn. now rewrite app_nil_r.
  - destruct (Hother s) as (s1 & e & -> & Hne).
    destruct n as [|n'].
    + destruct e; try congruence; cbn; now rewrite app_nil_r.
    + destruct (IH (d * f) s1 (slept ++ [d])) as (Hs & Hr).
      replace (S (S n') - 1)%nat with (S (S n' - 1)) by lia.
      destruct e; try congruence; rewrite Hs, Hr; cbn [backoff_delays];
        now rewrite <- app_assoc.
Qed.

(** X13. The delays of [retry_on_exception].  Leaving the sleeps out
    gives the wrapper as modelled without them.  The wrapper sleeps at most
    once per attempt, and the delays are the initial delay multiplied by the
    backoff factor each time.  When every attempt is rate limited it sleeps
    after each of them, also after the last one, before it raises
    [RuntimeError]; when every attempt fails otherwise it sleeps once
    less. *)
Theorem retry_on_exception_delays
  {St A : Type} (max_retries : nat) (initial_delay backoff_factor : Z)
  (func : St -> St * result A) (s : St) :
  let out := retry_on_exception_timed max_retries initial_delay backoff_factor func s in
  (fst (fst out), snd out) = retry_on_exception max_retries func s
  /\ (exists k, (k <= max_retries)%nat
                /\ snd (fst out) = backoff_delays initial_delay backoff_factor k)
  /\ ((forall s0, exists s1, func s0 = (s1, Raise RateLimitError)) ->
      snd (fst out) = backoff_delays initial_delay backoff_factor max_retries
      /\ snd out = Raise RuntimeError)
  /\ ((forall s0, exists s1 e, func s0 = (s1, Raise e) /\ e <> RateLimitError) ->
      snd (fst out) = backoff_delays initial_delay backoff_factor (max_retries - 1)
      /\ snd out = Raise RuntimeError).
Proof.
  intros out. unfold out, retry_on_exception_timed. split; [|split; [|split]].
  - apply retry_loop_erase.
  - destruct (retry_loop_slept func backoff_factor max_retries initial_delay s [])
      as (k & Hk & Hs).
    exists k. split; [exact Hk | exact Hs].
  - intros Hlimited.
    exact (retry_loop_rate_limited func backoff_factor max_retries Hlimited
                                   initial_delay s []).
  - intros Hother.
    exact (retry_loop_other_errors func backoff_factor max_retries Hother
                                   initial_delay s []).
Qed.

Lemma retry_on_exception_delays_witness :
  snd (fst (get_review_timed (tokenizer := Reference.char_tokenizer)
              (service := ReferenceMore.refusing_llm)
              [Scenario.file1] ""
              (init (tokenizer := Reference.char_tokenizer) "gpt-4" 3000 None, 0%nat)))
  = [2; 4; 8; 16; 32]
  /\ snd (get_review_timed (tokenizer := Reference.char_tokenizer)
            (service := ReferenceMore.refusing_llm)
            [Scenario.file1] ""
            (init (tokenizer := Reference.char_tokenizer) "gpt-4" 3000 None, 0%nat))
     = Raise RuntimeError.
Proof.
  apply (proj1 (proj2 (proj2 (retry_on_exception_delays 5 2 2
           (get_review_body (tokenizer := Reference.char_tokenizer)
                            (service := ReferenceMore.refusing_llm)
                            [Scenario.file1] "")
           (init (tokenizer := Reference.char_tokenizer) "gpt-4" 3000 None, 0%nat))))).
  intros [self l]. unfold get_review_body.
  pose proof (ReviewerFacts.split_into_chunks_nonempty
                (tokenizer := Reference.char_tokenizer)
                [Scenario.file1] (max_tokens_per_chunk self)
                (base_messages_of self "") (model self) ltac:(discriminate)) as Hne.
  destruct (split_into_chunks [Scenario.file1] (max_tokens_per_chunk self)
                              (base_messages_of self "") (model self))
    as [|chunk rest]; [congruence|].
  cbn [review_chunks]. eexists. reflexivity.
Defined.

End ReviewerMoreFacts.

(** ** The prompt *)

Module PromptFacts.
Import PyStr Reviewer ChunkPlannerMore.
Local Open Scope string_scope.

Lemma blank_cons (c : ascii) (s : string) :
  blank (String c s) = is_space c && blank s.
Proof. reflexivity. Qed.

Lemma rstrip_blank (s : string) : blank s = true -> rstrip s = "".
Proof.
  induction s as [|c s IH]; [reflexivity|]. rewrite blank_cons.
  intros H. apply andb_true_iff in H. destruct H as [Hc Hs].
  cbn [rstrip]. now rewrite (IH Hs), Hc.
Qed.

(** What [rstrip] leaves of a text that is not blank starts like the
    text and is not blank. *)
Lemma rstrip_not_blank (s : string) :
  blank s = false -> rstrip s <> "" /\ blank (rstrip s) = false.
Proof.
  induction s as [|c s IH]; [discriminate|]. rewrite blank_cons. intros H.
  cbn [rstrip]. destruct (blank s) eqn:Hs.
  - rewrite (rstrip_blank s Hs). rewrite andb_true_r in H. rewrite H.
    split; [discriminate|]. rewrite blank_cons, H. reflexivity.
  - destruct (IH eq_refl) as [Hne Hb].
    destruct (rstrip s) as [|c' r] eqn:Hr; [congruence|].
    split; [discriminate|]. rewrite blank_cons, Hb. apply andb_false_r.
Qed.

Lemma lstrip_empty (s : string) : lstrip s = "" <-> blank s = true.
Proof.
  induction s as [|c s IH]; [cbn; tauto|].
  rewrite blank_cons. cbn [lstrip]. destruct (is_space c); cbn [andb].
  - exact IH.
  - split; discriminate.
Qed.

Lemma strip_empty (s : string) : strip s = "" <-> blank s = true.
Proof.
  unfold strip. rewrite lstrip_empty. split.
  - intros Hb. destruct (blank s) eqn:Hs; [reflexivity|].
    destruct (rstrip_not_blank s Hs) as [_ Hb']. congruence.
  - intros Hs. now rewrite (rstrip_blank s Hs).
Qed.

(** X14. [load_prompt_message] always returns a prompt followed by the
    static JSON instructions, and the prompt is never empty: it is the
    default prompt when the file is missing, cannot be read, is empty or
    holds white space only, and the stripped text of the file
    otherwise. *)
Theorem load_prompt_message_cases (file : option string) :
  exists prompt,
    load_prompt_message file = prompt ++ static_instructions
    /\ prompt <> ""
    /\ match file with
       | None => prompt = DEFAULT_PROMPT_MESSAGE
       | Some text =>
           if blank text then prompt = DEFAULT_PROMPT_MESSAGE
           else prompt = strip text
       end.
Proof.
  unfold load_prompt_message. destruct file as [text|].
  - destruct (blank text) eqn:Hb.
    + apply strip_empty in Hb. rewrite Hb.
      exists DEFAULT_PROMPT_MESSAGE. repeat split. discriminate.
    + destruct (strip text) as [|c r] eqn:Hs.
      * apply strip_empty in Hs. congruence.
      * exists (String c r). repeat split. discriminate.
  - exists DEFAULT_PROMPT_MESSAGE. repeat split. discriminate.
Qed.

End PromptFacts.

(** ** Validation and posting: what is ignored, what aborts *)

Module PosterMoreFacts.
Import PyStr Poster PosterSpec.
Local Open Scope string_scope.

(** X16. After the opening marker [```json] the strip step removes one
    more character, whatever it is: a response that starts with the marker
    and ends with [```] is cut down to what stands between the ninth
    character and the closing marker. *)
Theorem strip_fence_drops_character_after_marker (c : ascii) (body : string) :
  strip_fence ("```json" ++ String c (body ++ "```")) = body.
Proof.
  unfold strip_fence.
  change (startswith "```json" ("```json" ++ String c (body ++ "```"))) with true.
  cbv iota.
  change (drop 8 ("```json" ++ String c (body ++ "```"))) with (body ++ "```").
  rewrite PyStrFacts.endswith_append.
  exact (PyStrFacts.drop_last_append body "```").
Qed.

Section WithServices.
Context {codec : JsonCodec} {pydantic : Pydantic} {server : GitLab}.
Variable latest_diff : DiffRevision.

Lemma post_comments_raise (part_index : Z) (items : list json) :
  forall g E g' e,
    post_comments latest_diff part_index g E items = (g', Raise e) ->
    exists pre x post g0 E0,
      items = (pre ++ x :: post)%list
      /\ post_comments latest_diff part_index g E pre = (g0, Ok E0)
      /\ (((forall data, x <> JDict data) /\ e = TypeError /\ g' = g0)
          \/ (exists data comment,
                x = JDict data
                /\ ReviewComment_init data = Some comment
                /\ discussions_create g0 (discussion_of latest_diff comment)
                   = (g', CreateRaised e))).
Proof.
  induction items as [|x rest IH]; intros g E g' e; cbn [post_comments].
  - discriminate.
  - destruct (post_comment latest_diff part_index g E x) as [g1 [E1 | e1]] eqn:Hx.
    + intros Hrest. destruct (IH _ _ _ _ Hrest) as (pre & y & post & g0 & E0 & -> & Hpre & Hy).
      exists (x :: pre), y, post, g0, E0. split; [reflexivity|]. split; [|exact Hy].
      cbn [post_comments]. now rewrite Hx.
    + intros [= <- <-]. exists [], x, rest, g, E.
      split; [reflexivity|]. split; [reflexivity|].
      unfold post_comment in Hx. destruct x; try (left; injection Hx as <- <-;
        repeat split; intros data; discriminate).
      destruct (ReviewComment_init items) as [comment|] eqn:Hval; [|discriminate].
      destruct (discussions_create g (discussion_of latest_diff comment))
        as [g2 [|msg|e2]] eqn:Hcreate; try discriminate.
      injection Hx as <- <-. right. exists items, comment. auto.
Qed.

End WithServices.

(** X17. What aborts the posting of a part.  The loop over the comments
    of a part raises exactly when, the elements before it having been
    handled without an exception, it meets either an element that is not an
    object, which raises [TypeError] with the server as the elements before
    left it, or a validated comment for which the server raises something
    other than a [GitlabCreateError], which is raised again.  The elements
    after it are not posted. *)
Theorem post_comments_raises_exactly
  {codec : JsonCodec} {pydantic : Pydantic} {server : GitLab}
  (latest_diff : DiffRevision) (part_index : Z) (g g' : gitlab) (E : list json)
  (items : list json) (e : exn) :
  post_comments latest_diff part_index g E items = (g', Raise e)
  <-> exists pre x post g0 E0,
        items = (pre ++ x :: post)%list
        /\ post_comments latest_diff part_index g E pre = (g0, Ok E0)
        /\ (((forall data, x <> JDict data) /\ e = TypeError /\ g' = g0)
            \/ (exists data comment,
                  x = JDict data
                  /\ ReviewComment_init data = Some comment
                  /\ discussions_create g0 (discussion_of latest_diff comment)
                     = (g', CreateRaised e))).
Proof.
  split; [apply post_comments_raise|].
  intros (pre & x & post & g0 & E0 & -> & Hpre & Hx).
  rewrite PosterFacts.post_comments_app, Hpre. cbn [post_comments]. unfold post_comment.
  destruct Hx as [(Hnot & -> & ->) | (data & comment & -> & Hval & Hcreate)].
  - destruct x; try reflexivity. exfalso. exact (Hnot items eq_refl).
  - now rewrite Hval, Hcreate.
Qed.

Section WithServicesReport.
Context {codec : JsonCodec} {pydantic : Pydantic} {server : GitLab}.
Variable latest_diff : DiffRevision.

(** With parts that are all well-formed JSON, what is returned is the
    summary of a report that extends the one collected so far. *)
Lemma post_parts_report (parts : list string) :
  Forall decodes parts ->
  forall part_index g E g' r,
    post_parts latest_diff part_index g E parts = (g', Ok r) ->
    exists more, r = summary (E ++ more)%list.
Proof.
  induction 1 as [|p rest Hp _ IH]; intros part_index g E g' r; cbn [post_parts].
  - intros [= _ <-]. exists []. now rewrite app_nil_r.
  - destruct Hp as [v Hp]. unfold parse_part in Hp. rewrite Hp.
    assert (Hskip : post_parts latest_diff (part_index + 1) g
                      (E ++ [not_a_list_record part_index])%list rest = (g', Ok r) ->
                    exists more, r = summary (E ++ more)%list).
    { intros Hrest. destruct (IH _ _ _ _ _ Hrest) as (more & ->).
      exists (not_a_list_record part_index :: more). now rewrite <- app_assoc. }
    destruct v; try exact Hskip.
    destruct (post_comments latest_diff part_index g E items) as [g1 [E1 | e]] eqn:Hpost;
      [|discriminate].
    intros Hrest.
    destruct (PosterFacts.post_comments_clean _ _ _ _ _ _ _ Hpost) as (new & -> & _).
    destruct (IH _ _ _ _ _ Hrest) as (more & ->).
    exists (new ++ more)%list. now rewrite <- app_assoc.
Qed.

Lemma post_parts_not_a_list (pre : list string) (p : string) (post : list string)
      (v : json) :
  Forall decodes (pre ++ p :: post)%list ->
  parse_part p = Loaded v ->
  (forall items, v <> JList items) ->
  forall part_index g E g' r,
    post_parts latest_diff part_index g E (pre ++ p :: post)%list = (g', Ok r) ->
    exists E',
      In (not_a_list_record (part_index + Z.of_nat (length pre))) E'
      /\ r = Some ("Failed to post some comments due to errors: "
                   ++ json_dumps (JList E')).
Proof.
  intros Hdec Hp Hv. unfold parse_part in Hp.
  induction pre as [|x pre IH]; intros part_index g E g' r; cbn [app post_parts].
  - rewrite Hp. cbn [app] in Hdec. inversion Hdec as [|? ? _ Hpost]; subst.
    assert (Hgo : post_parts latest_diff (part_index + 1) g
                    (E ++ [not_a_list_record part_index])%list post = (g', Ok r) ->
                  exists E',
                    In (not_a_list_record (part_index + Z.of_nat (length (@nil string)))) E'
                    /\ r = Some ("Failed to post some comments due to errors: "
                                 ++ json_dumps (JList E'))).
    { intros Hrest. destruct (post_parts_report post Hpost _ _ _ _ _ Hrest) as (more & ->).
      exists ((E ++ [not_a_list_record part_index]) ++ more)%list. split.
      - cbn [length Z.of_nat]. rewrite Z.add_0_r.
        apply in_or_app. left. apply in_or_app. right. left. reflexivity.
      - unfold summary.
        destruct ((E ++ [not_a_list_record part_index]) ++ more)%list eqn:Hnil;
          [|reflexivity].
        apply app_eq_nil in Hnil. destruct Hnil as [Hnil _].
        apply app_eq_nil in Hnil. destruct Hnil as [_ Hnil]. discriminate. }
    destruct v; try exact Hgo. exfalso. exact (Hv items eq_refl).
  - cbn [app] in Hdec. inversion Hdec as [|? ? Hx Hrest]; subst.
    specialize (IH Hrest).
    replace (part_index + Z.of_nat (length (x :: pre)))%Z
      with ((part_index + 1) + Z.of_nat (length pre))%Z by (cbn [length]; lia).
    destruct Hx as [vx Hx]. unfold parse_part in Hx. rewrite Hx.
    destruct vx; try apply IH.
    destruct (post_comments latest_diff part_index g E items) as [g1 [E1 | e]];
      [apply IH | discriminate].
Qed.

End WithServicesReport.

(** X18. A response part that is well-formed JSON but not an array does
    not stop the posting: when all parts are well-formed JSON and
    [post_review_comments] returns, the parts after it have been handled
    and the returned summary serializes a report that holds the entry
    [Part n is not a list of comments.], [n] being the position of the
    part counted from 1. *)
Theorem part_not_a_list_is_reported
  {codec : JsonCodec} {pydantic : Pydantic} {server : GitLab}
  (latest_diff : DiffRevision) (mr g' : gitlab)
  (pre : list string) (p : string) (post : list string) (v : json)
  (r : option string) :
  Forall decodes (pre ++ p :: post)%list ->
  parse_part p = Loaded v ->
  (forall items, v <> JList items) ->
  post_review_comments mr (RCList (pre ++ p :: post)%list) latest_diff = (g', Ok r) ->
  exists E',
    In (JStr ("Part " ++ str_of_int (1 + Z.of_nat (length pre))
              ++ " is not a list of comments.")) E'
    /\ r = Some ("Failed to post some comments due to errors: "
                 ++ json_dumps (JList E')).
Proof.
  intros Hdec Hp Hv Hrun. cbn [post_review_comments] in Hrun.
  exact (post_parts_not_a_list latest_diff pre p post v Hdec Hp Hv 1%Z mr [] g' r Hrun).
Qed.

Lemma part_not_a_list_is_reported_witness :
  exists E',
    In (JStr ("Part " ++ str_of_int (1 + Z.of_nat (length ["[]"]))
              ++ " is not a list of comments.")) E'
    /\ Some ("Failed to post some comments due to errors: "
             ++ json_dumps (JsonCodec := Reference.json_codec)
                  (JList [JStr "Part 2 is not a list of comments."]))
       = Some ("Failed to post some comments due to errors: "
               ++ json_dumps (JsonCodec := Reference.json_codec) (JList E')).
Proof.
  apply (part_not_a_list_is_reported (codec := Reference.json_codec)
           (pydantic := Reference.strict_pydantic)
           (server := Reference.recording_gitlab) revision
           (@nil discussion) [posted "after" 4]
           ["[]"] "{}" ["[" ++ comment_object "after" "4" ++ "]"] (JDict [])).
  - repeat constructor; eexists; vm_compute; reflexivity.
  - reflexivity.
  - discriminate.
  - reflexivity.
Defined.

End PosterMoreFacts.

Module PyStrMoreFacts.
Import PyStr PyStrMore.
Local Open Scope string_scope.

Lemma lstrip_head (s : string) :
  match lstrip s with
  | EmptyString => True
  | String c _ => is_space c = false
  end.
Proof.
  induction s as [|c s IH]; cbn; [exact I|].
  destruct (is_space c) eqn:E; [exact IH|exact E].
Qed.

Lemma lstrip_idem (s : string) : lstrip (lstrip s) = lstrip s.
Proof.
  pose proof (lstrip_head s) as H.
  destruct (lstrip s) as [|c r]; [reflexivity|].
  cbn. rewrite H. reflexivity.
Qed.

Lemma rstrip_idem (s : string) : rstrip (rstrip s) = rstrip s.
Proof.
  induction s as [|c s IH]; [reflexivity|].
  cbn [rstrip]. destruct (rstrip s) as [|c' r] eqn:E.
  - destruct (is_space c) eqn:Ec; [reflexivity|].
    cbn. rewrite Ec. reflexivity.
  - cbn [rstrip]. cbn [rstrip] in IH. rewrite IH. reflexivity.
Qed.

Lemma rstrip_lstrip (s : string) : rstrip (lstrip s) = lstrip (rstrip s).
Proof.
  induction s as [|c s IH]; [reflexivity|].
  cbn [lstrip]. destruct (is_space c) eqn:Ec.
  - rewrite IH. cbn [rstrip]. destruct (rstrip s) as [|c' r] eqn:E.
    + rewrite Ec. reflexivity.
    + cbn [lstrip]. rewrite Ec. reflexivity.
  - cbn [rstrip]. destruct (rstrip s) as [|c' r] eqn:E.
    + rewrite Ec. cbn. rewrite Ec. reflexivity.
    + cbn [lstrip]. rewrite Ec. reflexivity.
Qed.

Lemma strip_idem (s : string) : strip (strip s) = strip s.
Proof.
  unfold strip. rewrite rstrip_lstrip, lstrip_idem, rstrip_idem. reflexivity.
Qed.

Lemma contains_app (c : ascii) (a b : string) :
  contains c (a ++ b) = contains c a || contains c b.
Proof.
  induction a as [|x a IH]; cbn; [reflexivity|].
  rewrite IH, orb_assoc. reflexivity.
Qed.

Lemma contains_lstrip (c : ascii) (s : string) :
  contains c s = false -> contains c (lstrip s) = false.
Proof.
  induction s as [|x s IH]; cbn; [auto|].
  intros H. apply orb_false_iff in H as [H1 H2].
  destruct (is_space x); [auto|]. cbn. rewrite H1, H2. reflexivity.
Qed.

Lemma contains_rstrip (c : ascii) (s : string) :
  contains c s = false -> contains c (rstrip s) = false.
Proof.
  induction s as [|x s IH]; cbn [rstrip contains]; [auto|].
  intros H. apply orb_false_iff in H as [H1 H2].
  specialize (IH H2).
  destruct (rstrip s) as [|y r].
  - destruct (is_space x); cbn; [reflexivity|]. rewrite H1. reflexivity.
  - cbn [contains]. cbn [contains] in IH. rewrite H1, IH. reflexivity.
Qed.

Lemma contains_strip (c : ascii) (s : string) :
  contains c s = false -> contains c (strip s) = false.
Proof. intros H. apply contains_lstrip, contains_rstrip, H. Qed.

Lemma append_nil_r (s : string) : s ++ "" = s.
Proof. induction s as [|c s IH]; cbn; [reflexivity|rewrite IH; reflexivity]. Qed.

Lemma append_append (a b c : string) : (a ++ b) ++ c = a ++ b ++ c.
Proof. induction a as [|x a IH]; cbn; [reflexivity|rewrite IH; reflexivity]. Qed.

Lemma span_append (class : ascii -> bool) (s : string) :
  s = fst (span class s) ++ snd (span class s).
Proof.
  induction s as [|c s IH]; cbn [span]; [reflexivity|].
  destruct (class c); [|reflexivity].
  destruct (span class s) as [d r]. cbn [fst snd append] in *. now rewrite <- IH.
Qed.

Lemma span_digits_span (s : string) : span_digits s = span is_digit s.
Proof.
  induction s as [|c s IH]; cbn [span span_digits]; [reflexivity|].
  rewrite IH. reflexivity.
Qed.

Lemma span_all (class : ascii -> bool) (d r : string) :
  all class d = true ->
  match r with EmptyString => True | String c _ => class c = false end ->
  span class (d ++ r) = (d, r).
Proof.
  intros Hd Hr. induction d as [|c d IH]; cbn [append span].
  - destruct r as [|c r]; [reflexivity|]. cbn [span]. rewrite Hr. reflexivity.
  - cbn [all] in Hd. apply andb_true_iff in Hd as [Hc Hd].
    rewrite Hc, (IH Hd). reflexivity.
Qed.

Lemma take_length_append (d r : string) : take (String.length d) (d ++ r) = d.
Proof. induction d as [|c d IH]; cbn; [destruct r; reflexivity|now rewrite IH]. Qed.

Lemma lstrip_span (s : string) : lstrip s = snd (span is_space s).
Proof.
  induction s as [|c s IH]; cbn [lstrip span]; [reflexivity|].
  destruct (is_space c); [|reflexivity].
  rewrite IH. destruct (span is_space s). reflexivity.
Qed.

Lemma digit_not (c x : ascii) :
  is_digit x = false -> is_digit c = true -> Ascii.eqb x c = false.
Proof.
  intros Hx Hc. destruct (Ascii.eqb_spec x c) as [->|]; [congruence|reflexivity].
Qed.

Lemma digit_not_space (c : ascii) : is_digit c = true -> is_space c = false.
Proof.
  destruct c as [[] [] [] [] [] [] [] []]; vm_compute; intros H;
    first [reflexivity | discriminate H].
Qed.

Lemma all_drop (class : ascii -> bool) (s : string) : forall n,
  all class s = true -> all class (drop n s) = true.
Proof.
  induction s as [|c s IH]; intros [|n] H; cbn [drop]; try exact H.
  cbn [all] in H. apply andb_true_iff in H as [_ H]. apply IH, H.
Qed.

Lemma all_absent (class : ascii -> bool) (c : ascii) (s : string) :
  class c = false -> all class s = true -> contains c s = false.
Proof.
  intros Hc. induction s as [|x s IH]; cbn [all contains]; [reflexivity|].
  intros H. apply andb_true_iff in H as [Hx H]. rewrite (IH H), orb_false_r.
  destruct (Ascii.eqb_spec x c) as [->|]; [congruence|reflexivity].
Qed.

Lemma digits_head (s : string) :
  all is_digit s = true ->
  match s with EmptyString => True | String c _ => is_space c = false end.
Proof.
  destruct s as [|c s]; [exact (fun _ => I)|]. cbn [all].
  intros H. apply andb_true_iff in H as [H _]. apply digit_not_space, H.
Qed.

Lemma strip_prefix_literal (p s : string) : strip_prefix p (p ++ s) = Some s.
Proof.
  induction p as [|c p IH]; cbn [strip_prefix append]; [destruct s; reflexivity|].
  rewrite Ascii.eqb_refl. exact IH.
Qed.

Lemma contains_drop (c : ascii) (s : string) : forall n,
  contains c s = false -> contains c (drop n s) = false.
Proof.
  induction s as [|c' s IH]; intros [|n] H; cbn [drop]; try exact H.
  cbn [contains] in H. apply orb_false_iff in H as [_ H]. apply IH, H.
Qed.

Lemma drop_drop (s : string) : forall n m, drop m (drop n s) = drop (n + m) s.
Proof.
  induction s as [|c s IH]; intros [|n] m; cbn [drop Nat.add]; try reflexivity.
  - destruct m; reflexivity.
  - apply IH.
Qed.

End PyStrMoreFacts.

Module ConfigFacts.
Import PyStr PyStrMore ConfigLoader MergeRequest PyStrMoreFacts.
Local Open Scope string_scope.

(** every piece of a split is free of the separator *)
Lemma split_from_pieces (sep : ascii) (s cur piece : string) :
  contains sep cur = false ->
  In piece (split_from sep cur s) -> contains sep piece = false.
Proof.
  revert cur. induction s as [|c s IH]; intros cur Hcur Hin.
  - cbn in Hin. destruct Hin as [<-|[]]. exact Hcur.
  - cbn [split_from] in Hin. destruct (Ascii.eqb c sep) eqn:E.
    + destruct Hin as [<-|Hin]; [exact Hcur|].
      apply (IH EmptyString); [reflexivity|exact Hin].
    + apply (IH (cur ++ String c EmptyString)); [|exact Hin].
      rewrite contains_app, Hcur. cbn. rewrite E. reflexivity.
Qed.

(** the first piece holds no character the text and [cur] do not hold *)
Lemma split_from_hd (sep c : ascii) (s cur : string) :
  contains c cur = false -> contains c s = false ->
  contains c (hd EmptyString (split_from sep cur s)) = false.
Proof.
  revert cur. induction s as [|x s IH]; intros cur Hcur Hs; [exact Hcur|].
  cbn [contains] in Hs. apply orb_false_iff in Hs as [H1 H2].
  cbn [split_from]. destruct (Ascii.eqb x sep); [exact Hcur|].
  apply IH; [|exact H2]. rewrite contains_app, Hcur. cbn. rewrite H1. reflexivity.
Qed.

Lemma split_from_nonempty (sep : ascii) (s cur : string) :
  split_from sep cur s <> [].
Proof.
  revert cur. induction s as [|x s IH]; intros cur; cbn; [discriminate|].
  destruct (Ascii.eqb x sep); [discriminate|apply IH].
Qed.

(** what [skip_extensions] returns is cut at commas and number signs and
    stripped *)
Lemma skip_extensions_entries (raw_extensions e : string) :
  In e (skip_extensions raw_extensions) ->
  contains "," e = false /\ contains "#" e = false /\ strip e = e.
Proof.
  unfold skip_extensions. intros H.
  apply in_map_iff in H as (piece & <- & Hin).
  apply filter_In in Hin as [Hin _].
  split; [|split].
  - apply contains_strip. unfold before_hash, split.
    apply split_from_hd; [reflexivity|].
    apply (split_from_pieces "," raw_extensions EmptyString); [reflexivity|exact Hin].
  - apply contains_strip. unfold before_hash, split.
    pose proof (split_from_nonempty "#" piece EmptyString) as Hne.
    destruct (split_from "#" EmptyString piece) as [|h t] eqn:E; [congruence|].
    cbn. apply (split_from_pieces "#" piece EmptyString); [reflexivity|].
    rewrite E. left. reflexivity.
  - apply strip_idem.
Qed.

(** splitting a text without the separator *)
Lemma split_from_clean (sep : ascii) (s cur : string) :
  contains sep s = false -> split_from sep cur s = [cur ++ s].
Proof.
  revert cur. induction s as [|x s IH]; intros cur H; cbn [split_from].
  - rewrite append_nil_r. reflexivity.
  - cbn [contains] in H. apply orb_false_iff in H as [H1 H2].
    rewrite H1, IH by exact H2. rewrite append_append. reflexivity.
Qed.

Lemma split_from_sep (sep : ascii) (s rest cur : string) :
  contains sep s = false ->
  split_from sep cur (s ++ String sep rest)
  = (cur ++ s) :: split_from sep "" rest.
Proof.
  revert cur. induction s as [|x s IH]; intros cur H; cbn [split_from append].
  - rewrite Ascii.eqb_refl, append_nil_r. reflexivity.
  - cbn [contains] in H. apply orb_false_iff in H as [H1 H2].
    rewrite H1, IH by exact H2. rewrite append_append. reflexivity.
Qed.

Lemma strip_space_before (e : string) : strip (" " ++ e) = strip e.
Proof.
  unfold strip. cbn [append rstrip].
  destruct (rstrip e) as [|c r] eqn:E; reflexivity.
Qed.

Lemma entry_kept (e : string) :
  entry e -> negb (String.eqb (strip e) "") = true /\ strip (before_hash e) = e.
Proof.
  intros (Hne & Hs & _ & Hh). split.
  - rewrite Hs. destruct e; [congruence|reflexivity].
  - unfold before_hash, split. rewrite split_from_clean by exact Hh. cbn. exact Hs.
Qed.

Lemma entry_kept_space (e : string) :
  entry e -> negb (String.eqb (strip (" " ++ e)) "") = true
             /\ strip (before_hash (" " ++ e)) = e.
Proof.
  intros (Hne & Hs & Hc & Hh). split.
  - rewrite strip_space_before, Hs. destruct e; [congruence|reflexivity].
  - unfold before_hash, split. rewrite split_from_clean.
    + cbn [hd]. change ("" ++ " " ++ e) with (" " ++ e).
      rewrite strip_space_before. exact Hs.
    + cbn. exact Hh.
Qed.

Lemma skip_extensions_join_tail (e : string) (rest : list string) :
  Forall entry (e :: rest) ->
  map (fun ext => strip (before_hash ext))
      (filter (fun ext => negb (String.eqb (strip ext) ""))
              (split_from "," "" (" " ++ join ", " (e :: rest))))
  = e :: rest.
Proof.
  revert e. induction rest as [|e' rest IH]; intros e H.
  - apply Forall_inv in H. cbn [join].
    destruct H as (Hne & Hs & Hc & Hh).
    rewrite split_from_clean by (cbn; exact Hc).
    cbn [filter map]. change ("" ++ " " ++ e) with (" " ++ e).
    destruct (entry_kept_space e (conj Hne (conj Hs (conj Hc Hh)))) as [K1 K2].
    rewrite K1. cbn [map]. rewrite K2. reflexivity.
  - pose proof (Forall_inv H) as He. pose proof (Forall_inv_tail H) as Ht.
    change (join ", " (e :: e' :: rest)) with (e ++ ", " ++ join ", " (e' :: rest)).
    change (" " ++ e ++ ", " ++ join ", " (e' :: rest))
      with ((" " ++ e) ++ String "," (" " ++ join ", " (e' :: rest))).
    rewrite split_from_sep by (cbn; apply He).
    cbn [filter map]. change ("" ++ " " ++ e) with (" " ++ e).
    destruct (entry_kept_space e He) as [K1 K2].
    rewrite K1. cbn [map]. rewrite K2, (IH e' Ht). reflexivity.
Qed.

(** X19. Reading back a list of extensions written with a comma and
    a blank between its entries gives the list: [skip_extensions] of the
    joined text is the list itself, for entries that are not empty and
    have no comma, no number sign and no white space around them.  The
    empty list, written as the empty text, is read back as the empty
    list. *)
Theorem skip_extensions_round_trip (exts : list string) :
  Forall entry exts -> skip_extensions (join ", " exts) = exts.
Proof.
  intros H. destruct exts as [|e rest]; [reflexivity|].
  unfold skip_extensions, split.
  destruct rest as [|e' rest].
  - cbn [join]. apply Forall_inv in H.
    rewrite split_from_clean by apply H.
    cbn [filter map]. change ("" ++ e) with e.
    destruct (entry_kept e H) as [K1 K2]. rewrite K1. cbn [map]. rewrite K2. reflexivity.
  - pose proof (Forall_inv H) as He. pose proof (Forall_inv_tail H) as Ht.
    change (join ", " (e :: e' :: rest))
      with (e ++ String "," (" " ++ join ", " (e' :: rest))).
    rewrite split_from_sep by apply He.
    cbn [filter map]. change ("" ++ e) with e.
    destruct (entry_kept e He) as [K1 K2]. rewrite K1. cbn [map].
    rewrite K2, (skip_extensions_join_tail e' rest Ht). reflexivity.
Qed.

Lemma skip_extensions_round_trip_witness :
  Forall entry [".png"; ".lock"; ".svg"]
  /\ skip_extensions ".png, .lock, .svg" = [".png"; ".lock"; ".svg"].
Proof.
  assert (H : Forall entry [".png"; ".lock"; ".svg"]).
  { apply Forall_cons; [|apply Forall_cons; [|apply Forall_cons; [|apply Forall_nil]]];
      (split; [discriminate|repeat split; reflexivity]). }
  split; [exact H|].
  exact (skip_extensions_round_trip [".png"; ".lock"; ".svg"] H).
Defined.

Lemma lstrip_split (s : string) :
  exists ws, all is_space ws = true /\ s = ws ++ lstrip s.
Proof.
  induction s as [|c s (ws & Hws & E)]; [exists ""; split; reflexivity|].
  cbn [lstrip]. destruct (is_space c) eqn:Hc.
  - exists (String c ws). cbn [all append]. rewrite Hc, Hws, <- E. split; reflexivity.
  - exists "". split; reflexivity.
Qed.

Lemma rstrip_all_space (ws : string) : all is_space ws = true -> rstrip ws = "".
Proof.
  induction ws as [|c ws IH]; cbn [all rstrip]; [reflexivity|].
  intros H. apply andb_true_iff in H as [Hc H]. rewrite (IH H), Hc. reflexivity.
Qed.

Lemma rstrip_keeps (c : ascii) (s : string) :
  is_space c = false -> rstrip (String c s) <> "".
Proof.
  intros Hc. cbn [rstrip]. destruct (rstrip s); [rewrite Hc|]; discriminate.
Qed.

(** X20. A piece of the setting that holds a comment only, white space
    and then a number sign, is not dropped: it leaves the empty text in
    [SKIP_EXTENSIONS], and then [get_diffs_from_mr] skips every file whose
    path has no extension. *)
Theorem comment_only_entry_skips_files_without_extension
  {pathlib : PathLib} (raw_extensions piece rest : string) (ch : change) :
  In piece (split "," raw_extensions) ->
  lstrip piece = String "#" rest ->
  splitext_ext (new_path ch) = "" ->
  In "" (skip_extensions raw_extensions)
  /\ skipped (skip_extensions raw_extensions) ch = true.
Proof.
  intros Hin Hl Hext.
  assert (H : In "" (skip_extensions raw_extensions)).
  { unfold skip_extensions. apply in_map_iff. exists piece. split.
    - destruct (lstrip_split piece) as (ws & Hws & E). rewrite Hl in E.
      unfold before_hash, split. rewrite E.
      rewrite split_from_sep by (apply (all_absent is_space); [reflexivity|exact Hws]).
      cbn [hd append]. unfold strip. rewrite (rstrip_all_space ws Hws). reflexivity.
    - apply filter_In. split; [exact Hin|].
      unfold strip. rewrite <- rstrip_lstrip, Hl.
      pose proof (rstrip_keeps "#" rest eq_refl) as Hne.
      destruct (rstrip (String "#" rest)); [congruence|reflexivity]. }
  split; [exact H|].
  unfold skipped, member. rewrite Hext. apply existsb_exists.
  exists "". split; [exact H|reflexivity].
Qed.

Lemma comment_only_entry_skips_files_without_extension_witness :
  skipped (pathlib := ReferencePath.posix_path)
          (skip_extensions ".png, # images")
          (mkChange "Makefile" "Makefile" "") = true.
Proof.
  apply (comment_only_entry_skips_files_without_extension
           (pathlib := ReferencePath.posix_path)
           ".png, # images" " # images" " images"
           (mkChange "Makefile" "Makefile" "")).
  - right. left. reflexivity.
  - reflexivity.
  - reflexivity.
Defined.

End ConfigFacts.

Module MergeRequestFacts.
Import PyStr DiffParser DiffParserSpec MergeRequest.
Local Open Scope Z_scope.

Lemma insert_at_end (v : version) (l : list version) :
  Forall (fun x => created_at x <= created_at v) l -> insert v l = l ++ [v].
Proof.
  induction l as [|x rest IH]; intros H; cbn [insert app]; [reflexivity|].
  pose proof (Forall_inv H) as Hx. cbn beta in Hx.
  destruct (Z.ltb_spec (created_at v) (created_at x)) as [Hlt|_]; [lia|].
  rewrite IH by exact (Forall_inv_tail H). reflexivity.
Qed.

Lemma insert_keeps_last (v w : version) (l : list version) :
  created_at v < created_at w ->
  exists l', insert v (l ++ [w]) = l' ++ [w].
Proof.
  intros Hlt. induction l as [|x rest IH]; cbn [insert app].
  - destruct (Z.ltb_spec (created_at v) (created_at w)) as [_|H]; [|lia].
    exists [v]. reflexivity.
  - destruct (created_at v <? created_at x).
    + exists (v :: x :: rest). reflexivity.
    + destruct IH as [l' ->]. exists (x :: l'). reflexivity.
Qed.

Lemma in_insert (v x : version) (l : list version) :
  In x (insert v l) -> x = v \/ In x l.
Proof.
  induction l as [|y rest IH]; cbn [insert].
  - intros [<-|[]]. left. reflexivity.
  - destruct (created_at v <? created_at y).
    + intros [<-|H]; [left; reflexivity|right; exact H].
    + intros [<-|H]; [right; left; reflexivity|].
      destruct (IH H) as [->|Hin]; [left; reflexivity|right; right; exact Hin].
Qed.

Lemma sorted_snoc (l : list version) (v : version) :
  sorted (l ++ [v]) = insert v (sorted l).
Proof. unfold sorted. rewrite fold_left_app. reflexivity. Qed.

(** the latest version of a non-empty list: where it stands in the list
    and in the sorted list *)
Lemma sorted_latest (versions : list version) :
  versions <> [] ->
  exists l1 v l2 s,
    versions = l1 ++ v :: l2
    /\ sorted versions = s ++ [v]
    /\ Forall (fun x => created_at x <= created_at v) (sorted versions)
    /\ Forall (fun x => created_at x <= created_at v) l1
    /\ Forall (fun x => created_at x < created_at v) l2.
Proof.
  induction versions as [|x l IH] using rev_ind; [congruence|]. intros _.
  destruct l as [|y l'].
  - exists [], x, [], []. cbn. repeat split; auto.
    constructor; [lia|constructor].
  - destruct IH as (l1 & v & l2 & s & Hl & Hs & Hall & H1 & H2); [discriminate|].
    rewrite sorted_snoc.
    destruct (Z.ltb_spec (created_at x) (created_at v)) as [Hlt|Hge].
    + rewrite Hs. destruct (insert_keeps_last x v s Hlt) as [s' Hs'].
      exists l1, v, (l2 ++ [x]), s'. rewrite Hl, Hs'. split; [|split; [|split; [|split]]].
      * rewrite <- app_assoc. reflexivity.
      * reflexivity.
      * rewrite <- Hs'. apply Forall_forall. intros z Hz.
        apply in_insert in Hz as [->|Hz]; [lia|].
        rewrite <- Hs in Hz. exact (proj1 (Forall_forall _ _) Hall z Hz).
      * exact H1.
      * apply Forall_app. split; [exact H2|]. constructor; [exact Hlt|constructor].
    + assert (Hle : Forall (fun z => created_at z <= created_at x) (sorted (y :: l'))).
      { eapply Forall_impl; [|exact Hall]. cbn beta. intros; lia. }
      rewrite (insert_at_end x _ Hle).
      exists (y :: l'), x, [], (sorted (y :: l')). split; [|split; [|split; [|split]]].
      * reflexivity.
      * reflexivity.
      * apply Forall_app. split; [exact Hle|]. constructor; [lia|constructor].
      * rewrite Hl. apply Forall_app. split.
        -- eapply Forall_impl; [|exact H1]. cbn beta. intros; lia.
        -- constructor; [lia|]. eapply Forall_impl; [|exact H2]. cbn beta. intros; lia.
      * constructor.
Qed.

(** X21. The version [get_diffs_from_mr] reads is the youngest one the
    merge request lists, and the last of the youngest in the order of the
    list: no version is younger, and every version listed after it is
    strictly older.  For a merge request without versions the function
    raises [IndexError]. *)
Theorem latest_version_is_last_youngest (versions : list version) :
  match versions with
  | [] => latest_version versions
          = Raise (OtherError "IndexError: list index out of range")
  | _ :: _ =>
      exists l1 v l2,
        versions = l1 ++ v :: l2
        /\ latest_version versions = Ok v
        /\ Forall (fun x => created_at x <= created_at v) l1
        /\ Forall (fun x => created_at x < created_at v) l2
  end.
Proof.
  destruct versions as [|x l].
  - reflexivity.
  - destruct (sorted_latest (x :: l)) as (l1 & v & l2 & s & Hl & Hs & _ & H1 & H2);
      [discriminate|].
    exists l1, v, l2. repeat split; auto.
    unfold latest_version, last_item. rewrite Hs, rev_app_distr. reflexivity.
Qed.

Section WithPathLib.
Context {pathlib : PathLib}.
Variable SKIP_EXTENSIONS : list string.

Lemma parse_diff_block_cases (diff_block : string) :
  if guarded (splitlines diff_block)
  then exists parsed, parse_diff_block diff_block = Ok parsed
  else parse_diff_block diff_block = Raise TypeError.
Proof.
  pose proof (DiffParserFacts.parse_diff_block_returns_iff diff_block) as Hiff.
  destruct (guarded (splitlines diff_block)).
  - apply Hiff. reflexivity.
  - unfold parse_diff_block in *.
    destruct (run initial (splitlines diff_block)) as [st|e] eqn:Hrun; cbn [bind] in *.
    + assert (Hex : exists parsed, Ok (st_parsed_lines st) = Ok parsed) by eauto.
      apply Hiff in Hex. discriminate.
    + now rewrite (DiffParserMoreFacts.run_raise_is_type_error _ _ _ Hrun).
Qed.

Lemma parse_changes_outcome (chs : list change) :
  forall parsed_diffs,
    if forallb parses (kept SKIP_EXTENSIONS chs)
    then exists ds, parse_changes SKIP_EXTENSIONS chs parsed_diffs = Ok (parsed_diffs ++ ds)
                    /\ Forall2 parsed_as (kept SKIP_EXTENSIONS chs) ds
    else parse_changes SKIP_EXTENSIONS chs parsed_diffs = Raise TypeError.
Proof.
  induction chs as [|ch rest IH]; intros acc.
  - cbn. exists []. rewrite app_nil_r. split; [reflexivity|constructor].
  - cbn [parse_changes kept filter]. fold (kept SKIP_EXTENSIONS rest).
    destruct (skipped SKIP_EXTENSIONS ch); cbn [negb]; [apply IH|].
    cbn [forallb]. unfold parses at 1.
    pose proof (parse_diff_block_cases (diff ch)) as Hp.
    destruct (guarded (splitlines (diff ch))); cbn [andb].
    + destruct Hp as [parsed Hp]. rewrite Hp. cbn [bind].
      specialize (IH (acc ++ [mkDiff (old_path ch) (new_path ch) parsed])).
      destruct (forallb parses (kept SKIP_EXTENSIONS rest)); [|exact IH].
      destruct IH as (ds & -> & HF).
      exists (mkDiff (old_path ch) (new_path ch) parsed :: ds). split.
      * rewrite <- app_assoc. reflexivity.
      * constructor; [|exact HF]. repeat split. exact Hp.
    + rewrite Hp. reflexivity.
Qed.

(** X22. [get_diffs_from_mr] returns exactly when the diff of every file
    it does not skip is one [parse_diff_block] returns on; it then returns
    one FileDiff for each of these files, in their order, with the paths
    of the file and its block parsed, and nothing for a skipped file,
    whose diff is never parsed.  When the diff of one kept file is not
    such a block, the whole call raises [TypeError]. *)
Theorem get_diffs_from_mr_outcome (versions : list version) (latest_diff : version) :
  latest_version versions = Ok latest_diff ->
  if forallb parses (kept SKIP_EXTENSIONS (changes latest_diff))
  then exists diffs,
      get_diffs_from_mr SKIP_EXTENSIONS versions = Ok (diffs, latest_diff)
      /\ Forall2 parsed_as (kept SKIP_EXTENSIONS (changes latest_diff)) diffs
  else get_diffs_from_mr SKIP_EXTENSIONS versions = Raise TypeError.
Proof.
  intros Hl. unfold get_diffs_from_mr. rewrite Hl. cbn [bind].
  pose proof (parse_changes_outcome (changes latest_diff) []) as H.
  destruct (forallb parses (kept SKIP_EXTENSIONS (changes latest_diff))).
  - destruct H as (ds & -> & HF). exists ds. split; [reflexivity|exact HF].
  - rewrite H. reflexivity.
Qed.

End WithPathLib.

Lemma get_diffs_from_mr_outcome_witness :
  latest_version [ScenarioMore.older; ScenarioMore.parsable] = Ok ScenarioMore.parsable
  /\ exists diffs,
      get_diffs_from_mr (pathlib := ReferencePath.posix_path) [".png"]
                        [ScenarioMore.older; ScenarioMore.parsable]
      = Ok (diffs, ScenarioMore.parsable)
      /\ Forall2 parsed_as [ScenarioMore.edited_file] diffs.
Proof.
  split; [reflexivity|].
  exact (get_diffs_from_mr_outcome (pathlib := ReferencePath.posix_path) [".png"]
           [ScenarioMore.older; ScenarioMore.parsable] ScenarioMore.parsable eq_refl).
Defined.

End MergeRequestFacts.

Module PipelineFacts.
Import PyStr DiffParser Reviewer Poster MergeRequest Pipeline.
Local Open Scope string_scope.

Section WithServices.
Context {tokenizer : Tokenizer} {service : LLM} {codec : JsonCodec}
        {pydantic : Pydantic} {server : GitLab} {pathlib : PathLib}
        {runtime : Runtime}.
Variables (MODEL : string) (TOKEN_LIMIT : Z) (SKIP_EXTENSIONS : list string).

(** X23. When the diff of one file the latest version keeps is not a
    block [parse_diff_block] returns on, the review of the merge request
    ends before anything is asked or posted: the language model and the
    merge request are left as they were, and the message is the failure
    message with the text of the [TypeError]. *)
Theorem review_fails_when_a_file_does_not_parse
  (mr_id : Z) (task_details : string) (w : world) (latest_diff : version) :
  latest_version (mr_versions w) = Ok latest_diff ->
  forallb parses (kept SKIP_EXTENSIONS (changes latest_diff)) = false ->
  review_merge_request MODEL TOKEN_LIMIT SKIP_EXTENSIONS mr_id task_details w
  = (w, failed_message mr_id TypeError task_details).
Proof.
  intros Hl Hp.
  pose proof (MergeRequestFacts.parse_changes_outcome SKIP_EXTENSIONS
                (changes latest_diff) []) as H.
  rewrite Hp in H. unfold review_merge_request, get_diffs_from_mr.
  rewrite Hl. cbn [bind]. rewrite H. reflexivity.
Qed.

(** X24. When every file of the latest version is skipped, or it has no
    file, the review sends no request and posts nothing, and still answers
    that the review is completed and the comments are posted, with the
    token summary of a fresh reviewer: no total, no diff tokens, the
    tokens of the prompt. *)
Theorem review_of_nothing_reports_comments_posted
  (mr_id : Z) (task_details : string) (w : world) (latest_diff : version) :
  latest_version (mr_versions w) = Ok latest_diff ->
  kept SKIP_EXTENSIONS (changes latest_diff) = [] ->
  review_merge_request MODEL TOKEN_LIMIT SKIP_EXTENSIONS mr_id task_details w
  = (w, posted_message mr_id
          (mkStats 0 (calculate_token_count MODEL (load_prompt_message (prompt_file w))) 0)).
Proof.
  intros Hl Hk.
  pose proof (MergeRequestFacts.parse_changes_outcome SKIP_EXTENSIONS
                (changes latest_diff) []) as H.
  rewrite Hk in H. cbn [forallb] in H. destruct H as (diffs & Hd & HF).
  inversion HF; subst. unfold review_merge_request, get_diffs_from_mr.
  rewrite Hl. cbn [bind]. rewrite Hd. cbn [bind app].
  destruct w as [pf vs ms mr]. reflexivity.
Qed.

End WithServices.

Lemma review_fails_when_a_file_does_not_parse_witness :
  review_merge_request (tokenizer := Reference.char_tokenizer)
                       (codec := Reference.json_codec)
                       (pydantic := Reference.strict_pydantic)
                       (pathlib := ReferencePath.posix_path)
                       (runtime := ReferencePath.describing_runtime)
                       "gpt-4" 3000 [".png"] 7 ""
                       (ScenarioMore.world_of [ScenarioMore.unparsable])
  = (ScenarioMore.world_of [ScenarioMore.unparsable],
     failed_message (runtime := ReferencePath.describing_runtime) 7 TypeError "").
Proof.
  apply (review_fails_when_a_file_does_not_parse
           (tokenizer := Reference.char_tokenizer)
           (codec := Reference.json_codec)
           (pydantic := Reference.strict_pydantic)
           (pathlib := ReferencePath.posix_path)
           (runtime := ReferencePath.describing_runtime)
           "gpt-4" 3000 [".png"] 7 ""
           (ScenarioMore.world_of [ScenarioMore.unparsable]) ScenarioMore.unparsable).
  - reflexivity.
  - reflexivity.
Defined.

Lemma review_of_nothing_reports_comments_posted_witness :
  review_merge_request (tokenizer := Reference.char_tokenizer)
                       (codec := Reference.json_codec)
                       (pydantic := Reference.strict_pydantic)
                       (pathlib := ReferencePath.posix_path)
                       (runtime := ReferencePath.describing_runtime)
                       "gpt-4" 3000 [".png"] 7 ""
                       (ScenarioMore.world_of [ScenarioMore.images_only])
  = (ScenarioMore.world_of [ScenarioMore.images_only],
     posted_message 7
       (mkStats 0 (calculate_token_count (tokenizer := Reference.char_tokenizer)
                     "gpt-4" (load_prompt_message None)) 0)).
Proof.
  apply (review_of_nothing_reports_comments_posted
           (tokenizer := Reference.char_tokenizer)
           (codec := Reference.json_codec)
           (pydantic := Reference.strict_pydantic)
           (pathlib := ReferencePath.posix_path)
           (runtime := ReferencePath.describing_runtime)
           "gpt-4" 3000 [".png"] 7 ""
           (ScenarioMore.world_of [ScenarioMore.images_only]) ScenarioMore.images_only).
  - reflexivity.
  - reflexivity.
Defined.

End PipelineFacts.

Module RegexFacts.
Import PyStr PyStrMore DiffParser Regex PyStrMoreFacts.
Local Open Scope string_scope.

Section Matcher.
Variable A : Type.
Implicit Types (k : cont A) (pos : nat) (s : string) (caps : captures).

(** a literal is matched as [strip_prefix] reads it *)
Lemma exec_lit (p : string) : forall pos s caps k,
  exec (lit p) pos s caps k
  = match strip_prefix p s with
    | Some r => k (pos + String.length p) r caps
    | None => None
    end.
Proof.
  induction p as [|c p IH]; intros pos s caps k; cbn [lit exec strip_prefix String.length].
  - rewrite Nat.add_0_r. destruct s; reflexivity.
  - destruct s as [|c' s]; [reflexivity|].
    destruct (Ascii.eqb c c'); [|reflexivity].
    rewrite IH, Nat.add_succ_r. reflexivity.
Qed.

(** the head of the text decides whether a run can start *)
Lemma plus_class_head (class : ascii -> bool) pos s caps k :
  match s with EmptyString => True | String c _ => class c = false end ->
  plus_class class pos s caps k = None.
Proof. destruct s as [|c s]; cbn; [reflexivity|]. intros ->. reflexivity. Qed.

(** a run fails when what follows fails after each of its lengths *)
Lemma plus_class_none (class : ascii -> bool) s : forall pos caps k,
  (forall n, k (pos + S n) (drop (S n) s) caps = None) ->
  plus_class class pos s caps k = None.
Proof.
  induction s as [|c s IH]; intros pos caps k H; cbn [plus_class]; [reflexivity|].
  destruct (class c); [|reflexivity].
  rewrite IH.
  - specialize (H 0). rewrite Nat.add_1_r in H. exact H.
  - intros n. specialize (H (S n)). rewrite Nat.add_succ_r in H. exact H.
Qed.

(** the longest run is tried first *)
Lemma plus_class_longest (class : ascii -> bool) s : forall pos caps k a,
  fst (span class s) <> EmptyString ->
  k (pos + String.length (fst (span class s))) (snd (span class s)) caps = Some a ->
  plus_class class pos s caps k = Some a.
Proof.
  induction s as [|c s IH]; intros pos caps k a Hne Hk; cbn [span] in *.
  - cbn in Hne. congruence.
  - cbn [plus_class]. destruct (class c) eqn:Hc; [|cbn in Hne; congruence].
    destruct (span class s) as [d r] eqn:Hs. cbn [fst snd String.length] in *.
    destruct d as [|c' d].
    + rewrite plus_class_head.
      * rewrite Nat.add_1_r in Hk. cbn [String.length] in Hk.
        pose proof (span_append class s) as E. rewrite Hs in E. cbn in E. subst r. exact Hk.
      * destruct s as [|c2 s]; [exact I|]. cbn [span] in Hs.
        destruct (class c2); [|reflexivity].
        destruct (span class s); discriminate.
    + rewrite (IH (S pos) caps k a); [reflexivity|discriminate|].
      rewrite Nat.add_succ_r in Hk. exact Hk.
Qed.

(** a run whose continuation refuses every text that goes on with the
    class takes the longest run, or fails *)
Lemma plus_class_greedy (class : ascii -> bool) k :
  (forall pos c s caps, class c = true -> k pos (String c s) caps = None) ->
  forall s pos caps,
    plus_class class pos s caps k
    = match fst (span class s) with
      | EmptyString => None
      | d => k (pos + String.length d) (snd (span class s)) caps
      end.
Proof.
  intros Hk. induction s as [|c s IH]; intros pos caps; cbn [plus_class span]; [reflexivity|].
  destruct (class c) eqn:Hc; [|reflexivity].
  rewrite IH. pose proof (span_append class s) as E.
  destruct (span class s) as [d r] eqn:Hs. cbn [fst snd] in *.
  replace (pos + String.length (String c d)) with (S pos + String.length d)
    by (cbn [String.length]; lia).
  destruct d as [|c' d].
  - cbn [append] in E. subst r. cbn [String.length]. rewrite Nat.add_0_r. reflexivity.
  - destruct (k (S pos + String.length (String c' d)) r caps) eqn:Ek; [reflexivity|].
    rewrite E. apply Hk.
    destruct s as [|c2 s]; [discriminate|]. cbn [span] in Hs.
    destruct (class c2) eqn:H2; [|discriminate].
    destruct (span class s). injection Hs as <- _ _. exact H2.
Qed.

End Matcher.

Section Matcher2.
Variable A : Type.
Implicit Types (k : cont A) (pos : nat) (s : string) (caps : captures).

Lemma exec_chr (c : ascii) pos s caps k :
  exec (Chr c) pos s caps k
  = match strip_prefix (String c EmptyString) s with
    | Some r => k (S pos) r caps
    | None => None
    end.
Proof.
  cbn [exec strip_prefix]. destruct s as [|c' s]; [reflexivity|].
  destruct (Ascii.eqb c c'); reflexivity.
Qed.

Lemma exec_digits pos s caps k :
  (forall pos c s caps, is_digit c = true -> k pos (String c s) caps = None) ->
  exec (Plus is_digit) pos s caps k
  = match digits1 s with
    | Some (d, r) => k (pos + String.length d) r caps
    | None => None
    end.
Proof.
  intros Hk. cbn [exec]. rewrite (plus_class_greedy A is_digit k Hk).
  unfold digits1. rewrite span_digits_span.
  destruct (span is_digit s) as [[|c d] r]; reflexivity.
Qed.

Lemma digits1_splits s d r : digits1 s = Some (d, r) -> s = d ++ r.
Proof.
  unfold digits1. rewrite span_digits_span.
  pose proof (span_append is_digit s) as E.
  destruct (span is_digit s) as [[|c d'] r']; [discriminate|].
  intros [= <- <-]. exact E.
Qed.

Lemma exec_group_digits (n : nat) pos s caps k :
  (forall pos c s caps, is_digit c = true -> k pos (String c s) caps = None) ->
  exec (Grp n (Plus is_digit)) pos s caps k
  = match digits1 s with
    | Some (d, r) => k (pos + String.length d) r ((n, d) :: caps)
    | None => None
    end.
Proof.
  intros Hk. cbn [exec].
  change (plus_class is_digit pos s caps
            (fun pos' s' caps' => k pos' s' ((n, take (pos' - pos) s) :: caps')))
    with (exec (Plus is_digit) pos s caps
            (fun pos' s' caps' => k pos' s' ((n, take (pos' - pos) s) :: caps'))).
  rewrite exec_digits by (intros; apply Hk; assumption).
  destruct (digits1 s) as [[d r]|] eqn:E; [|reflexivity].
  rewrite (digits1_splits _ _ _ E) at 1.
  replace (pos + String.length d - pos) with (String.length d) by lia.
  rewrite take_length_append. reflexivity.
Qed.

End Matcher2.

Section Matcher3.
Variable A : Type.
Implicit Types (k : cont A) (pos : nat) (s : string) (caps : captures).

Lemma exec_cat (r1 r2 : regex) pos s caps k :
  exec (Cat r1 r2) pos s caps k
  = exec r1 pos s caps (fun pos' s' caps' => exec r2 pos' s' caps' k).
Proof. reflexivity. Qed.

Lemma chr_refuses_digit (x : ascii) (r : regex) k :
  is_digit x = false ->
  forall pos c s caps, is_digit c = true ->
    exec (Cat (Chr x) r) pos (String c s) caps k = None.
Proof. intros Hx pos c s caps Hc. cbn [exec]. now rewrite (digit_not c x). Qed.

End Matcher3.

(** X25. The header test of [parse_diff_block] is the test the embedding
    of the parser uses: on every line, matching the expression of the
    source at the start of the line with the backtracking matcher, and
    reading groups 1 and 2 as integers, gives what [header_match] gives,
    the same refusal or the same two line numbers. *)
Theorem header_match_is_the_regex_match (line : string) :
  header_re_match line = header_match line.
Proof.
  unfold header_re_match, header_match, re_match, header_pattern, seq.
  cbn [fold_right].
  rewrite exec_cat, exec_lit.
  destruct (strip_prefix "@@ -" line) as [r1|]; cbn [obind]; [|reflexivity].
  rewrite exec_cat, exec_group_digits by (intros; now apply chr_refuses_digit).
  destruct (digits1 r1) as [[d1 q1]|]; cbn [obind fst snd]; [|reflexivity].
  rewrite exec_cat, exec_chr.
  destruct (strip_prefix "," q1) as [r2|]; cbn [obind]; [|reflexivity].
  rewrite exec_cat, exec_digits
    by (intros; change (lit " +") with (Cat (Chr " ") (lit "+"));
        rewrite exec_cat; now apply chr_refuses_digit).
  destruct (digits1 r2) as [[d2 q2]|]; cbn [obind fst snd]; [|reflexivity].
  rewrite exec_cat, exec_lit.
  destruct (strip_prefix " +" q2) as [r3|]; cbn [obind]; [|reflexivity].
  rewrite exec_cat, exec_group_digits.
  2:{ intros pos c s caps Hc. rewrite exec_cat. cbn [exec].
      rewrite (digit_not c ",") by (reflexivity || exact Hc).
      rewrite exec_lit. cbn [strip_prefix]. now rewrite (digit_not c " "). }
  destruct (digits1 r3) as [[d3 q3]|]; cbn [obind fst snd]; [|reflexivity].
  rewrite exec_cat. cbn [exec]. unfold accept.
  destruct q3 as [|x q3].
  - reflexivity.
  - change (strip_prefix "," (String x q3))
      with (if Ascii.eqb "," x then Some q3 else None).
    destruct (Ascii.eqb_spec "," x) as [<-|Hx].
    + match goal with
      | |- context [plus_class is_digit ?p ?s ?c ?k] =>
          change (plus_class is_digit p s c k) with (exec (Plus is_digit) p s c k)
      end.
      rewrite exec_digits
        by (intros; change (lit " @@") with (Cat (Chr " ") (lit "@@"));
            rewrite exec_cat; now apply chr_refuses_digit).
      destruct (digits1 q3) as [[d4 q4]|]; cbn [obind fst snd].
      * rewrite !exec_lit.
        destruct (strip_prefix " @@" q4); reflexivity.
      * rewrite exec_lit. reflexivity.
    + rewrite exec_lit. cbn [obind].
      destruct (strip_prefix " @@" (String x q3)); reflexivity.
Qed.


Section Matcher4.
Variable A : Type.
Implicit Types (k : cont A) (pos : nat) (s : string) (caps : captures).


(** a star takes the longest run when what follows accepts it *)
Lemma exec_star_longest (class : ascii -> bool) pos s caps k (a : A) :
  k (pos + String.length (fst (span class s))) (snd (span class s)) caps = Some a ->
  exec (Star class) pos s caps k = Some a.
Proof.
  intros Hk. cbn [exec].
  destruct (fst (span class s)) as [|c d] eqn:Hd.
  - rewrite plus_class_head.
    + pose proof (span_append class s) as E. rewrite Hd in E. cbn [append] in E.
      rewrite <- E in Hk. cbn [String.length] in Hk. rewrite Nat.add_0_r in Hk. exact Hk.
    + destruct s as [|c s]; [exact I|]. cbn [span] in Hd.
      destruct (class c); [|reflexivity]. destruct (span class s); discriminate.
  - rewrite (plus_class_longest A class s pos caps k a); [reflexivity| |].
    + rewrite Hd. discriminate.
    + rewrite Hd. exact Hk.
Qed.

End Matcher4.

Lemma search_anchored (r : regex) (s : string) :
  re_search (Cat Bol r) s = exec r 0 s [] accept.
Proof.
  assert (Hlater : forall s pos, search_from (Cat Bol r) (S pos) s = None).
  { clear s. induction s as [|c s IH]; intros pos; cbn [search_from exec Nat.eqb].
    - reflexivity.
    - apply IH. }
  unfold re_search. destruct s as [|c s]; cbn [search_from exec Nat.eqb].
  - destruct (exec r 0 "" [] accept); reflexivity.
  - rewrite Hlater. destruct (exec r 0 (String c s) [] accept); reflexivity.
Qed.

Lemma digits1_all (d r : string) :
  d <> EmptyString -> all is_digit d = true ->
  match r with EmptyString => True | String c _ => is_digit c = false end ->
  digits1 (d ++ r) = Some (d, r).
Proof.
  intros Hne Hd Hr. unfold digits1. rewrite span_digits_span, (span_all is_digit d r Hd Hr).
  destruct d; [congruence|reflexivity].
Qed.

End RegexFacts.

Module BotFacts.
Import PyStr PyStrMore DiffParser Regex Bot PyStrMoreFacts RegexFacts.
Local Open Scope string_scope.

Section Tails.
Variable A : Type.
Implicit Types (k : cont A) (pos : nat) (s : string) (caps : captures).

Lemma needs_colon (r : regex) pos s caps k :
  contains ":" s = false ->
  exec (Cat (Plus is_space) (Cat (Grp 1 (Plus is_digit)) (Cat (Chr ":") r))) pos s caps k
  = None.
Proof.
  intros H. rewrite exec_cat. cbn [exec]. apply plus_class_none. intros n.
  apply plus_class_none. intros m.
  assert (Ht : contains ":" (drop (S m) (drop (S n) s)) = false)
    by (rewrite drop_drop; apply contains_drop, H).
  destruct (drop (S m) (drop (S n) s)) as [|c' t]; [reflexivity|].
  cbn [contains] in Ht. apply orb_false_iff in Ht as [Ht _].
  rewrite Ascii.eqb_sym, Ht. reflexivity.
Qed.

Lemma space_first_refuses_digits (r : regex) pos s caps k n :
  all is_digit s = true ->
  exec (Cat (Plus is_space) r) pos (drop n s) caps k = None.
Proof.
  intros H. rewrite exec_cat. cbn [exec]. apply plus_class_head.
  apply digits_head, all_drop, H.
Qed.

Lemma details_tail_inside (D rest : string) :
  all is_digit D = true -> contains ":" rest = false ->
  forall n pos caps k,
    exec details_tail pos (drop n (D ++ String ":" rest)) caps k = None.
Proof.
  intros HD Hrest. unfold details_tail, seq. cbn [fold_right].
  induction D as [|c D IH]; intros n pos caps k.
  - cbn [append]. destruct n as [|n]; cbn [drop].
    + rewrite exec_cat. cbn [exec]. reflexivity.
    + apply needs_colon, contains_drop, Hrest.
  - cbn [all] in HD. apply andb_true_iff in HD as [Hc HD].
    cbn [append]. destruct n as [|n]; cbn [drop].
    + rewrite exec_cat. cbn [exec plus_class]. now rewrite (digit_not_space c Hc).
    + apply IH, HD.
Qed.

End Tails.

Lemma group_rest_of_line (n : nat) (pos : nat) (s : string) (caps : captures) :
  exec (Cat (Grp n (Star dot)) Emp) pos s caps accept
  = Some ((n, first_line s) :: caps).
Proof.
  rewrite exec_cat.
  change (exec (Grp n (Star dot)) pos s caps ?k)
    with (exec (Star dot) pos s caps
            (fun pos' s' caps' => k pos' s' ((n, take (pos' - pos) s) :: caps'))).
  apply exec_star_longest. cbn [exec]. unfold accept, first_line.
  replace (pos + String.length (fst (span dot s)) - pos)
    with (String.length (fst (span dot s))) by lia.
  rewrite (span_append dot s) at 2. rewrite take_length_append. reflexivity.
Qed.

Lemma details_tail_found (D rest : string) (pos : nat) (caps : captures) :
  D <> EmptyString -> all is_digit D = true ->
  exec details_tail pos (String " " (D ++ String ":" rest)) caps accept
  = Some ((2, first_line (lstrip rest)) :: (1, D) :: caps).
Proof.
  intros Hne HD. unfold details_tail, seq. cbn [fold_right].
  rewrite exec_cat.
  change (exec (Plus is_space) ?p ?s ?c ?k) with (plus_class is_space p s c k).
  assert (Hsp : span is_space (String " " (D ++ String ":" rest))
                = (" ", D ++ String ":" rest)).
  { apply (span_all is_space " " (D ++ String ":" rest)); [reflexivity|].
    destruct D as [|c D]; [congruence|]. cbn [append all] in *.
    apply andb_true_iff in HD as [Hc _]. apply digit_not_space, Hc. }
  apply plus_class_longest; rewrite Hsp; cbn [fst snd]; [discriminate|].
  rewrite exec_cat, exec_group_digits by (intros; now apply chr_refuses_digit).
  rewrite (digits1_all D (String ":" rest) Hne HD) by reflexivity.
  rewrite exec_cat, exec_chr. cbn [strip_prefix Ascii.eqb Bool.eqb].
  rewrite exec_cat. apply exec_star_longest.
  rewrite <- lstrip_span. apply group_rest_of_line.
Qed.

Lemma plain_tail_found (D : string) (pos : nat) (caps : captures) :
  D <> EmptyString -> all is_digit D = true ->
  exec plain_tail pos (String " " D) caps accept = Some ((1, D) :: caps).
Proof.
  intros Hne HD. unfold plain_tail, seq. cbn [fold_right].
  rewrite exec_cat.
  change (exec (Plus is_space) ?p ?s ?c ?k) with (plus_class is_space p s c k).
  assert (Hsp : span is_space (String " " D) = (" ", D)).
  { apply (span_all is_space " " D); [reflexivity|]. apply digits_head, HD. }
  apply plus_class_longest; rewrite Hsp; cbn [fst snd]; [discriminate|].
  rewrite exec_cat, exec_group_digits.
  2:{ intros p c s cs Hc. cbn [exec]. destruct s as [|c2 s]; [|reflexivity].
      destruct (Ascii.eqb_spec c LF) as [->|]; [discriminate Hc|reflexivity]. }
  pose proof (digits1_all D "" Hne HD I) as Hd.
  rewrite append_nil_r in Hd. rewrite Hd. reflexivity.
Qed.


Lemma plain_dot (c : ascii) : plain c = true -> dot c = true.
Proof.
  unfold plain, dot. intros H. apply andb_true_iff in H as [H _].
  destruct (Ascii.eqb_spec c LF) as [->|]; [discriminate H|reflexivity].
Qed.

Lemma plain_no_colon (X : string) : all plain X = true -> contains ":" X = false.
Proof.
  induction X as [|c X IH]; cbn [all contains]; [reflexivity|].
  intros H. apply andb_true_iff in H as [Hc H]. rewrite (IH H), orb_false_r.
  unfold plain in Hc. apply andb_true_iff in Hc as [_ Hc].
  now apply negb_true_iff in Hc.
Qed.

Lemma exec_any_or_nothing {A : Type} (r : regex) pos s caps (k : cont A) :
  exec (Cat (Alt (Plus dot) Emp) r) pos s caps k
  = match plus_class dot pos s caps (fun pos' s' caps' => exec r pos' s' caps' k) with
    | Some a => Some a
    | None => exec r pos s caps k
    end.
Proof. reflexivity. Qed.

(** the pattern with details finds nothing in a command without a colon *)
Lemma with_details_needs_colon (t : string) :
  contains ":" t = false ->
  re_search pattern_with_details ("/review" ++ t) = None.
Proof.
  intros H. unfold pattern_with_details, seq. cbn [fold_right].
  rewrite search_anchored, exec_cat, exec_lit, strip_prefix_literal.
  rewrite exec_any_or_nothing.
  rewrite plus_class_none; [apply needs_colon, H|].
  intros n. apply needs_colon, contains_drop, H.
Qed.

Lemma without_details_single_blank (D : string) :
  all is_digit D = true ->
  re_search pattern_without_details ("/review " ++ D) = None.
Proof.
  intros HD. unfold pattern_without_details, seq. cbn [fold_right].
  rewrite search_anchored, exec_cat, exec_lit.
  change ("/review " ++ D) with ("/review" ++ String " " D).
  rewrite strip_prefix_literal, exec_cat.
  change (exec (Plus dot) ?p ?s ?c ?k) with (plus_class dot p s c k).
  apply plus_class_none. intros n. cbn [drop].
  apply space_first_refuses_digits, HD.
Qed.

Lemma without_details_found (X D : string) :
  X <> EmptyString -> all plain X = true ->
  D <> EmptyString -> all is_digit D = true ->
  re_search pattern_without_details ("/review" ++ X ++ String " " D) = Some [(1, D)].
Proof.
  intros HX HpX HD HdD. unfold pattern_without_details, seq. cbn [fold_right].
  rewrite search_anchored, exec_cat, exec_lit, strip_prefix_literal, exec_cat.
  change (exec (Plus dot) ?p ?s ?c ?k) with (plus_class dot p s c k).
  fold (seq [Plus is_space; Grp 1 (Plus is_digit); Eol]). fold plain_tail.
  generalize (0 + String.length "/review").
  induction X as [|c X IH]; intros pos; [congruence|].
  cbn [all] in HpX. apply andb_true_iff in HpX as [Hc HpX].
  cbn [append plus_class]. rewrite (plain_dot c Hc).
  destruct X as [|c2 X].
  - cbn [append]. rewrite plus_class_none.
    + apply plain_tail_found; assumption.
    + intros n. cbn [drop]. unfold plain_tail, seq. cbn [fold_right].
      apply space_first_refuses_digits, HdD.
  - rewrite IH; [reflexivity|discriminate|exact HpX].
Qed.

Lemma with_details_found (D rest : string) :
  D <> EmptyString -> all is_digit D = true -> contains ":" rest = false ->
  re_search pattern_with_details ("/review " ++ D ++ String ":" rest)
  = Some [(2, first_line (lstrip rest)); (1, D)].
Proof.
  intros HD HdD Hrest. unfold pattern_with_details, seq. cbn [fold_right].
  rewrite search_anchored, exec_cat, exec_lit.
  change ("/review " ++ D ++ String ":" rest)
    with ("/review" ++ String " " (D ++ String ":" rest)).
  rewrite strip_prefix_literal, exec_any_or_nothing.
  fold (seq [Plus is_space; Grp 1 (Plus is_digit); Chr ":"; Star is_space; Grp 2 (Star dot)]).
  fold details_tail.
  rewrite plus_class_none.
  - apply details_tail_found; assumption.
  - intros n. cbn [drop]. apply details_tail_inside; assumption.
Qed.

Section WithServices.
Context {tokenizer : Tokenizer} {service : LLM} {codec : JsonCodec}
        {pydantic : Pydantic} {server : GitLab} {pathlib : PathLib}
        {runtime : Runtime}.
Variables (MODEL : string) (TOKEN_LIMIT : Z) (SKIP_EXTENSIONS : list string).

(** X26. The command the help text gives, [/review] and one blank and the
    number, is not accepted: neither pattern is found in it, since each
    asks for a character or white space more between [/review] and the
    white space before the number.  The bot replies [Invalid format] and
    starts no review. *)
Theorem review_command_single_blank_rejected
  (text D : string) (w : Pipeline.world) :
  strip text = "/review " ++ D -> all is_digit D = true ->
  review_command MODEL TOKEN_LIMIT SKIP_EXTENSIONS text w = (w, [INVALID_FORMAT]).
Proof.
  intros Ht HD. unfold review_command, review_request. rewrite Ht.
  rewrite (without_details_single_blank D HD).
  change ("/review " ++ D) with ("/review" ++ String " " D).
  rewrite with_details_needs_colon; [reflexivity|].
  cbn [contains]. apply (all_absent is_digit); [reflexivity|exact HD].
Qed.

(** X27. A command with something between [/review] and the blank before
    the number, such as the bot's name after an at sign, and nothing after
    the number, starts the review of that merge request without task
    details: the text in between is not empty and holds no white space
    and no colon. *)
Theorem review_command_without_details
  (text X D : string) (w : Pipeline.world) :
  strip text = "/review" ++ X ++ String " " D ->
  X <> EmptyString -> all plain X = true ->
  D <> EmptyString -> all is_digit D = true ->
  review_command MODEL TOKEN_LIMIT SKIP_EXTENSIONS text w
  = start_review MODEL TOKEN_LIMIT SKIP_EXTENSIONS (int_of_digits D) "" w.
Proof.
  intros Ht HX HpX HD HdD. unfold review_command, review_request. rewrite Ht.
  rewrite with_details_needs_colon.
  - rewrite (without_details_found X D HX HpX HD HdD). reflexivity.
  - rewrite contains_app, (plain_no_colon X HpX). cbn [contains orb].
    apply (all_absent is_digit); [reflexivity|exact HdD].
Qed.

(** X28. The command [/review], one blank, the number, a colon and a text
    without a further colon starts the review of that merge request; the
    task details are the first line of the text, without the white space
    before it. *)
Theorem review_command_with_details
  (text D rest : string) (w : Pipeline.world) :
  strip text = "/review " ++ D ++ String ":" rest ->
  D <> EmptyString -> all is_digit D = true -> contains ":" rest = false ->
  review_command MODEL TOKEN_LIMIT SKIP_EXTENSIONS text w
  = start_review MODEL TOKEN_LIMIT SKIP_EXTENSIONS (int_of_digits D)
                 (first_line (lstrip rest)) w.
Proof.
  intros Ht HD HdD Hrest. unfold review_command, review_request. rewrite Ht.
  rewrite (with_details_found D rest HD HdD Hrest). reflexivity.
Qed.


Lemma search_skips_to_at (r : regex) (pre s : string) : forall pos,
  contains "@" pre = false ->
  search_from (Cat (Chr "@") r) pos (pre ++ s)
  = search_from (Cat (Chr "@") r) (pos + String.length pre) s.
Proof.
  induction pre as [|c pre IH]; intros pos H; cbn [append String.length].
  - rewrite Nat.add_0_r. reflexivity.
  - cbn [contains] in H. apply orb_false_iff in H as [Hc H].
    cbn [search_from]. rewrite exec_cat. cbn [exec].
    rewrite Ascii.eqb_sym, Hc, (IH (S pos) H), Nat.add_succ_r. reflexivity.
Qed.

Lemma mention_with_details_found (bot_username pre D rest : string) :
  contains "@" pre = false ->
  D <> EmptyString -> all is_digit D = true ->
  re_search (mention_with_details bot_username)
            (pre ++ String "@" (bot_username ++ String " " (D ++ String ":" rest)))
  = Some [(2, first_line (lstrip rest)); (1, D)].
Proof.
  intros Hpre HD HdD. unfold re_search, mention_with_details, seq. cbn [fold_right].
  rewrite search_skips_to_at by exact Hpre.
  fold (seq [Plus is_space; Grp 1 (Plus is_digit); Chr ":"; Star is_space; Grp 2 (Star dot)]).
  fold details_tail.
  cbn [search_from]. rewrite exec_cat, exec_chr.
  cbn [strip_prefix Ascii.eqb Bool.eqb].
  rewrite exec_cat, exec_lit, strip_prefix_literal.
  rewrite details_tail_found by assumption. reflexivity.
Qed.


(** X30. A message that, after a text without an at sign, mentions the bot
    and goes on with one blank, a number, a colon and a text starts the
    review of that merge request, with the first line of the text, without
    the white space before it, as task details.  The user name is one of
    letters, digits and underscores, which the pattern reads as
    themselves. *)
Theorem handle_message_mention_with_details
  (bot_username text pre D rest : string) (w : Pipeline.world) :
  strip text = pre ++ String "@" (bot_username ++ String " " (D ++ String ":" rest)) ->
  all is_word bot_username = true ->
  contains "@" pre = false ->
  D <> EmptyString -> all is_digit D = true ->
  handle_message MODEL TOKEN_LIMIT SKIP_EXTENSIONS bot_username (Some text) w
  = start_review MODEL TOKEN_LIMIT SKIP_EXTENSIONS (int_of_digits D)
                 (first_line (lstrip rest)) w.
Proof.
  intros Ht _ Hpre HD HdD. unfold handle_message.
  destruct text as [|c t].
  - cbn in Ht. destruct pre; discriminate Ht.
  - unfold mention_request. rewrite Ht.
    rewrite (mention_with_details_found bot_username pre D rest Hpre HD HdD).
    reflexivity.
Qed.

End WithServices.

(** The matcher on the commands of the examples: the greedy run of
    characters after [/review] takes the last number that a colon
    follows, and the search for a mention goes on to the first mention
    that has a colon after its number. *)
Example review_request_two_blanks :
  review_request "/review  123" = Some (123%Z, "").
Proof. vm_compute. reflexivity. Qed.

Example review_request_takes_last_number :
  review_request "/review 12: see 34: x" = Some (34%Z, "x").
Proof. vm_compute. reflexivity. Qed.

Example mention_request_second_mention :
  mention_request "mybot" "@mybot 12 and @mybot 13: x" = Some (13%Z, "x").
Proof. vm_compute. reflexivity. Qed.

Example mention_request_without_details :
  mention_request "mybot" "hey @mybot   77 please" = Some (77%Z, "").
Proof. vm_compute. reflexivity. Qed.

Lemma review_command_single_blank_rejected_witness :
  review_command (tokenizer := Reference.char_tokenizer)
           (codec := Reference.json_codec)
           (pydantic := Reference.strict_pydantic)
           (pathlib := ReferencePath.posix_path)
           (runtime := ReferencePath.describing_runtime)
           "gpt-4" 3000 [".png"] " /review 123 "
           (ScenarioMore.world_of [ScenarioMore.parsable])
  = (ScenarioMore.world_of [ScenarioMore.parsable], [INVALID_FORMAT]).
Proof.
  apply (review_command_single_blank_rejected
           (tokenizer := Reference.char_tokenizer)
           (codec := Reference.json_codec)
           (pydantic := Reference.strict_pydantic)
           (pathlib := ReferencePath.posix_path)
           (runtime := ReferencePath.describing_runtime)
           "gpt-4" 3000 [".png"]
           " /review 123 " "123" (ScenarioMore.world_of [ScenarioMore.parsable])).
  - reflexivity.
  - reflexivity.
Defined.

Lemma review_command_without_details_witness :
  review_command (tokenizer := Reference.char_tokenizer)
           (codec := Reference.json_codec)
           (pydantic := Reference.strict_pydantic)
           (pathlib := ReferencePath.posix_path)
           (runtime := ReferencePath.describing_runtime)
           "gpt-4" 3000 [".png"] "/review@reviewer_bot 123"
           (ScenarioMore.world_of [ScenarioMore.parsable])
  = start_review (tokenizer := Reference.char_tokenizer)
           (codec := Reference.json_codec)
           (pydantic := Reference.strict_pydantic)
           (pathlib := ReferencePath.posix_path)
           (runtime := ReferencePath.describing_runtime)
           "gpt-4" 3000 [".png"] 123 ""
           (ScenarioMore.world_of [ScenarioMore.parsable]).
Proof.
  apply (review_command_without_details
           (tokenizer := Reference.char_tokenizer)
           (codec := Reference.json_codec)
           (pydantic := Reference.strict_pydantic)
           (pathlib := ReferencePath.posix_path)
           (runtime := ReferencePath.describing_runtime)
           "gpt-4" 3000 [".png"]
           "/review@reviewer_bot 123" "@reviewer_bot" "123"
           (ScenarioMore.world_of [ScenarioMore.parsable])).
  - reflexivity.
  - discriminate.
  - reflexivity.
  - discriminate.
  - reflexivity.
Defined.

Lemma review_command_with_details_witness :
  review_command (tokenizer := Reference.char_tokenizer)
           (codec := Reference.json_codec)
           (pydantic := Reference.strict_pydantic)
           (pathlib := ReferencePath.posix_path)
           (runtime := ReferencePath.describing_runtime)
           "gpt-4" 3000 [".png"] "/review 123:  fix the parser"
           (ScenarioMore.world_of [ScenarioMore.parsable])
  = start_review (tokenizer := Reference.char_tokenizer)
           (codec := Reference.json_codec)
           (pydantic := Reference.strict_pydantic)
           (pathlib := ReferencePath.posix_path)
           (runtime := ReferencePath.describing_runtime)
           "gpt-4" 3000 [".png"] 123 "fix the parser"
           (ScenarioMore.world_of [ScenarioMore.parsable]).
Proof.
  apply (review_command_with_details
           (tokenizer := Reference.char_tokenizer)
           (codec := Reference.json_codec)
           (pydantic := Reference.strict_pydantic)
           (pathlib := ReferencePath.posix_path)
           (runtime := ReferencePath.describing_runtime)
           "gpt-4" 3000 [".png"]
           "/review 123:  fix the parser" "123" "  fix the parser"
           (ScenarioMore.world_of [ScenarioMore.parsable])).
  - reflexivity.
  - discriminate.
  - reflexivity.
  - reflexivity.
Defined.


Lemma handle_message_mention_with_details_witness :
  handle_message (tokenizer := Reference.char_tokenizer)
           (codec := Reference.json_codec)
           (pydantic := Reference.strict_pydantic)
           (pathlib := ReferencePath.posix_path)
           (runtime := ReferencePath.describing_runtime)
           "gpt-4" 3000 [".png"] "reviewer_bot"
           (Some "hello @reviewer_bot 123: fix the parser")
           (ScenarioMore.world_of [ScenarioMore.parsable])
  = start_review (tokenizer := Reference.char_tokenizer)
           (codec := Reference.json_codec)
           (pydantic := Reference.strict_pydantic)
           (pathlib := ReferencePath.posix_path)
           (runtime := ReferencePath.describing_runtime)
           "gpt-4" 3000 [".png"] 123 "fix the parser"
           (ScenarioMore.world_of [ScenarioMore.parsable]).
Proof.
  apply (handle_message_mention_with_details
           (tokenizer := Reference.char_tokenizer)
           (codec := Reference.json_codec)
           (pydantic := Reference.strict_pydantic)
           (pathlib := ReferencePath.posix_path)
           (runtime := ReferencePath.describing_runtime)
           "gpt-4" 3000 [".png"]
           "reviewer_bot" "hello @reviewer_bot 123: fix the parser"
           "hello " "123" " fix the parser"
           (ScenarioMore.world_of [ScenarioMore.parsable])).
  - reflexivity.
  - reflexivity.
  - reflexivity.
  - discriminate.
  - reflexivity.
Defined.

End BotFacts.
